(** * Pagination and dynamic-filter helpers of the blog backend

    A shallow embedding of [pkg/helpers/pagination/pagination.go] and
    [pkg/helpers/pagination/pagination_query.go], of the command line
    ([script.Commands], [main.args]) and of the [Authenticate] middleware,
    together with the properties the specification states about them and
    further properties read off the code.

    Conventions:
    - a Go [string] is a byte sequence: Rocq's [string] (a list of 8-bit
      [ascii]);
    - a Go [int] / [int64] is a [Z] ([int] is taken to be 64 bits wide);
      arithmetic that can leave the 64-bit range is wrapped explicitly
      with [wrap64];
    - a [*gorm.DB] under construction is the list of builder calls made on
      it ([gorm.DB]); running it is left to a store of the caller's
      ([gorm.Backend]), and every statement that runs is logged;
    - a panic is a result of [None];
    - a method with a pointer receiver that mutates it returns the new
      receiver. *)

From Stdlib Require Import ZArith String Ascii List Bool Lia SpecFloat.
From stdpp Require Import base tactics option list strings gmap.
Import ListNotations.

Local Open Scope string_scope.
Local Open Scope Z_scope.

(** ** The parts of the Go language and standard library the code relies on *)
Module Go.

(** *** Machine integers *)

Definition MinInt64 : Z := - 2 ^ 63.
Definition MaxInt64 : Z := 2 ^ 63 - 1.

(** Two's-complement wrap-around of 64-bit signed arithmetic. *)
Definition wrap64 (z : Z) : Z := (z + 2 ^ 63) mod 2 ^ 64 - 2 ^ 63.

(** *** Strings as bytes *)

Definition byte_of (c : ascii) : Z := Z.of_N (N_of_ascii c).

Fixpoint bytes (s : string) : list Z :=
  match s with
  | EmptyString => []
  | String c s' => byte_of c :: bytes s'
  end.

(** [len(s)]: the number of bytes. *)
Definition len (s : string) : Z := Z.of_nat (String.length s).

(** *** UTF-8 decoding, as performed by [for _, r := range s] *)

Definition RuneError : Z := 0xFFFD.
Definition RuneSelf : Z := 0x80.

(** For a lead byte [b0 >= RuneSelf]: the length of the sequence it
    starts and the range accepted for the second byte ([utf8.first] and
    [utf8.acceptRanges]); [None] for a byte that starts no sequence. *)
Definition first (b0 : Z) : option (nat * Z * Z) :=
  if b0 <? 0xC2 then None
  else if b0 <=? 0xDF then Some (2%nat, 0x80, 0xBF)
  else if b0 =? 0xE0 then Some (3%nat, 0xA0, 0xBF)
  else if b0 <=? 0xEC then Some (3%nat, 0x80, 0xBF)
  else if b0 =? 0xED then Some (3%nat, 0x80, 0x9F)
  else if b0 <=? 0xEF then Some (3%nat, 0x80, 0xBF)
  else if b0 =? 0xF0 then Some (4%nat, 0x90, 0xBF)
  else if b0 <=? 0xF3 then Some (4%nat, 0x80, 0xBF)
  else if b0 =? 0xF4 then Some (4%nat, 0x80, 0x8F)
  else None.

Definition is_cont (b : Z) : bool := (0x80 <=? b) && (b <=? 0xBF).

(** [utf8.DecodeRuneInString] on a non-empty input [b0 :: rest]: the rune
    and the number of bytes it occupies. Every malformed sequence decodes
    to [RuneError] of width 1. *)
Definition DecodeRune (b0 : Z) (rest : list Z) : Z * nat :=
  if b0 <? RuneSelf then (b0, 1%nat)
  else
    match first b0 with
    | None => (RuneError, 1%nat)
    | Some (sz, lo, hi) =>
        match rest with
        | [] => (RuneError, 1%nat)
        | b1 :: rest1 =>
            if (b1 <? lo) || (hi <? b1) then (RuneError, 1%nat)
            else if (sz <=? 2)%nat then
              (Z.lor (Z.shiftl (Z.land b0 0x1F) 6) (Z.land b1 0x3F), 2%nat)
            else
              match rest1 with
              | [] => (RuneError, 1%nat)
              | b2 :: rest2 =>
                  if negb (is_cont b2) then (RuneError, 1%nat)
                  else if (sz <=? 3)%nat then
                    (Z.lor (Z.lor (Z.shiftl (Z.land b0 0x0F) 12)
                                  (Z.shiftl (Z.land b1 0x3F) 6))
                           (Z.land b2 0x3F), 3%nat)
                  else
                    match rest2 with
                    | [] => (RuneError, 1%nat)
                    | b3 :: _ =>
                        if negb (is_cont b3) then (RuneError, 1%nat)
                        else
                          (Z.lor (Z.lor (Z.lor (Z.shiftl (Z.land b0 0x07) 18)
                                               (Z.shiftl (Z.land b1 0x3F) 12))
                                        (Z.shiftl (Z.land b2 0x3F) 6))
                                 (Z.land b3 0x3F), 4%nat)
                    end
              end
        end
    end.

(** The runes a [range] loop visits; [skip] counts the bytes still
    belonging to the rune decoded last. *)
Fixpoint runes_from (skip : nat) (bs : list Z) : list Z :=
  match bs with
  | [] => []
  | b :: rest =>
      match skip with
      | S k => runes_from k rest
      | O => let '(r, sz) := DecodeRune b rest in
             r :: runes_from (Nat.pred sz) rest
      end
  end.

Definition runes (s : string) : list Z := runes_from 0 (bytes s).

(** *** [strconv.Atoi] *)

Definition is_digit (b : Z) : bool := (48 <=? b) && (b <=? 57).

(** The value of a digit string, most significant digit first. *)
Fixpoint digits_value (acc : Z) (bs : list Z) : option Z :=
  match bs with
  | [] => Some acc
  | b :: rest =>
      if is_digit b then digits_value (acc * 10 + (b - 48)) rest else None
  end.

Definition parse_unsigned (bs : list Z) : option Z :=
  match bs with
  | [] => None
  | _ => digits_value 0 bs
  end.

(** [Atoi s] is [Some n] when Go returns [(n, nil)] and [None] when it
    returns an error: an optional sign, at least one decimal digit,
    nothing else, and a value that fits an [int] (syntax and range
    errors are not told apart: the callers only test [err == nil]). *)
Definition Atoi (s : string) : option Z :=
  match bytes s with
  | [] => None
  | b0 :: rest =>
      if b0 =? 45 (* '-' *) then
        match parse_unsigned rest with
        | Some v => if v <=? 2 ^ 63 then Some (- v) else None
        | None => None
        end
      else
        match parse_unsigned (if b0 =? 43 (* '+' *) then rest else b0 :: rest) with
        | Some v => if v <? 2 ^ 63 then Some v else None
        | None => None
        end
  end.

(** *** [strings] *)

(** [strings.Join]. *)
Fixpoint Join (elems : list string) (sep : string) : string :=
  match elems with
  | [] => ""
  | [e] => e
  | e :: rest => e +:+ sep +:+ Join rest sep
  end.

Definition is_ascii (s : string) : bool :=
  forallb (fun b => b <? RuneSelf) (bytes s).

Definition upper_byte (c : ascii) : ascii :=
  let b := byte_of c in
  if (97 <=? b) && (b <=? 122) then ascii_of_N (Z.to_N (b - 32)) else c.

Fixpoint upper_ascii (s : string) : string :=
  match s with
  | EmptyString => EmptyString
  | String c s' => String (upper_byte c) (upper_ascii s')
  end.

(** The Unicode tables behind [strings.ToUpper] and [strings.EqualFold]
    are not written out: the two functions that consult them are taken
    from an instance of this class. *)
Class Unicode := {
  (** [strings.Map(unicode.ToUpper, s)], used for a non-ASCII [s] only *)
  map_ToUpper : string -> string;
  (** [strings.EqualFold] *)
  EqualFold : string -> string -> bool
}.

(** [strings.ToUpper]: the ASCII fast path is spelled out, everything
    else goes through [unicode.ToUpper]. *)
Definition ToUpper `{Unicode} (s : string) : string :=
  if is_ascii s then upper_ascii s else map_ToUpper s.

End Go.

(** ** [float64]: IEEE 754 binary64, after the Standard Library's
    specification of floating-point arithmetic *)
Module Float64.

Definition prec : Z := 53.
Definition emax : Z := 1024.

(** [float64(n)] for an integer [n]: rounded to the nearest, ties to even. *)
Definition of_int (n : Z) : spec_float := binary_normalize prec emax n 0 false.

(** [x / y] *)
Definition div (x y : spec_float) : spec_float := SFdiv prec emax x y.

(** The least integer not below the ratio [m / d], for [d <> 0]. *)
Definition ceil_div (m d : Z) : Z := - ((- m) / d).

(** [math.Ceil]: zeros, infinities, NaN and integers are returned as they
    are; a result that rounds up to zero keeps the sign of [x]. *)
Definition Ceil (x : spec_float) : spec_float :=
  match x with
  | S754_finite s m e =>
      if 0 <=? e then x
      else binary_normalize prec emax
             (ceil_div (cond_Zopp s (Zpos m)) (2 ^ (- e))) 0 s
  | _ => x
  end.

(** What [int64(x)] yields when no [int64] represents [x]: the language
    leaves it to the implementation. *)
Class Platform := { int64_overflow : spec_float -> Z }.

(** [int64(x)]: truncation toward zero. *)
Definition to_int64 `{Platform} (x : spec_float) : Z :=
  match x with
  | S754_zero _ => 0
  | S754_finite s m e =>
      let t := cond_Zopp s (if 0 <=? e then Zpos m * 2 ^ e
                            else Zpos m / 2 ^ (- e)) in
      if (Go.MinInt64 <=? t) && (t <=? Go.MaxInt64) then t
      else int64_overflow x
  | _ => int64_overflow x
  end.

(** The amd64 instance: every conversion out of range gives the
    "integer indefinite" value. *)
Definition amd64 : Platform := {| int64_overflow := fun _ => Go.MinInt64 |}.

End Float64.

(** ** [gin.Context], reduced to the URL query it carries *)
Module gin.

(** [url.Values]: every key that is present has at least one value. *)
Record Context := { queryCache : gmap string (string * list string) }.

(** [ctx.Query(key)]: the first value of [key], or the empty string. *)
Definition Query (ctx : Context) (key : string) : string :=
  match queryCache ctx !! key with
  | Some (v, _) => v
  | None => ""
  end.

(** A context whose query holds each of the given keys once. *)
Definition of_pairs (kvs : list (string * string)) : Context :=
  {| queryCache := list_to_map (map (fun kv => (fst kv, (snd kv, []))) kvs) |}.

End gin.

(** ** pagination.go *)

Record PaginationRequest := {
  Page : Z; PerPage : Z; Search : string; Sort : string; Order : string }.

Record PaginationResponse := {
  RPage : Z; RPerPage : Z; MaxPage : Z; Total : Z }.

Module PaginationRequest.

Definition with_Page (v : Z) (p : PaginationRequest) : PaginationRequest :=
  {| Page := v; PerPage := PerPage p; Search := Search p; Sort := Sort p; Order := Order p |}.

Definition with_PerPage (v : Z) (p : PaginationRequest) : PaginationRequest :=
  {| Page := Page p; PerPage := v; Search := Search p; Sort := Sort p; Order := Order p |}.

Definition with_Search (v : string) (p : PaginationRequest) : PaginationRequest :=
  {| Page := Page p; PerPage := PerPage p; Search := v; Sort := Sort p; Order := Order p |}.

Definition with_Sort (v : string) (p : PaginationRequest) : PaginationRequest :=
  {| Page := Page p; PerPage := PerPage p; Search := Search p; Sort := v; Order := Order p |}.

Definition with_Order (v : string) (p : PaginationRequest) : PaginationRequest :=
  {| Page := Page p; PerPage := PerPage p; Search := Search p; Sort := Sort p; Order := v |}.

(** [GetOffset] coerces [Page] in place and returns the offset; the product
    is computed on 64-bit integers. *)
Definition GetOffset (p : PaginationRequest) : Z * PaginationRequest :=
  let p := if Page p <=? 0 then with_Page 1 p else p in
  (Go.wrap64 (Go.wrap64 (Page p - 1) * PerPage p), p).

(** [GetLimit] coerces [PerPage] in place and returns it. *)
Definition GetLimit (p : PaginationRequest) : Z * PaginationRequest :=
  let p := if PerPage p <=? 0 then with_PerPage 10 p else p in
  (PerPage p, p).

Definition Validate (p : PaginationRequest) : PaginationRequest :=
  let p := if Page p <=? 0 then with_Page 1 p else p in
  let p := if PerPage p <=? 0 then with_PerPage 10 p else p in
  let p := if String.eqb (Order p) "" then with_Order "asc" p else p in
  let p := if negb (String.eqb (Order p) "asc") && negb (String.eqb (Order p) "desc")
           then with_Order "asc" p else p in
  p.

End PaginationRequest.

Definition BindPagination (ctx : gin.Context) : PaginationRequest :=
  let pagination :=
    {| Page := 1; PerPage := 10; Search := ""; Sort := ""; Order := "asc" |} in
  let pageStr := gin.Query ctx "page" in
  let pagination :=
    if negb (String.eqb pageStr "") then
      match Go.Atoi pageStr with
      | Some page =>
          if 0 <? page then PaginationRequest.with_Page page pagination
          else pagination
      | None => pagination
      end
    else pagination in
  let perPageStr := gin.Query ctx "per_page" in
  let pagination :=
    if negb (String.eqb perPageStr "") then
      match Go.Atoi perPageStr with
      | Some perPage =>
          if (0 <? perPage) && (perPage <=? 100)
          then PaginationRequest.with_PerPage perPage pagination
          else pagination
      | None => pagination
      end
    else pagination in
  let pagination := PaginationRequest.with_Search (gin.Query ctx "search") pagination in
  let pagination := PaginationRequest.with_Sort (gin.Query ctx "sort") pagination in
  let order := gin.Query ctx "order" in
  let pagination :=
    if String.eqb order "desc" || String.eqb order "asc"
    then PaginationRequest.with_Order order pagination
    else pagination in
  PaginationRequest.Validate pagination.

Definition CalculatePagination `{Float64.Platform}
    (pagination : PaginationRequest) (totalCount : Z) : PaginationResponse :=
  let maxPage :=
    Float64.to_int64
      (Float64.Ceil
         (Float64.div (Float64.of_int totalCount)
                      (Float64.of_int (PerPage pagination)))) in
  let maxPage := if maxPage =? 0 then 1 else maxPage in
  {| RPage := Page pagination; RPerPage := PerPage pagination;
     MaxPage := maxPage; Total := totalCount |}.

(** ** Dynamically typed values, errors and reflection *)
Module Dyn.

(** A non-nil value stored in an [interface{}]. *)
Inductive Value :=
| VInt (z : Z)
| VStr (s : string)
| VBool (b : bool)
| VInts (elems : list Z)
| VStrs (elems : list string).

(** [interface{}]: [None] is the nil interface. *)
Definition any : Type := option Value.

Definition is_nil (v : any) : bool :=
  match v with
  | None => true
  | Some _ => false
  end.

(** The [error] values the code builds or passes on: an opaque error of a
    collaborator, and [fmt.Errorf] with a [%w] verb. *)
Inductive error :=
| errorString (msg : string)
| wrapError (msg : string) (err : error).

Definition Error (e : error) : string :=
  match e with
  | errorString msg => msg
  | wrapError msg _ => msg
  end.

Definition Unwrap (e : error) : option error :=
  match e with
  | errorString _ => None
  | wrapError _ err => Some err
  end.

(** [fmt.Errorf(prefix + "%w", err)]. *)
Definition Errorf_w (prefix : string) (err : error) : error :=
  wrapError (prefix +:+ Error err) err.

(** What [reflect] shows of a struct field: its name and the [gorm] and
    [json] keys of its tag (empty when the key is absent). *)
Record StructField := { Name : string; gormTag : string; jsonTag : string }.

(** [reflect.Type], as far as [isValidField] looks at it. *)
Inductive Type_ :=
| Struct (fields : list StructField)
| Ptr (elem : Type_)
| Basic.

End Dyn.

(** ** More of [strings] *)
Module Strings.

(** [strings.Split(s, sep)] for a separator of one byte, the only kind the
    code uses. The result is never empty. *)
Fixpoint Split (s : string) (sep : ascii) : list string :=
  match s with
  | EmptyString => [""]
  | String c s' =>
      if Ascii.eqb c sep then "" :: Split s' sep
      else
        match Split s' sep with
        | [] => [String c ""]
        | part :: parts => String c part :: parts
        end
  end.

(** [strings.HasPrefix(s, prefix)]. *)
Definition HasPrefix (s prefix : string) : bool := String.prefix prefix s.

Fixpoint drop (n : nat) (s : string) : string :=
  match n, s with
  | S k, String _ s' => drop k s'
  | _, _ => s
  end.

(** [strings.TrimPrefix(s, prefix)]. *)
Definition TrimPrefix (s prefix : string) : string :=
  if HasPrefix s prefix then drop (String.length prefix) s else s.

(** [x == a || x == b || ...], the test a [case a, b, ...:] performs. *)
Definition one_of (x : string) (alts : list string) : bool :=
  existsb (String.eqb x) alts.

End Strings.

(** ** The relational query collaborator *)
Module gorm.

(** One call on the fluent query object. *)
Inductive Clause :=
| Table (name : string)
| Where (query : string) (args : list Dyn.any)
| Or (query : string) (args : list Dyn.any)
| Order (value : string)
| Offset (n : Z)
| Limit (n : Z)
| Preload (rel : string)
| Raw (sql : string)
| Select (fields : list string)
| Joins (query : string)
| Group (name : string)
| Having (query : string).

(** A [*gorm.DB] statement under construction: the calls made so far, the
    oldest first. *)
Definition DB : Type := list Clause.

(** [db.M(args)] for a builder method [M]. *)
Definition call (db : DB) (c : Clause) : DB := (db ++ [c])%list.

(** The outcome of running a statement. *)
Inductive Outcome (A : Type) :=
| Done (a : A)
| Failed (err : Dyn.error).
Arguments Done {A} a.
Arguments Failed {A} err.

(** The statements that were run against the store. *)
Inductive Exec :=
| ExecCount (stmt : DB)
| ExecFind (stmt : DB).

(** The store behind the connection: it answers a count and a fetch, and
    may change with each. [T] is the row type, [S] the store's state. *)
Record Backend (T S : Type) := {
  run_count : DB -> S -> Outcome Z * S;
  run_find : DB -> S -> Outcome (list T) * S
}.
Arguments run_count {T S} _ _ _.
Arguments run_find {T S} _ _ _.

(** The world a request runs in: the store and the log of what ran. *)
Record World (S : Type) := { store : S; log : list Exec }.
Arguments store {S} _.
Arguments log {S} _.
Arguments Build_World {S} _ _.

(** Computations that talk to the store and may panic ([None]). *)
Definition M (S A : Type) : Type := World S -> option (A * World S).

Definition ret {S A} (a : A) : M S A := fun w => Some (a, w).

Definition bind {S A B} (m : M S A) (k : A -> M S B) : M S B :=
  fun w =>
    match m w with
    | Some (a, w') => k a w'
    | None => None
    end.

(** Lifts a step that may panic and does not touch the store. *)
Definition lift {S A} (o : option A) : M S A :=
  fun w =>
    match o with
    | Some a => Some (a, w)
    | None => None
    end.

(** [stmt.Count(&n).Error] *)
Definition Count {T S} (be : Backend T S) (stmt : DB) : M S (Outcome Z) :=
  fun w =>
    let '(r, s') := run_count be stmt (store w) in
    Some (r, {| store := s'; log := (log w ++ [ExecCount stmt])%list |}).

(** [stmt.Find(&rows).Error] *)
Definition Find {T S} (be : Backend T S) (stmt : DB) : M S (Outcome (list T)) :=
  fun w =>
    let '(r, s') := run_find be stmt (store w) in
    Some (r, {| store := s'; log := (log w ++ [ExecFind stmt])%list |}).

Definition is_find (e : Exec) : bool :=
  match e with
  | ExecFind _ => true
  | ExecCount _ => false
  end.

End gorm.

Notation "'let*' x ':=' m 'in' k" := (gorm.bind m (fun x => k))
  (at level 10, x name, m at level 100, k at level 200).

(** ** The query builders and the paginated executor *)

(** [DatabaseDialect] is a string type. *)
Definition DatabaseDialect : Type := string.
Definition MySQL : DatabaseDialect := "mysql".
Definition PostgreSQL : DatabaseDialect := "postgresql".
Definition SQLite : DatabaseDialect := "sqlite".
Definition SQLServer : DatabaseDialect := "sqlserver".

Record PaginatedQueryOptions := {
  Dialect : DatabaseDialect;
  EnableSoftDelete : bool;
  CustomCountQuery : string
}.

(** The [QueryBuilder] interface. A method may panic ([None]).
    [GetAllowedIncludes] is [Some] exactly for a dynamic type that also
    implements [AllowedIncludesProvider]; a key absent from the map reads
    as [false]. *)
Class QueryBuilder (B : Type) := {
  ApplyFilters : B -> gorm.DB -> option gorm.DB;
  GetTableName : B -> string;
  GetDefaultSort : B -> string;
  GetSearchFields : B -> list string;
  GetAllowedIncludes : option (B -> gmap string bool)
}.

Definition getSearchOperator (dialect : DatabaseDialect) : string :=
  if String.eqb dialect PostgreSQL then "ILIKE"
  else if Strings.one_of dialect [MySQL; SQLite; SQLServer] then "LIKE"
  else "LIKE".

Definition applyAutoSearch (query : gorm.DB) (searchTerm : string)
    (searchFields : list string) (dialect : DatabaseDialect) : gorm.DB :=
  if (length searchFields =? 0)%nat || String.eqb searchTerm "" then query
  else
    let searchPattern := "%" +:+ searchTerm +:+ "%" in
    let operator := getSearchOperator dialect in
    match searchFields with
    | [field] =>
        gorm.call query
          (gorm.Where (field +:+ " " +:+ operator +:+ " ?")
                      [Some (Dyn.VStr searchPattern)])
    | _ =>
        let conditions :=
          map (fun field => field +:+ " " +:+ operator +:+ " ?") searchFields in
        let args := map (fun _ => Some (Dyn.VStr searchPattern)) searchFields in
        let whereClause := "(" +:+ Go.Join conditions " OR " +:+ ")" in
        gorm.call query (gorm.Where whereClause args)
    end.

(** The character test shared by [isValidSortField] and [isValidInclude]. *)
Definition ident_rune (char : Z) : bool :=
  ((97 <=? char) && (char <=? 122))
  || ((65 <=? char) && (char <=? 90))
  || ((48 <=? char) && (char <=? 57))
  || (char =? 95) || (char =? 46).

(** The loop [for _, char := range s { if !ok(char) { return false } }]
    followed by [return after]. *)
Fixpoint all_runes (rs : list Z) (after : bool) : bool :=
  match rs with
  | [] => after
  | char :: rs' => if negb (ident_rune char) then false else all_runes rs' after
  end.

Definition isValidSortField (field : string) : bool :=
  all_runes (Go.runes field) (0 <? Go.len field).

Definition isValidInclude (include : string) : bool :=
  all_runes (Go.runes include) (0 <? Go.len include).

(** A Go map read [m[k]] of a [map[string]bool]. *)
Definition map_get (m : gmap string bool) (k : string) : bool :=
  default false (m !! k).

Definition validateIncludes {B} `{QueryBuilder B} (builder : B)
    (includes : list string) : list string :=
  match GetAllowedIncludes with
  | Some getAllowed =>
      let allowedIncludes := getAllowed builder in
      List.filter
        (fun include => isValidInclude include && map_get allowedIncludes include)
        includes
  | None => List.filter isValidInclude includes
  end.

Definition PaginatedQueryWithOptions {T S B} `{QueryBuilder B}
    (be : gorm.Backend T S) (db : gorm.DB) (builder : B)
    (pagination : PaginationRequest) (includes : list string)
    (options : PaginatedQueryOptions)
    : gorm.M S (list T * Z * option Dyn.error) :=
  (* Build count query *)
  let countQuery := gorm.call db (gorm.Table (GetTableName builder)) in
  let* countQuery := gorm.lift (ApplyFilters builder countQuery) in
  let countQuery :=
    if EnableSoftDelete options
    then gorm.call countQuery (gorm.Where "deleted_at IS NULL" [])
    else countQuery in
  (* Execute count query *)
  let* counted :=
    (if negb (String.eqb (CustomCountQuery options) "")
     then gorm.Count be (gorm.call countQuery (gorm.Raw (CustomCountQuery options)))
     else gorm.Count be countQuery) in
  match counted with
  | gorm.Failed err =>
      gorm.ret ([], 0, Some (Dyn.Errorf_w "failed to count records: " err))
  | gorm.Done totalCount =>
      (* Build data query *)
      let dataQuery := gorm.call db (gorm.Table (GetTableName builder)) in
      let* dataQuery := gorm.lift (ApplyFilters builder dataQuery) in
      let dataQuery :=
        if negb (String.eqb (Search pagination) "")
        then applyAutoSearch dataQuery (Search pagination)
               (GetSearchFields builder) (Dialect options)
        else dataQuery in
      let dataQuery :=
        if EnableSoftDelete options
        then gorm.call dataQuery (gorm.Where "deleted_at IS NULL" [])
        else dataQuery in
      (* Apply sorting *)
      let dataQuery :=
        if negb (String.eqb (Sort pagination) "") then
          if isValidSortField (Sort pagination) then
            let orderClause := Sort pagination +:+ " " +:+ Order pagination in
            gorm.call dataQuery (gorm.Order orderClause)
          else gorm.call dataQuery (gorm.Order (GetDefaultSort builder))
        else gorm.call dataQuery (gorm.Order (GetDefaultSort builder)) in
      (* Apply pagination *)
      let '(offset, pagination) := PaginationRequest.GetOffset pagination in
      let dataQuery := gorm.call dataQuery (gorm.Offset offset) in
      let '(limit, pagination) := PaginationRequest.GetLimit pagination in
      let dataQuery := gorm.call dataQuery (gorm.Limit limit) in
      (* Validate and apply preloads *)
      let validatedIncludes := validateIncludes builder includes in
      let dataQuery :=
        fold_left (fun q include => gorm.call q (gorm.Preload include))
                  validatedIncludes dataQuery in
      (* Execute data query *)
      let* found := gorm.Find be dataQuery in
      match found with
      | gorm.Failed err =>
          gorm.ret ([], 0, Some (Dyn.Errorf_w "failed to fetch records: " err))
      | gorm.Done result => gorm.ret (result, totalCount, None)
      end
  end.

(** [PaginatedQuery]: the executor with the default options. *)
Definition PaginatedQuery {T S B} `{QueryBuilder B}
    (be : gorm.Backend T S) (db : gorm.DB) (builder : B)
    (pagination : PaginationRequest) (includes : list string)
    : gorm.M S (list T * Z * option Dyn.error) :=
  PaginatedQueryWithOptions be db builder pagination includes
    {| Dialect := MySQL; EnableSoftDelete := false; CustomCountQuery := "" |}.

(** *** [SimpleQueryBuilder] *)

Record SimpleQueryBuilder := {
  STableName : string;
  FilterFunc : option (gorm.DB -> option gorm.DB);
  SSearchFields : list string;
  SDefaultSort : string;
  SDialect : DatabaseDialect
}.

Module SimpleQueryBuilder.

Definition ApplyFilters (s : SimpleQueryBuilder) (query : gorm.DB) : option gorm.DB :=
  match FilterFunc s with
  | Some f => f query
  | None => Some query
  end.

Definition GetSearchFields (s : SimpleQueryBuilder) : list string := SSearchFields s.

Definition GetTableName (s : SimpleQueryBuilder) : string := STableName s.

Definition GetDefaultSort (s : SimpleQueryBuilder) : string :=
  if String.eqb (SDefaultSort s) "" then "id asc" else SDefaultSort s.

Definition GetSearchOperator (s : SimpleQueryBuilder) : string :=
  getSearchOperator (SDialect s).

End SimpleQueryBuilder.

Definition NewSimpleQueryBuilder (tableName : string) : SimpleQueryBuilder :=
  {| STableName := tableName; FilterFunc := None; SSearchFields := [];
     SDefaultSort := "id asc"; SDialect := MySQL |}.

#[export] Instance SimpleQueryBuilder_QueryBuilder : QueryBuilder SimpleQueryBuilder := {
  ApplyFilters := SimpleQueryBuilder.ApplyFilters;
  GetTableName := SimpleQueryBuilder.GetTableName;
  GetDefaultSort := SimpleQueryBuilder.GetDefaultSort;
  GetSearchFields := SimpleQueryBuilder.GetSearchFields;
  GetAllowedIncludes := None
}.

(** ** pagination_query.go *)

Record BaseFilter := { Pagination : PaginationRequest; Includes : list string }.

Record FilterCondition := {
  Field : string;
  Operator : string;
  Value : Dyn.any;
  Logic : string
}.

Record DynamicFilter := {
  Base : BaseFilter;
  Filters : list FilterCondition;
  TableName : string;
  Model : option Dyn.Type_;
  SearchFields : list string;
  DefaultSort : string
}.

Module DynamicFilter.
Section WithUnicode.
Context `{Go.Unicode}.

Definition extractColumnName (gormTag : string) : string :=
  let parts := Strings.Split gormTag ";" in
  match List.find (fun part => Strings.HasPrefix part "column:") parts with
  | Some part => Strings.TrimPrefix part "column:"
  | None => ""
  end.

Definition extractJSONName (jsonTag : string) : string :=
  let parts := Strings.Split jsonTag "," in
  match parts with
  | part0 :: _ => if negb (String.eqb part0 "-") then part0 else ""
  | [] => ""
  end.

(** [None]: [reflect] panics, the model being neither a struct nor a
    pointer to one. *)
Definition isValidField (d : DynamicFilter) (fieldName : string) : option bool :=
  match Model d with
  | None => Some false
  | Some modelType =>
      let modelType :=
        match modelType with
        | Dyn.Ptr elem => elem
        | _ => modelType
        end in
      match modelType with
      | Dyn.Struct fields =>
          Some (existsb
                  (fun field =>
                     String.eqb (Dyn.Name field) fieldName
                     || Go.EqualFold (Dyn.Name field) fieldName
                     || String.eqb (extractColumnName (Dyn.gormTag field)) fieldName
                     || String.eqb (extractJSONName (Dyn.jsonTag field)) fieldName)
                  fields)
      | _ => None
      end
  end.

Definition buildCondition (filter : FilterCondition) : string :=
  let op := Go.ToUpper (Operator filter) in
  if Strings.one_of op ["="; "EQ"; "EQUALS"] then Field filter +:+ " = ?"
  else if Strings.one_of op ["!="; "NE"; "NOT_EQUALS"] then Field filter +:+ " != ?"
  else if Strings.one_of op [">"; "GT"; "GREATER_THAN"] then Field filter +:+ " > ?"
  else if Strings.one_of op [">="; "GTE"; "GREATER_THAN_EQUALS"] then Field filter +:+ " >= ?"
  else if Strings.one_of op ["<"; "LT"; "LESS_THAN"] then Field filter +:+ " < ?"
  else if Strings.one_of op ["<="; "LTE"; "LESS_THAN_EQUALS"] then Field filter +:+ " <= ?"
  else if Strings.one_of op ["LIKE"; "CONTAINS"] then Field filter +:+ " LIKE ?"
  else if Strings.one_of op ["ILIKE"; "ICONTAINS"] then Field filter +:+ " ILIKE ?"
  else if Strings.one_of op ["IN"] then Field filter +:+ " IN ?"
  else if Strings.one_of op ["NOT_IN"] then Field filter +:+ " NOT IN ?"
  else if Strings.one_of op ["IS_NULL"] then Field filter +:+ " IS NULL"
  else if Strings.one_of op ["IS_NOT_NULL"] then Field filter +:+ " IS NOT NULL"
  else Field filter +:+ " = ?".

(** One iteration of the loop of [ApplyFilters], at index [i]. *)
Definition apply_one (d : DynamicFilter) (i : nat) (filter : FilterCondition)
    (query : gorm.DB) : option gorm.DB :=
  if String.eqb (Field filter) "" || Dyn.is_nil (Value filter) then Some query
  else
    match isValidField d (Field filter) with
    | None => None
    | Some false => Some query
    | Some true =>
        let condition := buildCondition filter in
        if String.eqb condition "" then Some query
        else if (i =? 0)%nat then
          Some (gorm.call query (gorm.Where condition [Value filter]))
        else
          let logic := Go.ToUpper (Logic filter) in
          if String.eqb logic "OR" then
            Some (gorm.call query (gorm.Or condition [Value filter]))
          else
            Some (gorm.call query (gorm.Where condition [Value filter]))
    end.

(** [for i, filter := range filters], entered at index [i]. *)
Fixpoint apply_from (d : DynamicFilter) (i : nat) (filters : list FilterCondition)
    (query : gorm.DB) : option gorm.DB :=
  match filters with
  | [] => Some query
  | filter :: rest =>
      match apply_one d i filter query with
      | Some query' => apply_from d (S i) rest query'
      | None => None
      end
  end.

Definition ApplyFilters (d : DynamicFilter) (query : gorm.DB) : option gorm.DB :=
  apply_from d 0 (Filters d) query.

Definition GetTableName (d : DynamicFilter) : string := TableName d.

Definition GetSearchFields (d : DynamicFilter) : list string := SearchFields d.

Definition GetDefaultSort (d : DynamicFilter) : string :=
  if String.eqb (DefaultSort d) "" then "id asc" else DefaultSort d.

End WithUnicode.
End DynamicFilter.

#[export] Instance DynamicFilter_QueryBuilder `{Go.Unicode} : QueryBuilder DynamicFilter := {
  ApplyFilters := DynamicFilter.ApplyFilters;
  GetTableName := DynamicFilter.GetTableName;
  GetDefaultSort := DynamicFilter.GetDefaultSort;
  GetSearchFields := DynamicFilter.GetSearchFields;
  GetAllowedIncludes := None
}.

(** ** The rest of the builders *)

(** *** [SimpleQueryBuilder], the chaining setters *)
Module SimpleQueryBuilderWith.

Definition WithSearchFields (fields : list string) (s : SimpleQueryBuilder)
    : SimpleQueryBuilder :=
  {| STableName := STableName s; FilterFunc := FilterFunc s;
     SSearchFields := fields; SDefaultSort := SDefaultSort s;
     SDialect := SDialect s |}.

Definition WithDefaultSort (sort : string) (s : SimpleQueryBuilder)
    : SimpleQueryBuilder :=
  {| STableName := STableName s; FilterFunc := FilterFunc s;
     SSearchFields := SSearchFields s; SDefaultSort := sort;
     SDialect := SDialect s |}.

Definition WithDialect (dialect : DatabaseDialect) (s : SimpleQueryBuilder)
    : SimpleQueryBuilder :=
  {| STableName := STableName s; FilterFunc := FilterFunc s;
     SSearchFields := SSearchFields s; SDefaultSort := SDefaultSort s;
     SDialect := dialect |}.

Definition WithFilters (filterFunc : option (gorm.DB -> option gorm.DB))
    (s : SimpleQueryBuilder) : SimpleQueryBuilder :=
  {| STableName := STableName s; FilterFunc := filterFunc;
     SSearchFields := SSearchFields s; SDefaultSort := SDefaultSort s;
     SDialect := SDialect s |}.

End SimpleQueryBuilderWith.

(** *** [ChainableQueryBuilder] *)

(** The embedded [*SimpleQueryBuilder] is a pointer: [None] is nil. *)
Record ChainableQueryBuilder := {
  CSimple : option SimpleQueryBuilder;
  joins : list string;
  groupBy : list string;
  having : list string;
  selects : list string
}.

Definition NewChainableQueryBuilder (tableName : string) : ChainableQueryBuilder :=
  {| CSimple := Some (NewSimpleQueryBuilder tableName);
     joins := []; groupBy := []; having := []; selects := [] |}.

Module ChainableQueryBuilder.

Definition Join (join : string) (c : ChainableQueryBuilder) : ChainableQueryBuilder :=
  {| CSimple := CSimple c; joins := (joins c ++ [join])%list;
     groupBy := groupBy c; having := having c; selects := selects c |}.

Definition GroupBy (field : string) (c : ChainableQueryBuilder) : ChainableQueryBuilder :=
  {| CSimple := CSimple c; joins := joins c;
     groupBy := (groupBy c ++ [field])%list; having := having c;
     selects := selects c |}.

Definition Having (condition : string) (c : ChainableQueryBuilder)
    : ChainableQueryBuilder :=
  {| CSimple := CSimple c; joins := joins c; groupBy := groupBy c;
     having := (having c ++ [condition])%list; selects := selects c |}.

Definition Select (fields : list string) (c : ChainableQueryBuilder)
    : ChainableQueryBuilder :=
  {| CSimple := CSimple c; joins := joins c; groupBy := groupBy c;
     having := having c; selects := (selects c ++ fields)%list |}.

(** [None]: the base filter panics, or the embedded builder is nil. *)
Definition ApplyFilters (c : ChainableQueryBuilder) (query : gorm.DB)
    : option gorm.DB :=
  match CSimple c with
  | None => None
  | Some s =>
      match SimpleQueryBuilder.ApplyFilters s query with
      | None => None
      | Some query =>
          let query :=
            if (0 <? length (selects c))%nat
            then gorm.call query (gorm.Select (selects c))
            else query in
          let query :=
            fold_left (fun q join => gorm.call q (gorm.Joins join)) (joins c) query in
          let query :=
            fold_left (fun q groupBy => gorm.call q (gorm.Group groupBy))
                      (groupBy c) query in
          let query :=
            fold_left (fun q having => gorm.call q (gorm.Having having))
                      (having c) query in
          Some query
      end
  end.

End ChainableQueryBuilder.

(** *** [AdvancedQueryBuilder] *)

Record AdvancedQueryBuilder := {
  ASimple : SimpleQueryBuilder;
  JoinClauses : list string;
  GroupByClauses : list string;
  HavingClauses : list string;
  SelectFields : list string
}.

Module AdvancedQueryBuilder.

Definition ApplyJoins (a : AdvancedQueryBuilder) (query : gorm.DB) : gorm.DB :=
  fold_left (fun q join => gorm.call q (gorm.Joins join)) (JoinClauses a) query.

Definition ApplyGroupBy (a : AdvancedQueryBuilder) (query : gorm.DB) : gorm.DB :=
  fold_left (fun q groupBy => gorm.call q (gorm.Group groupBy))
            (GroupByClauses a) query.

Definition ApplyHaving (a : AdvancedQueryBuilder) (query : gorm.DB) : gorm.DB :=
  fold_left (fun q having => gorm.call q (gorm.Having having))
            (HavingClauses a) query.

Definition ApplySelect (a : AdvancedQueryBuilder) (query : gorm.DB) : gorm.DB :=
  if (0 <? length (SelectFields a))%nat
  then gorm.call query (gorm.Select (SelectFields a))
  else query.

End AdvancedQueryBuilder.

(** The methods of the embedded [SimpleQueryBuilder] are promoted: through
    them an [*AdvancedQueryBuilder] is a [QueryBuilder]. *)
#[export] Instance AdvancedQueryBuilder_QueryBuilder : QueryBuilder AdvancedQueryBuilder := {
  ApplyFilters := fun a => SimpleQueryBuilder.ApplyFilters (ASimple a);
  GetTableName := fun a => SimpleQueryBuilder.GetTableName (ASimple a);
  GetDefaultSort := fun a => SimpleQueryBuilder.GetDefaultSort (ASimple a);
  GetSearchFields := fun a => SimpleQueryBuilder.GetSearchFields (ASimple a);
  GetAllowedIncludes := None
}.

(** *** [strings.TrimSpace] and [BaseFilter] *)
Module Space.

(** [asciiSpace]: tab, line feed, vertical tab, form feed, carriage return
    and space. *)
Definition ascii_space (b : Z) : bool :=
  (b =? 9) || (b =? 10) || (b =? 11) || (b =? 12) || (b =? 13) || (b =? 32).

(** Beyond ASCII, trimming consults the Unicode tables: the two fallbacks
    of [TrimSpace] are taken from an instance of this class. *)
Class Tables := {
  (** [strings.TrimFunc(s, unicode.IsSpace)] *)
  TrimFunc_IsSpace : string -> string;
  (** [strings.TrimRightFunc(s, unicode.IsSpace)] *)
  TrimRightFunc_IsSpace : string -> string
}.

(** One scan of [TrimSpace]: skips ASCII space until a byte that is not
    space; the flag tells that this byte is outside ASCII. *)
Fixpoint scan (s : string) : string * bool :=
  match s with
  | EmptyString => (EmptyString, false)
  | String c s' =>
      if Go.RuneSelf <=? Go.byte_of c then (s, true)
      else if ascii_space (Go.byte_of c) then scan s'
      else (s, false)
  end.

Fixpoint rev (s : string) : string :=
  match s with
  | EmptyString => EmptyString
  | String c s' => rev s' +:+ String c EmptyString
  end.

(** [strings.TrimSpace]: the scan from the front, then the same scan from
    the back over what the first one left. *)
Definition TrimSpace `{Tables} (s : string) : string :=
  let '(s1, outside) := scan s in
  if outside then TrimFunc_IsSpace s1
  else
    let '(r, outside) := scan (rev s1) in
    if outside then TrimRightFunc_IsSpace (rev r) else rev r.

End Space.

Module BaseFilter.

Definition BindPagination `{Space.Tables} (f : BaseFilter) (ctx : gin.Context)
    : BaseFilter :=
  let includesStr := gin.Query ctx "includes" in
  {| Pagination := BindPagination ctx;
     Includes :=
       if negb (String.eqb includesStr "")
       then map Space.TrimSpace (Strings.Split includesStr ",")
       else Includes f |}.

Definition GetOffset (f : BaseFilter) : Z * BaseFilter :=
  let '(offset, p) := PaginationRequest.GetOffset (Pagination f) in
  (offset, {| Pagination := p; Includes := Includes f |}).

Definition GetLimit (f : BaseFilter) : Z * BaseFilter :=
  let '(limit, p) := PaginationRequest.GetLimit (Pagination f) in
  (limit, {| Pagination := p; Includes := Includes f |}).

Definition ValidatePagination (f : BaseFilter) : BaseFilter :=
  {| Pagination := PaginationRequest.Validate (Pagination f);
     Includes := Includes f |}.

Definition GetPagination (f : BaseFilter) : PaginationRequest := Pagination f.

Definition GetIncludes (f : BaseFilter) : list string := Includes f.

End BaseFilter.

(** *** Includable builders *)
Module Includable.

(** The [IncludableQueryBuilder] interface. [Validate] changes its
    receiver and so returns it. [GetDB] is [Some] exactly for a dynamic
    type that also implements [DatabaseProvider]; the connection it hands
    out may be nil ([None]). *)
Class Builder (B : Type) := {
  base :: QueryBuilder B;
  GetIncludes : B -> list string;
  GetPagination : B -> PaginationRequest;
  Validate : B -> B;
  GetDB : option (B -> option gorm.DB)
}.

End Includable.

(** A call on a nil [*gorm.DB] panics. *)
Definition deref {S} (db : option gorm.DB) : gorm.M S gorm.DB := gorm.lift db.

(** The builder is returned beside the results: [Validate] may have
    changed it. *)
Definition PaginatedQueryWithIncludable {T S B} `{IB : Includable.Builder B}
    (be : gorm.Backend T S) (db : option gorm.DB) (builder : B)
    : gorm.M S (list T * Z * option Dyn.error * B) :=
  let connection : option (option gorm.DB) :=
    match db with
    | Some _ => Some db
    | None =>
        match @Includable.GetDB B IB with
        | Some getDB => Some (getDB builder)
        | None => None
        end
    end in
  match connection with
  | None =>
      gorm.ret ([], 0, Some (Dyn.errorString "database connection not provided"),
                builder)
  | Some db =>
      let builder := Includable.Validate builder in
      let pagination := Includable.GetPagination builder in
      let includes := Includable.GetIncludes builder in
      let* db := deref db in
      let* result :=
        PaginatedQueryWithOptions (H := Includable.base) be db builder
          pagination includes
          {| Dialect := MySQL; EnableSoftDelete := false; CustomCountQuery := "" |} in
      gorm.ret (result, builder)
  end.

Definition PaginatedQueryWithIncludableAndOptions {T S B} `{IB : Includable.Builder B}
    (be : gorm.Backend T S) (db : option gorm.DB) (builder : B)
    (options : PaginatedQueryOptions)
    : gorm.M S (list T * Z * option Dyn.error * B) :=
  let builder := Includable.Validate builder in
  let pagination := Includable.GetPagination builder in
  let includes := Includable.GetIncludes builder in
  let* db := deref db in
  let* result :=
    PaginatedQueryWithOptions (H := Includable.base) be db builder
      pagination includes options in
  gorm.ret (result, builder).


(** ** script: the command line *)
Module script.

(** The scripts of [blog/database], over a connection [C] and a database
    in state [S]; each may fail. *)
Record Database (C S : Type) := {
  Seeder : C -> S -> option Dyn.error * S;
  Migrate : C -> S -> option Dyn.error * S
}.
Arguments Seeder {C S} _ _ _.
Arguments Migrate {C S} _ _ _.

(** The [do.Injector] as far as [Commands] uses it: the connection that is
    registered under [constants.DB], if one is. *)
Record Injector (C : Type) := { DB : option C }.
Arguments DB {C} _.

(** What a run does to the outside. *)
Inductive Event :=
| RanSeeder
| RanMigrate
| Logged (line : string).

Record World (S : Type) := { store : S; events : list Event }.
Arguments store {S} _.
Arguments events {S} _.
Arguments Build_World {S} _ _.

(** How a run ends: the function returns, or [log.Fatalf] ends the
    process. *)
Inductive Ending (A : Type) :=
| Returns (a : A)
| Exits (status : Z).
Arguments Returns {A} a.
Arguments Exits {A} status.

Definition Proc (S A : Type) : Type := World S -> Ending A * World S.

Definition ret {S A} (a : A) : Proc S A := fun w => (Returns a, w).

Definition bind {S A B} (m : Proc S A) (k : A -> Proc S B) : Proc S B :=
  fun w =>
    match m w with
    | (Returns a, w') => k a w'
    | (Exits status, w') => (Exits status, w')
    end.

Definition emit {S} (e : Event) (w : World S) : World S :=
  {| store := store w; events := (events w ++ [e])%list |}.

(** [log.Println(line)] and [log.Printf]. *)
Definition Println {S} (line : string) : Proc S unit :=
  fun w => (Returns tt, emit (Logged line) w).

(** [log.Fatalf]: the line, then [os.Exit(1)]. *)
Definition Fatalf {S A} (line : string) : Proc S A :=
  fun w => (Exits 1, emit (Logged line) w).

(** A call of one of the database scripts. *)
Definition invoke {S} (e : Event) (f : S -> option Dyn.error * S)
    : Proc S (option Dyn.error) :=
  fun w =>
    let '(err, s') := f (store w) in
    (Returns err, {| store := s'; events := (events w ++ [e])%list |}).

(** [if err := f(db); err != nil { log.Fatalf(failure, err) }] followed by
    [log.Println(success)]. *)
Definition must {S} (e : Event) (f : S -> option Dyn.error * S)
    (failure success : string) : Proc S unit :=
  bind (invoke e f)
       (fun err =>
          match err with
          | Some err => Fatalf (failure +:+ Dyn.Error err)
          | None => Println success
          end).

(** The locals the loop over the arguments sets. *)
Record Flags := {
  migrate : bool; seed : bool; run : bool; scripFlag : bool; scriptName : string }.

(** The body of the loop: the first case that matches. *)
Definition read (fl : Flags) (arg : string) : Flags :=
  if String.eqb arg "--migrate" then
    {| migrate := true; seed := seed fl; run := run fl;
       scripFlag := scripFlag fl; scriptName := scriptName fl |}
  else if String.eqb arg "--seed" then
    {| migrate := migrate fl; seed := true; run := run fl;
       scripFlag := scripFlag fl; scriptName := scriptName fl |}
  else if String.eqb arg "--run" then
    {| migrate := migrate fl; seed := seed fl; run := true;
       scripFlag := scripFlag fl; scriptName := scriptName fl |}
  else if Strings.HasPrefix arg "--script=" then
    {| migrate := migrate fl; seed := seed fl; run := run fl;
       scripFlag := true; scriptName := Strings.TrimPrefix arg "--script=" |}
  else fl.

Definition no_flags : Flags :=
  {| migrate := false; seed := false; run := false; scripFlag := false;
     scriptName := "" |}.

(** [Commands(injector)] with [os.Args = osArgs]. [None]: a panic, of
    [do.MustInvokeNamed] when no connection is registered, or of
    [os.Args[1:]] when there is not even a program name. *)
Definition Commands {C S} (database : Database C S) (injector : Injector C)
    (osArgs : list string) : option (Proc S bool) :=
  match DB injector with
  | None => None
  | Some db =>
      match osArgs with
      | [] => None
      | _ :: args =>
          let fl := fold_left read args no_flags in
          Some
            (bind (if migrate fl
                   then must RanSeeder (Seeder database db)
                             "Failed to run migration: "
                             "Database seeding completed."
                   else ret tt)
               (fun _ =>
            bind (if seed fl
                   then must RanSeeder (Seeder database db)
                             "Failed to run seeder: "
                             "Database seeding completed."
                   else ret tt)
               (fun _ =>
            bind (if scripFlag fl
                  then
                    if String.eqb (scriptName fl) "migrate" then
                      must RanMigrate (Migrate database db)
                           "Failed to run migration: "
                           "Database migration completed."
                    else if String.eqb (scriptName fl) "seed" then
                      must RanSeeder (Seeder database db)
                           "Failed to run seeder: "
                           "Database seeding completed."
                    else Println ("Unknown script: " +:+ scriptName fl)
                  else ret tt)
               (fun _ => ret (run fl)))))
      end
  end.

End script.

(** ** main *)
Module main.

(** [args(injector)] with [os.Args = osArgs]. *)
Definition args {C S} (database : script.Database C S)
    (injector : script.Injector C) (osArgs : list string)
    : option (script.Proc S bool) :=
  match osArgs with
  | _ :: arg1 :: _ =>
      if String.eqb arg1 "version" then script.Commands database injector osArgs
      else Some (script.ret false)
  | _ => Some (script.ret false)
  end.

End main.

(** ** middlewares *)
Module middlewares.

(** [strings.Contains(s, substr)]. *)
Fixpoint Contains (s substr : string) : bool :=
  Strings.HasPrefix s substr
  || match s with
     | EmptyString => false
     | String _ s' => Contains s' substr
     end.

(** The loop of [strings.Replace(s, old, new, -1)] for a non-empty [old],
    the only kind the code uses: the occurrences of [old] are replaced
    from the left, and an occurrence that has been replaced is stepped
    over; [skip] counts the bytes of it that are still ahead. *)
Fixpoint replace_from (skip : nat) (s old new : string) : string :=
  match s with
  | EmptyString => EmptyString
  | String c s' =>
      match skip with
      | S skip' => replace_from skip' s' old new
      | O =>
          if Strings.HasPrefix s old
          then new +:+ replace_from (Nat.pred (String.length old)) s' old new
          else String c (replace_from 0 s' old new)
      end
  end.

Definition Replace_all (s old new : string) : string := replace_from 0 s old new.

(** [*jwt.Token], as far as the middleware reads it. *)
Record Token := { Valid : bool }.

(** [service.JWTService]. A [*jwt.Token] may be nil. *)
Record JWTService := {
  ValidateToken : string -> option Token * option Dyn.error;
  GetUserIDByToken : string -> string * option Dyn.error
}.

(** The packages [blog/modules/user/dto] and [blog/pkg/utils], which the
    middleware takes its messages and its response body from. *)
Class Collaborators := {
  Response : Type;
  BuildResponseFailed : string -> string -> Dyn.any -> Response;
  MESSAGE_FAILED_PROCESS_REQUEST : string;
  MESSAGE_FAILED_TOKEN_NOT_FOUND : string;
  MESSAGE_FAILED_TOKEN_NOT_VALID : string;
  MESSAGE_FAILED_DENIED_ACCESS : string
}.

Section WithCollaborators.
Context `{K : Collaborators}.

(** The [*gin.Context] of a handler: the request headers under their
    canonical names, the keys set so far, and what has been written. *)
Record Context := {
  Header : gmap string string;
  Keys : gmap string Dyn.Value;
  aborted : bool;
  written : option (Z * Response)
}.

Definition GetHeader (ctx : Context) (key : string) : string :=
  match Header ctx !! key with
  | Some v => v
  | None => ""
  end.

Definition AbortWithStatusJSON (ctx : Context) (code : Z) (body : Response)
    : Context :=
  {| Header := Header ctx; Keys := Keys ctx; aborted := true;
     written := Some (code, body) |}.

Definition Set_ (ctx : Context) (key : string) (value : Dyn.Value) : Context :=
  {| Header := Header ctx; Keys := <[key := value]> (Keys ctx);
     aborted := aborted ctx; written := written ctx |}.

Definition StatusUnauthorized : Z := 401.

(** The handler [Authenticate(jwtService)] returns; [next] is the rest of
    the chain, which [ctx.Next()] runs. [None]: a panic. *)
Definition Authenticate (jwtService : JWTService)
    (next : Context -> option Context) (ctx : Context) : option Context :=
  let authHeader := GetHeader ctx "Authorization" in
  if String.eqb authHeader "" then
    Some (AbortWithStatusJSON ctx StatusUnauthorized
            (BuildResponseFailed MESSAGE_FAILED_PROCESS_REQUEST
               MESSAGE_FAILED_TOKEN_NOT_FOUND None))
  else if negb (Contains authHeader "Bearer ") then
    Some (AbortWithStatusJSON ctx StatusUnauthorized
            (BuildResponseFailed MESSAGE_FAILED_PROCESS_REQUEST
               MESSAGE_FAILED_TOKEN_NOT_VALID None))
  else
    let authHeader := Replace_all authHeader "Bearer " "" in
    let '(token, err) := ValidateToken jwtService authHeader in
    match err with
    | Some _ =>
        Some (AbortWithStatusJSON ctx StatusUnauthorized
                (BuildResponseFailed MESSAGE_FAILED_PROCESS_REQUEST
                   MESSAGE_FAILED_TOKEN_NOT_VALID None))
    | None =>
        match token with
        | None => None
        | Some token =>
            if negb (Valid token) then
              Some (AbortWithStatusJSON ctx StatusUnauthorized
                      (BuildResponseFailed MESSAGE_FAILED_PROCESS_REQUEST
                         MESSAGE_FAILED_DENIED_ACCESS None))
            else
              let '(userId, err) := GetUserIDByToken jwtService authHeader in
              match err with
              | Some err =>
                  Some (AbortWithStatusJSON ctx StatusUnauthorized
                          (BuildResponseFailed MESSAGE_FAILED_PROCESS_REQUEST
                             (Dyn.Error err) None))
              | None =>
                  next (Set_ (Set_ ctx "token" (Dyn.VStr authHeader))
                             "user_id" (Dyn.VStr userId))
              end
        end
    end.

End WithCollaborators.

End middlewares.

(** * Properties *)

(** ** Request normalisation *)
Module PaginationFacts.
Import PaginationRequest.

(** [Validate] in closed form: each field is coerced on its own. *)
Lemma Validate_eq (p : PaginationRequest) :
  Validate p =
  {| Page := if Page p <=? 0 then 1 else Page p;
     PerPage := if PerPage p <=? 0 then 10 else PerPage p;
     Search := Search p;
     Sort := Sort p;
     Order := if String.eqb (Order p) "desc" then "desc" else "asc" |}.
Proof.
  destruct p as [pg pp se so od].
  unfold Validate, with_Page, with_PerPage, with_Order.
  cbn -[String.eqb Z.leb].
  destruct (pg <=? 0); cbn -[String.eqb Z.leb];
    destruct (pp <=? 0); cbn -[String.eqb Z.leb];
    (destruct (String.eqb od "") eqn:E0; cbn -[String.eqb Z.leb];
     [ apply String.eqb_eq in E0; subst od; reflexivity | ]);
    (destruct (String.eqb od "asc") eqn:E1; cbn -[String.eqb Z.leb];
     [ apply String.eqb_eq in E1; subst od; reflexivity | ]);
    (destruct (String.eqb od "desc") eqn:E2; cbn -[String.eqb Z.leb];
     [ apply String.eqb_eq in E2; subst od |]); reflexivity.
Qed.

(** What [Validate] does establish: the lower bounds and the order. *)
Lemma Validate_lower_bounds (p : PaginationRequest) :
  1 <= Page (Validate p) /\ 1 <= PerPage (Validate p)
  /\ (Order (Validate p) = "asc" \/ Order (Validate p) = "desc").
Proof.
  rewrite Validate_eq. cbn.
  repeat split.
  - destruct (Page p <=? 0) eqn:E; lia.
  - destruct (PerPage p <=? 0) eqn:E; lia.
  - destruct (String.eqb (Order p) "desc"); auto.
Qed.

(** [Validate] has no upper bound on [PerPage]: the bound holds afterwards
    exactly when it held before. *)
Lemma Validate_PerPage_bound (p : PaginationRequest) :
  PerPage (Validate p) <= 100 <-> PerPage p <= 100.
Proof.
  rewrite Validate_eq. cbn. destruct (PerPage p <=? 0) eqn:E; lia.
Qed.

(** C3, on the code: a request with [perPage = 1000] passes [Validate]
    unchanged, so [perPage <= 100] does not hold after the call. *)
Theorem Validate_leaves_PerPage_above_100 :
  let p := {| Page := 1; PerPage := 1000; Search := ""; Sort := ""; Order := "asc" |} in
  Validate p = p /\ ~ (1 <= PerPage (Validate p) <= 100).
Proof.
  cbn. split; [reflexivity | lia].
Qed.

(** C9: [Validate] is idempotent on every field of the request. *)
Theorem Validate_idempotent (p : PaginationRequest) :
  Validate (Validate p) = Validate p.
Proof.
  rewrite !Validate_eq. cbn. f_equal.
  - destruct (Page p <=? 0) eqn:E; [reflexivity |].
    rewrite E. reflexivity.
  - destruct (PerPage p <=? 0) eqn:E; [reflexivity |].
    rewrite E. reflexivity.
  - destruct (String.eqb (Order p) "desc"); reflexivity.
Qed.

(** The value [BindPagination] gives to [page] and [per_page]. *)
Definition bound_page (raw : string) : Z :=
  match Go.Atoi raw with
  | Some n => if 0 <? n then n else 1
  | None => 1
  end.

Definition bound_per_page (raw : string) : Z :=
  match Go.Atoi raw with
  | Some n => if (0 <? n) && (n <=? 100) then n else 10
  | None => 10
  end.

Definition bound_order (raw : string) : string :=
  if String.eqb raw "desc" then "desc" else "asc".

Lemma Atoi_empty : Go.Atoi "" = None.
Proof. reflexivity. Qed.

(** [BindPagination] in closed form. *)
Lemma BindPagination_eq (ctx : gin.Context) :
  BindPagination ctx =
  {| Page := bound_page (gin.Query ctx "page");
     PerPage := bound_per_page (gin.Query ctx "per_page");
     Search := gin.Query ctx "search";
     Sort := gin.Query ctx "sort";
     Order := bound_order (gin.Query ctx "order") |}.
Proof.
  unfold BindPagination, bound_page, bound_per_page, bound_order.
  rewrite Validate_eq.
  set (pg := gin.Query ctx "page"). set (pp := gin.Query ctx "per_page").
  set (od := gin.Query ctx "order").
  assert (Hpg : forall d f, (if negb (String.eqb pg "")
                             then match Go.Atoi pg with Some n => f n | None => d end
                             else d)
                            = match Go.Atoi pg with Some n => f n | None => d end
                            :> PaginationRequest).
  { intros d f. destruct (String.eqb pg "") eqn:E; [|reflexivity].
    apply String.eqb_eq in E. rewrite E, Atoi_empty. reflexivity. }
  assert (Hpp : forall d f, (if negb (String.eqb pp "")
                             then match Go.Atoi pp with Some n => f n | None => d end
                             else d)
                            = match Go.Atoi pp with Some n => f n | None => d end
                            :> PaginationRequest).
  { intros d f. destruct (String.eqb pp "") eqn:E; [|reflexivity].
    apply String.eqb_eq in E. rewrite E, Atoi_empty. reflexivity. }
  rewrite Hpg, Hpp. clear Hpg Hpp.
  destruct (Go.Atoi pg) as [n|]; destruct (Go.Atoi pp) as [m|];
    try destruct (0 <? n) eqn:En; try destruct (0 <? m) eqn:Em;
    try destruct (m <=? 100) eqn:Em'; cbn;
    destruct (String.eqb od "desc") eqn:Ed; cbn;
    try (apply String.eqb_eq in Ed; rewrite Ed; cbn);
    try destruct (String.eqb od "asc") eqn:Ea; cbn;
    try (apply String.eqb_eq in Ea; rewrite Ea; cbn);
    repeat match goal with
           | |- context [?x <=? 0] =>
               let E := fresh in destruct (x <=? 0) eqn:E; try lia
           end;
    reflexivity.
Qed.

(** C4: whatever the raw query holds, the bound request has [page >= 1],
    [1 <= perPage <= 100] and an order of [asc] or [desc]; [page] and
    [per_page] are taken from the input only when they parse as integers in
    range and are 1 and 10 otherwise; the order is the input's only when
    that is exactly [asc] or [desc]. *)
Theorem BindPagination_normalised (ctx : gin.Context) :
  let p := BindPagination ctx in
  (1 <= Page p /\ 1 <= PerPage p <= 100
   /\ (Order p = "asc" \/ Order p = "desc"))
  /\ Page p = match Go.Atoi (gin.Query ctx "page") with
              | Some n => if 0 <? n then n else 1
              | None => 1
              end
  /\ PerPage p = match Go.Atoi (gin.Query ctx "per_page") with
                 | Some n => if (0 <? n) && (n <=? 100) then n else 10
                 | None => 10
                 end
  /\ (Order p = gin.Query ctx "order" <->
      gin.Query ctx "order" = "asc" \/ gin.Query ctx "order" = "desc")
  /\ (Order p <> gin.Query ctx "order" -> Order p = "asc")
  /\ Search p = gin.Query ctx "search"
  /\ Sort p = gin.Query ctx "sort".
Proof.
  cbv zeta. rewrite BindPagination_eq. cbn.
  unfold bound_page, bound_per_page, bound_order.
  set (od := gin.Query ctx "order").
  split; [split; [|split] | split; [|split; [|split; [|split; [|split]]]]];
    try reflexivity.
  - destruct (Go.Atoi _) as [n|]; [destruct (0 <? n) eqn:E|]; lia.
  - destruct (Go.Atoi (gin.Query ctx "per_page")) as [n|];
      [destruct (0 <? n) eqn:E; cbn; [destruct (n <=? 100) eqn:E'|]|]; lia.
  - destruct (String.eqb od "desc"); auto.
  - destruct (String.eqb od "desc") eqn:E.
    + apply String.eqb_eq in E. split; auto.
    + apply String.eqb_neq in E. split.
      * intros <-. auto.
      * intros [->| ->]; [reflexivity | congruence].
  - destruct (String.eqb od "desc") eqn:E; [|reflexivity].
    apply String.eqb_eq in E. intros Hne. congruence.
Qed.

(** A request as it arrives: [?page=3&per_page=500&sort=title&order=DESC]. *)
Example BindPagination_example :
  BindPagination (gin.of_pairs [("page", "3"); ("per_page", "500");
                                ("sort", "title"); ("order", "DESC")])
  = {| Page := 3; PerPage := 10; Search := ""; Sort := "title"; Order := "asc" |}.
Proof. vm_compute. reflexivity. Qed.

Example Atoi_examples :
  Go.Atoi "12" = Some 12 /\ Go.Atoi "-5" = Some (-5) /\ Go.Atoi "+7" = Some 7
  /\ Go.Atoi "1e3" = None /\ Go.Atoi "-" = None
  /\ Go.Atoi "9223372036854775807" = Some Go.MaxInt64
  /\ Go.Atoi "9223372036854775808" = None
  /\ Go.Atoi "-9223372036854775808" = Some Go.MinInt64.
Proof. repeat split; vm_compute; reflexivity. Qed.

Example GetOffset_example :
  fst (PaginationRequest.GetOffset
         {| Page := 2; PerPage := 10; Search := ""; Sort := ""; Order := "asc" |}) = 10
  /\ fst (PaginationRequest.GetOffset
            {| Page := 0; PerPage := 10; Search := ""; Sort := ""; Order := "asc" |}) = 0.
Proof. split; vm_compute; reflexivity. Qed.

End PaginationFacts.

(** ** UTF-8 decoding and the identifier check *)
Module IdentFacts.

Lemma lor_lower_l (a b k : Z) :
  0 <= k -> 0 <= a -> 0 <= b -> 2 ^ k <= a -> 2 ^ k <= Z.lor a b.
Proof.
  intros Hk Ha Hb Hle.
  assert (Hpos : 0 < a) by (pose proof (Z.pow_pos_nonneg 2 k); lia).
  assert (Hnn : 0 <= Z.lor a b) by (apply Z.lor_nonneg; auto).
  assert (Hne : Z.lor a b <> 0).
  { intros E. apply Z.lor_eq_0_l in E. lia. }
  apply Z.log2_le_pow2; [lia |].
  rewrite Z.log2_lor by assumption.
  apply (proj1 (Z.log2_le_pow2 a k Hpos)) in Hle. lia.
Qed.

Lemma lor_lower_r (a b k : Z) :
  0 <= k -> 0 <= a -> 0 <= b -> 2 ^ k <= b -> 2 ^ k <= Z.lor a b.
Proof. intros. rewrite Z.lor_comm. apply lor_lower_l; assumption. Qed.

Lemma land_mask_nonneg (b mask : Z) : 0 <= mask -> 0 <= Z.land b mask.
Proof. intros. apply Z.land_nonneg. auto. Qed.

Lemma land_1F (b : Z) : Z.land b 0x1F = b mod 32.
Proof. change 0x1F with (Z.ones 5). rewrite Z.land_ones by lia. reflexivity. Qed.

Lemma land_0F (b : Z) : Z.land b 0x0F = b mod 16.
Proof. change 0x0F with (Z.ones 4). rewrite Z.land_ones by lia. reflexivity. Qed.

Lemma land_07 (b : Z) : Z.land b 0x07 = b mod 8.
Proof. change 0x07 with (Z.ones 3). rewrite Z.land_ones by lia. reflexivity. Qed.

Lemma land_3F (b : Z) : Z.land b 0x3F = b mod 64.
Proof. change 0x3F with (Z.ones 6). rewrite Z.land_ones by lia. reflexivity. Qed.

Lemma shiftl_lower (j x n k : Z) :
  0 <= n -> 0 <= j -> 2 ^ j <= x -> k <= j + n -> 2 ^ k <= Z.shiftl x n.
Proof.
  intros Hn Hj Hx Hk. rewrite Z.shiftl_mul_pow2 by assumption.
  assert (Hjn : 2 ^ (j + n) <= x * 2 ^ n).
  { rewrite Z.pow_add_r by assumption.
    assert (0 < 2 ^ n) by (apply Z.pow_pos_nonneg; lia). nia. }
  destruct (Z.le_gt_cases 0 k) as [H0|H0].
  - assert (2 ^ k <= 2 ^ (j + n)) by (apply Z.pow_le_mono_r; lia). lia.
  - rewrite (Z.pow_neg_r 2 k) by lia.
    assert (0 < 2 ^ (j + n)) by (apply Z.pow_pos_nonneg; lia). lia.
Qed.

Ltac nonneg :=
  repeat first
    [ apply Z.lor_nonneg; split
    | apply Z.shiftl_nonneg
    | apply land_mask_nonneg; lia ].

(** A byte below [RuneSelf] is its own rune. *)
Lemma DecodeRune_ascii (b0 : Z) (rest : list Z) :
  b0 < Go.RuneSelf -> Go.DecodeRune b0 rest = (b0, 1%nat).
Proof.
  intros H. unfold Go.DecodeRune.
  destruct (b0 <? Go.RuneSelf) eqn:E; [reflexivity | lia].
Qed.

(** What starts with a byte outside ASCII never decodes to an ASCII
    rune. *)
Lemma DecodeRune_high (b0 : Z) (rest : list Z) :
  Go.RuneSelf <= b0 -> Go.RuneSelf <= fst (Go.DecodeRune b0 rest).
Proof.
  unfold Go.DecodeRune, Go.RuneSelf, Go.RuneError. intros H.
  destruct (b0 <? 128) eqn:E; [lia | clear E].
  unfold Go.first.
  repeat match goal with
         | |- context [if ?c then _ else _] =>
             lazymatch c with
             | (b0 <? _) => destruct c eqn:?
             | (b0 <=? _) => destruct c eqn:?
             | (b0 =? _) => destruct c eqn:?
             end
         end; cbn [fst]; try lia;
  (destruct rest as [|b1 rest1]; cbn [fst]; [lia|]);
  match goal with
  | |- context [if ?c then _ else _] => destruct c eqn:Hb1; cbn [fst]; [lia|]
  end;
  apply orb_false_iff in Hb1; destruct Hb1 as [Hlo Hhi];
  cbn [Nat.leb];
  try (destruct rest1 as [|b2 rest2]; cbn [fst]; [lia|];
       destruct (negb (Go.is_cont b2)); cbn [fst]; [lia|]);
  try (destruct rest2 as [|b3 rest3]; cbn [fst]; [lia|];
       destruct (negb (Go.is_cont b3)); cbn [fst]; [lia|]);
  change 128 with (2 ^ 7).
  (* two bytes *)
  - apply lor_lower_l; try lia; nonneg.
    apply (shiftl_lower 1); try lia. rewrite land_1F.
    Z.div_mod_to_equations. lia.
  (* three bytes, lead 0xE0: the second byte carries the weight *)
  - apply lor_lower_l; try lia; nonneg.
    apply lor_lower_r; try lia; nonneg.
    apply (shiftl_lower 5); try lia. rewrite land_3F.
    Z.div_mod_to_equations. lia.
  - apply lor_lower_l; try lia; nonneg.
    apply lor_lower_l; try lia; nonneg.
    apply (shiftl_lower 0); try lia. rewrite land_0F.
    Z.div_mod_to_equations. lia.
  - apply lor_lower_l; try lia; nonneg.
    apply lor_lower_l; try lia; nonneg.
    apply (shiftl_lower 0); try lia. rewrite land_0F.
    Z.div_mod_to_equations. lia.
  - apply lor_lower_l; try lia; nonneg.
    apply lor_lower_l; try lia; nonneg.
    apply (shiftl_lower 0); try lia. rewrite land_0F.
    Z.div_mod_to_equations. lia.
  (* four bytes, lead 0xF0: the second byte carries the weight *)
  - apply lor_lower_l; try lia; nonneg.
    apply lor_lower_l; try lia; nonneg.
    apply lor_lower_r; try lia; nonneg.
    apply (shiftl_lower 4); try lia. rewrite land_3F.
    Z.div_mod_to_equations. lia.
  - apply lor_lower_l; try lia; nonneg.
    apply lor_lower_l; try lia; nonneg.
    apply lor_lower_l; try lia; nonneg.
    apply (shiftl_lower 0); try lia. rewrite land_07.
    Z.div_mod_to_equations. lia.
  - apply lor_lower_l; try lia; nonneg.
    apply lor_lower_l; try lia; nonneg.
    apply lor_lower_l; try lia; nonneg.
    apply (shiftl_lower 0); try lia. rewrite land_07.
    Z.div_mod_to_equations. lia.
Qed.

(** The decoder is invisible to the check: a rune passes exactly when it
    is one of the bytes of the string and that byte passes. *)
Lemma all_runes_bytes (bs : list Z) (after : bool) :
  all_runes (Go.runes_from 0 bs) after = forallb ident_rune bs && after.
Proof.
  induction bs as [|b rest IH]; [reflexivity |].
  cbn [Go.runes_from forallb].
  destruct (Z.lt_ge_cases b Go.RuneSelf) as [Hlo|Hhi].
  - rewrite DecodeRune_ascii by assumption. cbn [Nat.pred all_runes].
    rewrite IH. destruct (ident_rune b); reflexivity.
  - pose proof (DecodeRune_high b rest Hhi) as Hr.
    destruct (Go.DecodeRune b rest) as [r sz]. cbn [fst] in Hr.
    cbn [all_runes].
    assert (Er : ident_rune r = false).
    { unfold ident_rune, Go.RuneSelf in *.
      repeat (apply orb_false_iff; split);
        try (apply andb_false_iff; right; lia); lia. }
    assert (Eb : ident_rune b = false).
    { unfold ident_rune, Go.RuneSelf in *.
      repeat (apply orb_false_iff; split);
        try (apply andb_false_iff; right; lia); lia. }
    rewrite Er, Eb. reflexivity.
Qed.

(** An ASCII letter, digit, underscore or dot, as a byte or a rune. *)
Definition ident_char (c : Z) : Prop :=
  (65 <= c <= 90) \/ (97 <= c <= 122) \/ (48 <= c <= 57) \/ c = 95 \/ c = 46.

Lemma ident_rune_iff (c : Z) : ident_rune c = true <-> ident_char c.
Proof.
  unfold ident_rune, ident_char.
  rewrite !orb_true_iff, !andb_true_iff, !Z.leb_le, !Z.eqb_eq. tauto.
Qed.

Lemma all_runes_true (rs : list Z) (after : bool) :
  all_runes rs after = true <-> Forall ident_char rs /\ after = true.
Proof.
  induction rs as [|r rs IH]; cbn [all_runes].
  - split; [intros ->; split; [constructor | reflexivity] | tauto].
  - destruct (ident_rune r) eqn:E; cbn [negb].
    + rewrite IH. apply ident_rune_iff in E. split.
      * intros [Hf Ha]. split; [constructor; assumption | assumption].
      * intros [Hf Ha]. inversion Hf; subst. tauto.
    + split; [discriminate |].
      intros [Hf _]. inversion Hf as [|? ? Hr _]; subst.
      apply ident_rune_iff in Hr. congruence.
Qed.

Lemma len_pos_iff (s : string) : (0 <? Go.len s) = true <-> s <> "".
Proof.
  unfold Go.len. destruct s; cbn [String.length].
  - split; [discriminate | congruence].
  - split; [discriminate | intros _; apply Z.ltb_lt; lia].
Qed.

Lemma isValidSortField_bytes (s : string) :
  isValidSortField s = true <-> s <> "" /\ Forall ident_char (Go.bytes s).
Proof.
  unfold isValidSortField, Go.runes. rewrite all_runes_bytes.
  rewrite andb_true_iff, len_pos_iff, forallb_forall, List.Forall_forall.
  split; intros [H1 H2]; (split; [|]); try assumption;
    intros x Hx; apply ident_rune_iff; auto.
Qed.

Lemma isValidSortField_runes (s : string) :
  isValidSortField s = true <-> s <> "" /\ Forall ident_char (Go.runes s).
Proof.
  unfold isValidSortField. rewrite all_runes_true, len_pos_iff. tauto.
Qed.

Example isValidSortField_examples :
  isValidSortField "created_at" = true
  /\ isValidSortField "user.name" = true
  /\ isValidSortField "" = false
  /\ isValidSortField "created_at;DROP TABLE x" = false
  /\ isValidSortField "name desc" = false.
Proof. repeat split; vm_compute; reflexivity. Qed.

(** [U+00E9] in UTF-8, and a stray continuation byte. *)
Example runes_examples :
  Go.runes (String "195" (String "169" "")) = [0xE9]
  /\ Go.runes (String "169" "a") = [Go.RuneError; 97].
Proof. split; vm_compute; reflexivity. Qed.

End IdentFacts.

(** ** The paginated executor *)
Module ExecutorFacts.

(** An error built by [fmt.Errorf] with [%w] reads as the prefix followed
    by the message of its cause, and unwraps to the cause. *)
Lemma Errorf_w_wraps (prefix : string) (err : Dyn.error) :
  Dyn.Error (Dyn.Errorf_w prefix err) = prefix +:+ Dyn.Error err
  /\ Dyn.Unwrap (Dyn.Errorf_w prefix err) = Some err.
Proof. split; reflexivity. Qed.

Section Run.
Context {T S B : Type} `{QueryBuilder B}.
Variable be : gorm.Backend T S.
Variable db : gorm.DB.
Variable builder : B.

(** The statement both queries start from. *)
Definition base_stmt : gorm.DB :=
  gorm.call db (gorm.Table (GetTableName builder)).

(** The count statement, given the filtered base statement. *)
Definition count_stmt (options : PaginatedQueryOptions) (filtered : gorm.DB)
    : gorm.DB :=
  let q := if EnableSoftDelete options
           then gorm.call filtered (gorm.Where "deleted_at IS NULL" [])
           else filtered in
  if negb (String.eqb (CustomCountQuery options) "")
  then gorm.call q (gorm.Raw (CustomCountQuery options))
  else q.

(** The data statement up to the ordering call: filters, search and the
    soft-delete exclusion. *)
Definition scoped_stmt (pagination : PaginationRequest)
    (options : PaginatedQueryOptions) (filtered : gorm.DB) : gorm.DB :=
  let q := if negb (String.eqb (Search pagination) "")
           then applyAutoSearch filtered (Search pagination)
                  (GetSearchFields builder) (Dialect options)
           else filtered in
  if EnableSoftDelete options
  then gorm.call q (gorm.Where "deleted_at IS NULL" [])
  else q.

(** The ordering the executor asks for. *)
Definition order_by (pagination : PaginationRequest) : string :=
  if negb (String.eqb (Sort pagination) "") && isValidSortField (Sort pagination)
  then Sort pagination +:+ " " +:+ Order pagination
  else GetDefaultSort builder.

(** The window: offset and limit, computed as the executor does. *)
Definition window (pagination : PaginationRequest) : Z * Z :=
  let '(offset, pagination) := PaginationRequest.GetOffset pagination in
  (offset, fst (PaginationRequest.GetLimit pagination)).

(** The data statement, given the filtered base statement. *)
Definition data_stmt (pagination : PaginationRequest) (includes : list string)
    (options : PaginatedQueryOptions) (filtered : gorm.DB) : gorm.DB :=
  (scoped_stmt pagination options filtered
   ++ [gorm.Order (order_by pagination);
       gorm.Offset (fst (window pagination));
       gorm.Limit (snd (window pagination))]
   ++ map gorm.Preload (validateIncludes builder includes))%list.

Lemma fold_preload (incs : list string) (q : gorm.DB) :
  fold_left (fun q include => gorm.call q (gorm.Preload include)) incs q
  = (q ++ map gorm.Preload incs)%list.
Proof.
  revert q. induction incs as [|i incs IH]; intros q; cbn [fold_left map].
  - rewrite app_nil_r. reflexivity.
  - rewrite IH. unfold gorm.call. rewrite <- app_assoc. reflexivity.
Qed.

(** One run of the executor, spelled out: what it asks of the store, in
    which order, and what it returns for each answer. *)
Lemma PaginatedQueryWithOptions_run (pagination : PaginationRequest)
    (includes : list string) (options : PaginatedQueryOptions)
    (w : gorm.World S) :
  PaginatedQueryWithOptions be db builder pagination includes options w =
  match ApplyFilters builder base_stmt with
  | None => None
  | Some filtered =>
      let cstmt := count_stmt options filtered in
      let '(counted, s1) := gorm.run_count be cstmt (gorm.store w) in
      let log1 := (gorm.log w ++ [gorm.ExecCount cstmt])%list in
      match counted with
      | gorm.Failed err =>
          Some (([], 0, Some (Dyn.Errorf_w "failed to count records: " err)),
                {| gorm.store := s1; gorm.log := log1 |})
      | gorm.Done totalCount =>
          let dstmt := data_stmt pagination includes options filtered in
          let '(found, s2) := gorm.run_find be dstmt s1 in
          let log2 := (log1 ++ [gorm.ExecFind dstmt])%list in
          match found with
          | gorm.Failed err =>
              Some (([], 0, Some (Dyn.Errorf_w "failed to fetch records: " err)),
                    {| gorm.store := s2; gorm.log := log2 |})
          | gorm.Done result =>
              Some ((result, totalCount, None),
                    {| gorm.store := s2; gorm.log := log2 |})
          end
      end
  end.
Proof.
  unfold PaginatedQueryWithOptions, gorm.bind, gorm.lift. fold base_stmt.
  destruct (ApplyFilters builder base_stmt) as [filtered|]; [|reflexivity].
  cbv zeta.
  assert (Ec : (if negb (String.eqb (CustomCountQuery options) "")
                then gorm.Count be
                       (gorm.call
                          (if EnableSoftDelete options
                           then gorm.call filtered (gorm.Where "deleted_at IS NULL" [])
                           else filtered) (gorm.Raw (CustomCountQuery options)))
                else gorm.Count be
                       (if EnableSoftDelete options
                        then gorm.call filtered (gorm.Where "deleted_at IS NULL" [])
                        else filtered)) w
               = gorm.Count be (count_stmt options filtered) w).
  { unfold count_stmt. destruct (negb _); reflexivity. }
  rewrite Ec. clear Ec. unfold gorm.Count.
  destruct (gorm.run_count be (count_stmt options filtered) (gorm.store w))
    as [counted s1].
  destruct counted as [totalCount|err]; [|reflexivity].
  cbn [gorm.store gorm.log].
  assert (Ed : forall q0,
             q0 = scoped_stmt pagination options filtered ->
             (let '(offset, pagination0) := PaginationRequest.GetOffset pagination in
              let dataQuery :=
                gorm.call
                  (if negb (String.eqb (Sort pagination) "")
                   then
                     if isValidSortField (Sort pagination)
                     then gorm.call q0 (gorm.Order (Sort pagination +:+ " " +:+ Order pagination))
                     else gorm.call q0 (gorm.Order (GetDefaultSort builder))
                   else gorm.call q0 (gorm.Order (GetDefaultSort builder)))
                  (gorm.Offset offset) in
              let '(limit, _) := PaginationRequest.GetLimit pagination0 in
              fold_left (fun q include => gorm.call q (gorm.Preload include))
                (validateIncludes builder includes)
                (gorm.call dataQuery (gorm.Limit limit)))
             = data_stmt pagination includes options filtered).
  { intros q0 ->. unfold data_stmt, window, order_by.
    destruct (PaginationRequest.GetOffset pagination) as [offset p0].
    destruct (PaginationRequest.GetLimit p0) as [limit p1]. cbn [fst snd].
    rewrite fold_preload. unfold gorm.call.
    destruct (negb (String.eqb (Sort pagination) "")); cbn [andb];
      [destruct (isValidSortField (Sort pagination))|];
      rewrite <- !app_assoc; reflexivity. }
  specialize (Ed _ eq_refl). unfold scoped_stmt in Ed.
  destruct (PaginationRequest.GetOffset pagination) as [offset p0].
  destruct (PaginationRequest.GetLimit p0) as [limit p1].
  cbv zeta in Ed. rewrite Ed. unfold gorm.Find. cbn [gorm.store gorm.log].
  destruct (gorm.run_find be _ s1) as [found s2].
  destruct found; reflexivity.
Qed.

(** C6: when the count fails, the executor returns no rows, a zero count
    and the failure wrapped as a count failure, and the only statement that
    ran is the count: the data query is never issued. When the count
    succeeds and the fetch fails, it returns no rows, a zero count and the
    failure wrapped as a fetch failure. *)
Theorem backend_failure_aborts (pagination : PaginationRequest)
    (includes : list string) (options : PaginatedQueryOptions)
    (w : gorm.World S) (filtered : gorm.DB) :
  ApplyFilters builder base_stmt = Some filtered ->
  let cstmt := count_stmt options filtered in
  let dstmt := data_stmt pagination includes options filtered in
  let run := PaginatedQueryWithOptions be db builder pagination includes options w in
  (forall err s1,
      gorm.run_count be cstmt (gorm.store w) = (gorm.Failed err, s1) ->
      run = Some (([], 0,
                   Some (Dyn.wrapError ("failed to count records: " +:+ Dyn.Error err) err)),
                  {| gorm.store := s1;
                     gorm.log := (gorm.log w ++ [gorm.ExecCount cstmt])%list |})
      /\ forall r w', run = Some (r, w') ->
            forallb gorm.is_find (skipn (length (gorm.log w)) (gorm.log w')) = false
            /\ forall stmt, In (gorm.ExecFind stmt) (gorm.log w') ->
                            In (gorm.ExecFind stmt) (gorm.log w))
  /\ (forall totalCount err s1 s2,
      gorm.run_count be cstmt (gorm.store w) = (gorm.Done totalCount, s1) ->
      gorm.run_find be dstmt s1 = (gorm.Failed err, s2) ->
      run = Some (([], 0,
                   Some (Dyn.wrapError ("failed to fetch records: " +:+ Dyn.Error err) err)),
                  {| gorm.store := s2;
                     gorm.log := (gorm.log w ++ [gorm.ExecCount cstmt;
                                                 gorm.ExecFind dstmt])%list |})).
Proof.
  intros Hf cstmt dstmt run. subst run.
  rewrite PaginatedQueryWithOptions_run, Hf. fold cstmt dstmt. cbv zeta.
  split.
  - intros err s1 Hc. rewrite Hc. split; [reflexivity |].
    intros r w' Hr. injection Hr as <- <-. cbn [gorm.log]. split.
    + rewrite skipn_app, skipn_all, Nat.sub_diag. reflexivity.
    + intros stmt Hin. apply in_app_or in Hin. destruct Hin as [Hin|Hin];
        [assumption |].
      destruct Hin as [Hin|[]]. discriminate.
  - intros totalCount err s1 s2 Hc Hd. rewrite Hc, Hd.
    rewrite <- app_assoc. reflexivity.
Qed.

(** A run in which the store answers both statements returns the rows,
    the count and no error. *)
Lemma run_succeeds (pagination : PaginationRequest)
    (includes : list string) (options : PaginatedQueryOptions)
    (w : gorm.World S) (filtered : gorm.DB) totalCount rows s1 s2 :
  ApplyFilters builder base_stmt = Some filtered ->
  gorm.run_count be (count_stmt options filtered) (gorm.store w)
    = (gorm.Done totalCount, s1) ->
  gorm.run_find be (data_stmt pagination includes options filtered) s1
    = (gorm.Done rows, s2) ->
  PaginatedQueryWithOptions be db builder pagination includes options w
  = Some ((rows, totalCount, None),
          {| gorm.store := s2;
             gorm.log := (gorm.log w
                          ++ [gorm.ExecCount (count_stmt options filtered);
                              gorm.ExecFind (data_stmt pagination includes options filtered)])%list |}).
Proof.
  intros Hf Hc Hd. rewrite PaginatedQueryWithOptions_run, Hf. cbv zeta.
  rewrite Hc, Hd, <- app_assoc. reflexivity.
Qed.

Lemma window_with_Sort (v : string) (pagination : PaginationRequest) :
  window (PaginationRequest.with_Sort v pagination) = window pagination.
Proof.
  destruct pagination as [pg pp se so od].
  unfold window, PaginationRequest.GetOffset, PaginationRequest.GetLimit,
    PaginationRequest.with_Sort, PaginationRequest.with_Page,
    PaginationRequest.with_PerPage.
  cbn [Page PerPage Search Sort Order].
  destruct (pg <=? 0); cbn [Page PerPage Search Sort Order fst snd];
    destruct (pp <=? 0); reflexivity.
Qed.

Lemma order_by_rejected (pagination : PaginationRequest) :
  isValidSortField (Sort pagination) = false ->
  order_by pagination = GetDefaultSort builder.
Proof.
  intros Hrej. unfold order_by. rewrite Hrej, andb_false_r. reflexivity.
Qed.

(** A sort field the validator rejects is treated as if none was given. *)
Lemma rejected_sort_ignored (pagination : PaginationRequest)
    (includes : list string) (options : PaginatedQueryOptions)
    (w : gorm.World S) :
  isValidSortField (Sort pagination) = false ->
  PaginatedQueryWithOptions be db builder pagination includes options w
  = PaginatedQueryWithOptions be db builder
      (PaginationRequest.with_Sort "" pagination) includes options w.
Proof.
  intros Hrej. rewrite !PaginatedQueryWithOptions_run.
  destruct (ApplyFilters builder base_stmt) as [filtered|]; [|reflexivity].
  assert (E : data_stmt (PaginationRequest.with_Sort "" pagination) includes
                options filtered
              = data_stmt pagination includes options filtered).
  { unfold data_stmt. rewrite window_with_Sort.
    rewrite (order_by_rejected pagination Hrej).
    rewrite order_by_rejected by reflexivity. reflexivity. }
  cbv zeta. rewrite E. reflexivity.
Qed.

End Run.

(** *** A store and a builder to run the executor on *)

(** A store of 25 rows numbered from 1; a statement is answered by its
    window alone. *)
Definition rows25 : list Z := map Z.of_nat (seq 1 25).

Definition window_of (stmt : gorm.DB) : Z * Z :=
  fold_left (fun acc c =>
               match c with
               | gorm.Offset n => (n, snd acc)
               | gorm.Limit n => (fst acc, n)
               | _ => acc
               end) stmt (0, 0).

Definition healthy : gorm.Backend Z unit :=
  {| gorm.run_count := fun _ s => (gorm.Done 25, s);
     gorm.run_find := fun stmt s =>
       let '(offset, limit) := window_of stmt in
       (gorm.Done (firstn (Z.to_nat limit) (skipn (Z.to_nat offset) rows25)), s) |}.

(** A store that refuses every statement. *)
Definition down : gorm.Backend Z unit :=
  {| gorm.run_count := fun _ s => (gorm.Failed (Dyn.errorString "connection refused"), s);
     gorm.run_find := fun _ s => (gorm.Failed (Dyn.errorString "connection refused"), s) |}.

(** A store that counts and then fails to fetch. *)
Definition unreadable : gorm.Backend Z unit :=
  {| gorm.run_count := fun _ s => (gorm.Done 25, s);
     gorm.run_find := fun _ s => (gorm.Failed (Dyn.errorString "disk error"), s) |}.

Definition posts : SimpleQueryBuilder :=
  {| STableName := "posts"; FilterFunc := None;
     SSearchFields := ["title"; "body"];
     SDefaultSort := "id asc"; SDialect := PostgreSQL |}.

Definition no_options : PaginatedQueryOptions :=
  {| Dialect := MySQL; EnableSoftDelete := false; CustomCountQuery := "" |}.

Definition fresh : gorm.World unit := {| gorm.store := tt; gorm.log := [] |}.

Definition page2 (sort : string) : PaginationRequest :=
  {| Page := 2; PerPage := 10; Search := ""; Sort := sort; Order := "desc" |}.

Lemma backend_failure_aborts_witness :
  PaginatedQueryWithOptions down [] posts (page2 "") [] no_options fresh
  = Some (([], 0,
           Some (Dyn.wrapError "failed to count records: connection refused"
                               (Dyn.errorString "connection refused"))),
          {| gorm.store := tt; gorm.log := [gorm.ExecCount [gorm.Table "posts"]] |})
  /\ PaginatedQueryWithOptions unreadable [] posts (page2 "") [] no_options fresh
     = Some (([], 0,
              Some (Dyn.wrapError "failed to fetch records: disk error"
                                  (Dyn.errorString "disk error"))),
             {| gorm.store := tt;
                gorm.log := [gorm.ExecCount [gorm.Table "posts"];
                             gorm.ExecFind [gorm.Table "posts"; gorm.Order "id asc";
                                            gorm.Offset 10; gorm.Limit 10]] |}).
Proof.
  split.
  - exact (proj1 (proj1 (backend_failure_aborts down [] posts (page2 "") []
                           no_options fresh [gorm.Table "posts"] eq_refl)
                    (Dyn.errorString "connection refused") tt eq_refl)).
  - exact (proj2 (backend_failure_aborts unreadable [] posts (page2 "") []
                    no_options fresh [gorm.Table "posts"] eq_refl)
             25 (Dyn.errorString "disk error") tt tt eq_refl eq_refl).
Defined.

(** C7: the validator accepts a string exactly when it is non-empty and
    each of its characters (bytes, or equally decoded runes) is an ASCII
    letter, a digit, an underscore or a dot; [created_at] and [user.name]
    pass, the empty string does not. When the sort field of a request is
    rejected, the executor orders by the builder's default sort, behaves as
    it does for a request without a sort field, and returns no error when
    the store answers. *)
Theorem sort_field_validation :
  (forall s, isValidSortField s = true <->
             s <> "" /\ Forall IdentFacts.ident_char (Go.bytes s))
  /\ (forall s, isValidSortField s = true <->
                s <> "" /\ Forall IdentFacts.ident_char (Go.runes s))
  /\ isValidSortField "created_at" = true
  /\ isValidSortField "user.name" = true
  /\ isValidSortField "" = false
  /\ (forall (T S B : Type) (QB : QueryBuilder B) (be : gorm.Backend T S)
             (db : gorm.DB) (builder : B) (pagination : PaginationRequest)
             (includes : list string) (options : PaginatedQueryOptions)
             (w : gorm.World S),
        isValidSortField (Sort pagination) = false ->
        let run p := PaginatedQueryWithOptions be db builder p includes options w in
        (forall filtered,
            data_stmt builder pagination includes options filtered
            = (scoped_stmt builder pagination options filtered
               ++ [gorm.Order (GetDefaultSort builder);
                   gorm.Offset (fst (window pagination));
                   gorm.Limit (snd (window pagination))]
               ++ map gorm.Preload (validateIncludes builder includes))%list)
        /\ run pagination = run (PaginationRequest.with_Sort "" pagination)
        /\ (forall filtered totalCount rows s1 s2,
              ApplyFilters builder (base_stmt db builder) = Some filtered ->
              gorm.run_count be (count_stmt options filtered) (gorm.store w)
                = (gorm.Done totalCount, s1) ->
              gorm.run_find be (data_stmt builder pagination includes options filtered) s1
                = (gorm.Done rows, s2) ->
              exists w', run pagination = Some ((rows, totalCount, None), w')
                         /\ In (gorm.ExecFind
                                  (data_stmt builder pagination includes options filtered))
                               (gorm.log w'))).
Proof.
  split; [exact IdentFacts.isValidSortField_bytes |].
  split; [exact IdentFacts.isValidSortField_runes |].
  split; [reflexivity |]. split; [reflexivity |]. split; [reflexivity |].
  intros T S B QB be db builder pagination includes options w Hrej run.
  split; [|split].
  - intros filtered. unfold data_stmt.
    rewrite (order_by_rejected builder pagination Hrej). reflexivity.
  - apply rejected_sort_ignored. assumption.
  - intros filtered totalCount rows s1 s2 Hf Hc Hd.
    eexists. split.
    + apply (run_succeeds be db builder pagination includes options w
               filtered totalCount rows s1 s2 Hf Hc Hd).
    + cbn [gorm.log]. apply in_or_app. right. right. left. reflexivity.
Qed.

Lemma sort_field_validation_witness :
  isValidSortField "created_at;DROP TABLE x" = false
  /\ exists w',
      PaginatedQueryWithOptions healthy [] posts
        (page2 "created_at;DROP TABLE x") [] no_options fresh
      = Some ((map Z.of_nat (seq 11 10), 25, None), w')
      /\ In (gorm.ExecFind [gorm.Table "posts"; gorm.Order "id asc";
                            gorm.Offset 10; gorm.Limit 10])
            (gorm.log w').
Proof.
  split; [reflexivity |].
  exact (proj2 (proj2
           (proj2 (proj2 (proj2 (proj2 (proj2 sort_field_validation))))
              Z unit SimpleQueryBuilder _ healthy [] posts
              (page2 "created_at;DROP TABLE x") [] no_options fresh eq_refl))
           [gorm.Table "posts"] 25 (map Z.of_nat (seq 11 10)) tt tt
           eq_refl eq_refl eq_refl).
Defined.

End ExecutorFacts.

(** ** Search expansion *)
Module SearchFacts.

(** The operator the specification names for a dialect. *)
Definition pattern_operator (dialect : DatabaseDialect) : string :=
  if String.eqb dialect "postgresql" then "ILIKE" else "LIKE".

(** The alternatives of a predicate joined by OR; a single alternative
    stands as it is. *)
Definition or_joined (conditions : list string) : string :=
  match conditions with
  | [c] => c
  | _ => "(" +:+ Go.Join conditions " OR " +:+ ")"
  end.

(** One predicate over all the search fields, with one [%term%] argument
    per field. *)
Definition search_clause (term : string) (fields : list string)
    (dialect : DatabaseDialect) : gorm.Clause :=
  gorm.Where
    (or_joined
       (map (fun field => field +:+ " " +:+ pattern_operator dialect +:+ " ?") fields))
    (map (fun _ => Some (Dyn.VStr ("%" +:+ term +:+ "%"))) fields).

Lemma getSearchOperator_eq (dialect : DatabaseDialect) :
  getSearchOperator dialect = pattern_operator dialect.
Proof.
  unfold getSearchOperator, pattern_operator, PostgreSQL.
  destruct (String.eqb dialect "postgresql"); [reflexivity |].
  destruct (Strings.one_of _ _); reflexivity.
Qed.

(** C5: with a non-empty term and at least one search field, the query
    gains exactly one call, a [Where] whose predicate compares every search
    field, in order, with [ILIKE] under PostgreSQL and [LIKE] under any
    other dialect, the comparisons joined by OR, and whose arguments are
    the pattern [%term%], once per field. With an empty term or no search
    field the query is returned as it was. *)
Theorem applyAutoSearch_spec (query : gorm.DB) (term : string)
    (fields : list string) (dialect : DatabaseDialect) :
  (term <> "" -> fields <> [] ->
   applyAutoSearch query term fields dialect
   = (query ++ [search_clause term fields dialect])%list)
  /\ (term = "" \/ fields = [] ->
      applyAutoSearch query term fields dialect = query)
  /\ (dialect = PostgreSQL -> getSearchOperator dialect = "ILIKE")
  /\ (dialect <> PostgreSQL -> getSearchOperator dialect = "LIKE").
Proof.
  split; [|split; [|split]].
  - intros Ht Hf. unfold applyAutoSearch, search_clause, gorm.call.
    rewrite getSearchOperator_eq.
    apply String.eqb_neq in Ht. rewrite Ht.
    destruct fields as [|f1 [|f2 rest]]; [congruence | reflexivity | reflexivity].
  - intros [-> | ->]; unfold applyAutoSearch.
    + rewrite orb_true_r. reflexivity.
    + reflexivity.
  - intros ->. reflexivity.
  - intros Hd. rewrite getSearchOperator_eq. unfold pattern_operator.
    apply String.eqb_neq in Hd. unfold PostgreSQL in Hd. rewrite Hd. reflexivity.
Qed.

Lemma applyAutoSearch_spec_witness :
  applyAutoSearch [gorm.Table "posts"] "go" ["title"; "body"] PostgreSQL
  = [gorm.Table "posts";
     gorm.Where "(title ILIKE ? OR body ILIKE ?)"
                [Some (Dyn.VStr "%go%"); Some (Dyn.VStr "%go%")]]
  /\ applyAutoSearch [gorm.Table "posts"] "go" ["title"] MySQL
     = [gorm.Table "posts"; gorm.Where "title LIKE ?" [Some (Dyn.VStr "%go%")]]
  /\ applyAutoSearch [gorm.Table "posts"] "" ["title"; "body"] PostgreSQL
     = [gorm.Table "posts"]
  /\ getSearchOperator "postgresql" = "ILIKE"
  /\ getSearchOperator "sqlite" = "LIKE".
Proof.
  split; [|split; [|split; [|split]]].
  - apply (proj1 (applyAutoSearch_spec [gorm.Table "posts"] "go"
                    ["title"; "body"] PostgreSQL)); discriminate.
  - apply (proj1 (applyAutoSearch_spec [gorm.Table "posts"] "go"
                    ["title"] MySQL)); discriminate.
  - apply (proj1 (proj2 (applyAutoSearch_spec [gorm.Table "posts"] ""
                           ["title"; "body"] PostgreSQL))).
    left. reflexivity.
  - apply (proj1 (proj2 (proj2 (applyAutoSearch_spec [] "" [] "postgresql")))).
    reflexivity.
  - apply (proj2 (proj2 (proj2 (applyAutoSearch_spec [] "" [] "sqlite")))).
    discriminate.
Defined.

End SearchFacts.

(** ** The dynamic filter *)
Module FilterFacts.

(** Unicode tables that are exact on ASCII strings, which is all the
    examples below use. *)
Definition ascii_tables : Go.Unicode :=
  {| Go.map_ToUpper := fun s => s;
     Go.EqualFold := fun s t => String.eqb (Go.upper_ascii s) (Go.upper_ascii t) |}.

(** The operator spellings [buildCondition] has a case for. *)
Definition recognized : list string :=
  ["="; "EQ"; "EQUALS"; "!="; "NE"; "NOT_EQUALS";
   ">"; "GT"; "GREATER_THAN"; ">="; "GTE"; "GREATER_THAN_EQUALS";
   "<"; "LT"; "LESS_THAN"; "<="; "LTE"; "LESS_THAN_EQUALS";
   "LIKE"; "CONTAINS"; "ILIKE"; "ICONTAINS";
   "IN"; "NOT_IN"; "IS_NULL"; "IS_NOT_NULL"].

(** A model with three columns. *)
Definition Post : Dyn.Type_ :=
  Dyn.Struct
    [ {| Dyn.Name := "Title"; Dyn.gormTag := "column:title"; Dyn.jsonTag := "title" |};
      {| Dyn.Name := "Status"; Dyn.gormTag := "column:status"; Dyn.jsonTag := "status" |};
      {| Dyn.Name := "DeletedAt"; Dyn.gormTag := "column:deleted_at";
         Dyn.jsonTag := "deleted_at,omitempty" |} ].

Definition on_posts (filters : list FilterCondition) : DynamicFilter :=
  {| Base := {| Pagination := {| Page := 1; PerPage := 10; Search := "";
                                 Sort := ""; Order := "asc" |};
                Includes := [] |};
     Filters := filters;
     TableName := "posts";
     Model := Some Post;
     SearchFields := [];
     DefaultSort := "" |}.

Section WithUnicode.
Context `{U : Go.Unicode}.

Lemma one_of_In (x : string) (alts : list string) :
  Strings.one_of x alts = true <-> In x alts.
Proof.
  unfold Strings.one_of. rewrite existsb_exists. split.
  - intros [a [Hin Heq]]. apply String.eqb_eq in Heq. subst. assumption.
  - intros Hin. exists x. split; [assumption | apply String.eqb_refl].
Qed.

Lemma one_of_unrecognized (x : string) (alts : list string) :
  ~ In x recognized -> incl alts recognized -> Strings.one_of x alts = false.
Proof.
  intros Hx Hincl. destruct (Strings.one_of x alts) eqn:E; [|reflexivity].
  apply one_of_In in E. elim Hx. apply Hincl. assumption.
Qed.

Lemma append_nonempty (s t : string) : t <> "" -> s +:+ t <> "".
Proof. destruct s; cbn; [auto | discriminate]. Qed.

(** Every predicate [buildCondition] returns is non-empty: the test
    [condition == ""] of [ApplyFilters] never fires. *)
Lemma buildCondition_nonempty (filter : FilterCondition) :
  String.eqb (DynamicFilter.buildCondition filter) "" = false.
Proof.
  apply String.eqb_neq. unfold DynamicFilter.buildCondition.
  repeat match goal with
         | |- context [if ?c then _ else _] => destruct c
         end; apply append_nonempty; discriminate.
Qed.

(** A condition with an empty field or a nil value is passed over: the
    query is unchanged and nothing is looked up in the model, so nothing
    can panic. *)
Lemma apply_one_skips (d : DynamicFilter) (i : nat) (filter : FilterCondition)
    (query : gorm.DB) :
  Field filter = "" \/ Value filter = None ->
  DynamicFilter.apply_one d i filter query = Some query.
Proof.
  intros [E|E]; unfold DynamicFilter.apply_one; rewrite E;
    [reflexivity | cbn [Dyn.is_nil]; rewrite orb_true_r; reflexivity].
Qed.

(** The call a condition that is not passed over leads to. *)
Lemma apply_one_applies (d : DynamicFilter) (i : nat) (filter : FilterCondition)
    (query : gorm.DB) :
  Field filter <> "" -> Value filter <> None ->
  DynamicFilter.isValidField d (Field filter) = Some true ->
  DynamicFilter.apply_one d i filter query =
  Some (gorm.call query
          ((if (i =? 0)%nat then gorm.Where
            else if String.eqb (Go.ToUpper (Logic filter)) "OR" then gorm.Or
                 else gorm.Where)
             (DynamicFilter.buildCondition filter) [Value filter])).
Proof.
  intros Hf Hv Hvalid. unfold DynamicFilter.apply_one.
  apply String.eqb_neq in Hf. rewrite Hf.
  destruct (Value filter) as [v|] eqn:Ev; [|congruence]. cbn [Dyn.is_nil orb].
  rewrite Hvalid, buildCondition_nonempty.
  destruct (i =? 0)%nat; [reflexivity |].
  destruct (String.eqb (Go.ToUpper (Logic filter)) "OR"); reflexivity.
Qed.

(** C10: an operator whose upper-cased spelling is none of the recognized
    ones compiles to the equality predicate on the field; the condition is
    neither rejected nor passed over: when its field is valid and its value
    is not nil, [ApplyFilters] adds that predicate to the query. *)
Theorem buildCondition_default (filter : FilterCondition) :
  ~ In (Go.ToUpper (Operator filter)) recognized ->
  DynamicFilter.buildCondition filter = Field filter +:+ " = ?"
  /\ forall d i query,
       Field filter <> "" -> Value filter <> None ->
       DynamicFilter.isValidField d (Field filter) = Some true ->
       exists combine,
         (combine = gorm.Where \/ combine = gorm.Or)
         /\ DynamicFilter.apply_one d i filter query
            = Some (query ++ [combine (Field filter +:+ " = ?") [Value filter]])%list.
Proof.
  intros Hop.
  assert (E : DynamicFilter.buildCondition filter = Field filter +:+ " = ?").
  { unfold DynamicFilter.buildCondition.
    rewrite !(one_of_unrecognized _ _ Hop); [reflexivity | ..];
      intros x Hx; cbn in Hx; unfold recognized; cbn;
      repeat (destruct Hx as [Hx|Hx]; [subst x; tauto |]); destruct Hx. }
  split; [exact E |].
  intros d i query Hf Hv Hvalid.
  rewrite (apply_one_applies d i filter query Hf Hv Hvalid), E.
  unfold gorm.call.
  destruct (i =? 0)%nat; [eexists; split; [left; reflexivity | reflexivity] |].
  destruct (String.eqb _ "OR");
    eexists; (split; [|reflexivity]); [right | left]; reflexivity.
Qed.

(** A field of the model is valid under its own name. *)
Lemma isValidField_by_name (d : DynamicFilter) (fields : list Dyn.StructField)
    (field : Dyn.StructField) :
  Model d = Some (Dyn.Struct fields) -> In field fields ->
  DynamicFilter.isValidField d (Dyn.Name field) = Some true.
Proof.
  intros Hm Hin. unfold DynamicFilter.isValidField. rewrite Hm. f_equal.
  apply existsb_exists. exists field. split; [assumption |].
  rewrite String.eqb_refl. reflexivity.
Qed.

(** When every condition has an empty field or a nil value, the query
    comes back as it was, whatever the model is. *)
Lemma ApplyFilters_all_skipped (d : DynamicFilter) (query : gorm.DB) :
  Forall (fun filter => Field filter = "" \/ Value filter = None) (Filters d) ->
  DynamicFilter.ApplyFilters d query = Some query.
Proof.
  unfold DynamicFilter.ApplyFilters. generalize 0%nat.
  induction (Filters d) as [|filter rest IH]; intros i Hall; [reflexivity |].
  inversion Hall as [|? ? Hskip Hrest]; subst. cbn [DynamicFilter.apply_from].
  rewrite (apply_one_skips d i filter query Hskip). apply IH. assumption.
Qed.

(** C1, on the code: the special case is tied to position 0 of the list,
    not to the first condition that is applied. With a first condition
    that is passed over (its value is nil), the next one is the first to
    be applied and, tagged [OR], is combined with [Or]; alone in the list
    the same condition is combined with [Where]. *)
Theorem first_applied_condition_combined_with_Or :
  let unset := {| Field := "Title"; Operator := "LIKE"; Value := None;
                  Logic := "AND" |} in
  let status := {| Field := "Status"; Operator := "=";
                   Value := Some (Dyn.VStr "draft"); Logic := "OR" |} in
  DynamicFilter.ApplyFilters (on_posts [unset; status]) [gorm.Table "posts"]
  = Some [gorm.Table "posts"; gorm.Or "Status = ?" [Some (Dyn.VStr "draft")]]
  /\ DynamicFilter.ApplyFilters (on_posts [status]) [gorm.Table "posts"]
     = Some [gorm.Table "posts"; gorm.Where "Status = ?" [Some (Dyn.VStr "draft")]].
Proof.
  intros unset status.
  assert (Hvalid : forall fs,
             DynamicFilter.isValidField (on_posts fs) (Field status) = Some true).
  { intros fs.
    apply (isValidField_by_name (on_posts fs) _
             {| Dyn.Name := "Status"; Dyn.gormTag := "column:status";
                Dyn.jsonTag := "status" |} eq_refl).
    right. left. reflexivity. }
  unfold DynamicFilter.ApplyFilters. cbn [on_posts Filters DynamicFilter.apply_from].
  rewrite (apply_one_skips _ 0 unset) by (right; reflexivity).
  rewrite !apply_one_applies by (try apply Hvalid; discriminate).
  split; reflexivity.
Qed.

(** C2, on the code: the guard on a nil value does not look at the
    operator. A null check given without a value compiles to a predicate
    of its own, yet [ApplyFilters] leaves it out of the query; it is only
    applied when some non-nil value comes with it. *)
Theorem null_check_without_value_is_skipped :
  let is_null v := {| Field := "DeletedAt"; Operator := "IS_NULL"; Value := v;
                      Logic := "AND" |} in
  DynamicFilter.buildCondition (is_null None) = "DeletedAt IS NULL"
  /\ DynamicFilter.ApplyFilters (on_posts [is_null None]) [gorm.Table "posts"]
     = Some [gorm.Table "posts"]
  /\ DynamicFilter.ApplyFilters (on_posts [is_null (Some (Dyn.VBool true))])
       [gorm.Table "posts"]
     = Some [gorm.Table "posts";
             gorm.Where "DeletedAt IS NULL" [Some (Dyn.VBool true)]].
Proof.
  intros is_null. split; [reflexivity |]. split.
  - apply ApplyFilters_all_skipped.
    constructor; [right; reflexivity | constructor].
  - unfold DynamicFilter.ApplyFilters.
    cbn [on_posts Filters DynamicFilter.apply_from].
    rewrite apply_one_applies; try discriminate; [reflexivity |].
    apply (isValidField_by_name (on_posts [is_null (Some (Dyn.VBool true))]) _
             {| Dyn.Name := "DeletedAt"; Dyn.gormTag := "column:deleted_at";
                Dyn.jsonTag := "deleted_at,omitempty" |} eq_refl).
    right. right. left. reflexivity.
Qed.

End WithUnicode.

Definition between : FilterCondition :=
  {| Field := "Status"; Operator := "between"; Value := Some (Dyn.VStr "draft");
     Logic := "AND" |}.

Lemma between_unrecognized :
  ~ In (@Go.ToUpper ascii_tables (Operator between)) recognized.
Proof.
  vm_compute. intros H.
  repeat (destruct H as [H|H]; [discriminate H |]). exact H.
Defined.

Lemma buildCondition_default_witness :
  @DynamicFilter.buildCondition ascii_tables between = "Status = ?"
  /\ exists combine,
       (combine = gorm.Where \/ combine = gorm.Or)
       /\ @DynamicFilter.apply_one ascii_tables (on_posts [between]) 0 between
            [gorm.Table "posts"]
          = Some [gorm.Table "posts";
                  combine "Status = ?" [Some (Dyn.VStr "draft")]].
Proof.
  split.
  - exact (proj1 (@buildCondition_default ascii_tables between between_unrecognized)).
  - apply (proj2 (@buildCondition_default ascii_tables between between_unrecognized)
             (on_posts [between]) 0%nat [gorm.Table "posts"]).
    + discriminate.
    + discriminate.
    + reflexivity.
Defined.

End FilterFacts.

(** ** Floating-point arithmetic on integers below [2 ^ 53] *)
Module FloatFacts.

Lemma pow2_pos (k : Z) : 0 <= k -> 0 < 2 ^ k.
Proof. intros. apply Z.pow_pos_nonneg; lia. Qed.

Lemma digits2_pos_bounds (p : positive) :
  2 ^ (Zpos (digits2_pos p) - 1) <= Zpos p < 2 ^ Zpos (digits2_pos p).
Proof.
  induction p as [p IH|p IH|]; cbn [digits2_pos].
  - rewrite Pos2Z.inj_succ.
    replace (Z.succ (Zpos (digits2_pos p)) - 1) with (Z.succ (Zpos (digits2_pos p) - 1)) by lia.
    rewrite !Z.pow_succ_r by lia. lia.
  - rewrite Pos2Z.inj_succ.
    replace (Z.succ (Zpos (digits2_pos p)) - 1) with (Z.succ (Zpos (digits2_pos p) - 1)) by lia.
    rewrite !Z.pow_succ_r by lia. lia.
  - cbn. lia.
Qed.

Lemma digits2_pos_unique (p : positive) (d : Z) :
  2 ^ (d - 1) <= Zpos p < 2 ^ d -> Zpos (digits2_pos p) = d.
Proof.
  intros [Hlo Hhi]. pose proof (digits2_pos_bounds p) as [Blo Bhi].
  set (D := Zpos (digits2_pos p)) in *.
  assert (HD : 0 < D) by (unfold D; lia).
  destruct (Z.lt_trichotomy D d) as [Hlt|[Heq|Hgt]]; [|assumption|].
  - assert (2 ^ D <= 2 ^ (d - 1)) by (apply Z.pow_le_mono_r; lia). lia.
  - assert (0 <= d \/ d < 0) as [Hd|Hd] by lia.
    + assert (2 ^ d <= 2 ^ (D - 1)) by (apply Z.pow_le_mono_r; lia). lia.
    + rewrite (Z.pow_neg_r 2 d) in Hhi by lia. lia.
Qed.

Lemma iter_xO (p k : positive) : Zpos (Pos.iter xO p k) = Zpos p * 2 ^ Zpos k.
Proof.
  induction k as [|k IH] using Pos.peano_ind.
  - cbn. lia.
  - rewrite Pos.iter_succ, Pos2Z.inj_succ, Z.pow_succ_r by lia.
    rewrite Pos2Z.inj_xO, IH. lia.
Qed.

Lemma fexp_normal (e : Z) : -1021 <= e -> fexp Float64.prec Float64.emax e = e - 53.
Proof. intros. unfold fexp, emin, Float64.prec, Float64.emax. lia. Qed.

(** Rounding a mantissa of exactly 53 digits with nothing to round off. *)
Lemma binary_round_aux_53 (s : bool) (m : positive) (e : Z) :
  2 ^ 52 <= Zpos m < 2 ^ 53 -> -1074 <= e <= 971 ->
  binary_round_aux Float64.prec Float64.emax s (Zpos m) e loc_Exact = S754_finite s m e.
Proof.
  intros Hm He.
  assert (Hd : Zpos (digits2_pos m) = 53) by (apply digits2_pos_unique; exact Hm).
  unfold binary_round_aux, shr_fexp. cbn [Zdigits2 shr_record_of_loc].
  rewrite Hd, fexp_normal by lia.
  replace (53 + e - 53 - e) with 0 by lia. cbn [shr shr_m loc_of_shr_record round_nearest_even].
  cbn [Zdigits2]. rewrite Hd, fexp_normal by lia.
  replace (53 + e - 53 - e) with 0 by lia. cbn [shr shr_m].
  unfold Float64.emax, Float64.prec.
  destruct (e <=? 1024 - 53) eqn:E; [reflexivity | lia].
Qed.

Lemma of_int_pos (a : Z) :
  0 < a < 2 ^ 53 ->
  exists m e, Float64.of_int a = S754_finite false m e
              /\ 2 ^ 52 <= Zpos m < 2 ^ 53 /\ -52 <= e <= 0
              /\ Zpos m = a * 2 ^ (- e).
Proof.
  intros [Hpos Hlt]. destruct a as [|pa|pa]; try lia.
  pose proof (digits2_pos_bounds pa) as [Blo Bhi].
  set (d := Zpos (digits2_pos pa)) in *.
  assert (Hd1 : 1 <= d) by (unfold d; lia).
  assert (Hd2 : d <= 53).
  { destruct (Z.le_gt_cases d 53) as [|Hgt]; [assumption |].
    assert (2 ^ 53 <= 2 ^ (d - 1)) by (apply Z.pow_le_mono_r; lia). lia. }
  unfold Float64.of_int, binary_normalize, binary_round, shl_align.
  fold d. rewrite Z.add_0_r, fexp_normal by lia. rewrite Z.sub_0_r.
  destruct (d - 53) as [|k|k] eqn:Ek; try lia.
  - (* already 53 digits *)
    assert (d = 53) by lia.
    replace (d - 1) with 52 in Blo by lia.
    replace (2 ^ d) with (2 ^ 53) in Bhi by (f_equal; lia).
    exists pa, 0. rewrite binary_round_aux_53 by lia.
    repeat split; lia.
  - (* shifted left by 53 - d *)
    assert (Hk : Zpos k = 53 - d) by lia.
    assert (Hm : Zpos (Pos.iter xO pa k) = Zpos pa * 2 ^ (53 - d)).
    { rewrite iter_xO, Hk. reflexivity. }
    assert (Hb : 2 ^ 52 <= Zpos (Pos.iter xO pa k) < 2 ^ 53).
    { rewrite Hm.
      assert (E52 : 2 ^ 52 = 2 ^ (d - 1) * 2 ^ (53 - d))
        by (rewrite <- Z.pow_add_r by lia; f_equal; lia).
      assert (E53 : 2 ^ 53 = 2 ^ d * 2 ^ (53 - d))
        by (rewrite <- Z.pow_add_r by lia; f_equal; lia).
      assert (Hp : 0 < 2 ^ (53 - d)) by (apply pow2_pos; lia).
      rewrite E52, E53. split.
      - apply Z.mul_le_mono_nonneg_r; lia.
      - apply Z.mul_lt_mono_pos_r; lia. }
    exists (Pos.iter xO pa k), (Zneg k).
    rewrite binary_round_aux_53 by (try exact Hb; lia).
    repeat split; try lia.
    rewrite Hm. f_equal. f_equal. lia.
Qed.

Lemma Zdigits2_53 (m : Z) : 2 ^ 52 <= m < 2 ^ 53 -> Zdigits2 m = 53.
Proof.
  intros H. destruct m as [|p|p]; try lia. cbn [Zdigits2].
  apply digits2_pos_unique. exact H.
Qed.

Lemma Zdigits2_54 (m : Z) : 2 ^ 53 <= m < 2 ^ 54 -> Zdigits2 m = 54.
Proof.
  intros H. destruct m as [|p|p]; try lia. cbn [Zdigits2].
  apply digits2_pos_unique. exact H.
Qed.

Lemma shr_fexp_53 (m e : Z) (l : location) :
  2 ^ 52 <= m < 2 ^ 53 -> -1074 <= e ->
  shr_fexp Float64.prec Float64.emax m e l = (shr_record_of_loc m l, e).
Proof.
  intros Hm He. unfold shr_fexp. rewrite Zdigits2_53, fexp_normal by lia.
  replace (53 + e - 53 - e) with 0 by lia. reflexivity.
Qed.

Lemma shr_fexp_54 (m e : Z) (l : location) :
  2 ^ 53 <= m < 2 ^ 54 -> -1074 <= e ->
  shr_fexp Float64.prec Float64.emax m e l = (shr_1 (shr_record_of_loc m l), e + 1).
Proof.
  intros Hm He. unfold shr_fexp. rewrite Zdigits2_54, fexp_normal by lia.
  replace (54 + e - 53 - e) with 1 by lia. reflexivity.
Qed.

Lemma loc_of_shr_record_of_loc (m : Z) (l : location) :
  loc_of_shr_record (shr_record_of_loc m l) = l.
Proof. destruct l as [|[]]; reflexivity. Qed.

Lemma shr_m_of_loc (m : Z) (l : location) : shr_m (shr_record_of_loc m l) = m.
Proof. destruct l as [|[]]; reflexivity. Qed.

(** The second half of [binary_round_aux]: renormalise and pack. *)
Definition finish (s : bool) (m1 e1 : Z) : spec_float :=
  let '(mrs, e2) := shr_fexp Float64.prec Float64.emax m1 e1 loc_Exact in
  match shr_m mrs with
  | Z0 => S754_zero s
  | Zpos m => if e2 <=? Float64.emax - Float64.prec then S754_finite s m e2
              else S754_infinity s
  | Zneg _ => S754_nan
  end.

Lemma binary_round_aux_finish (s : bool) (q e : Z) (l : location) :
  binary_round_aux Float64.prec Float64.emax s q e l =
  let '(mrs, e1) := shr_fexp Float64.prec Float64.emax q e l in
  finish s (round_nearest_even (shr_m mrs) (loc_of_shr_record mrs)) e1.
Proof.
  unfold binary_round_aux, finish.
  destruct (shr_fexp Float64.prec Float64.emax q e l) as [mrs e1].
  reflexivity.
Qed.

Lemma finish_spec (s : bool) (m1 e1 : Z) :
  2 ^ 52 <= m1 <= 2 ^ 53 -> -1074 <= e1 <= 970 ->
  exists m ef, finish s m1 e1 = S754_finite s m ef
               /\ 2 ^ 52 <= Zpos m < 2 ^ 53
               /\ e1 <= ef <= e1 + 1
               /\ Zpos m * 2 ^ (ef - e1) = m1.
Proof.
  intros Hm He. unfold finish.
  destruct (Z.eq_dec m1 (2 ^ 53)) as [->|Hne].
  - rewrite shr_fexp_54 by lia.
    change (shr_m (shr_1 (shr_record_of_loc (2 ^ 53) loc_Exact))) with (2 ^ 52).
    change (2 ^ 52) with (Zpos (Z.to_pos (2 ^ 52))) at 1.
    cbv iota beta.
    unfold Float64.emax, Float64.prec.
    destruct (e1 + 1 <=? 1024 - 53) eqn:E; [|lia].
    exists (Z.to_pos (2 ^ 52)), (e1 + 1).
    split; [reflexivity |].
    replace (e1 + 1 - e1) with 1 by lia.
    repeat split; try lia; reflexivity.
  - rewrite shr_fexp_53 by lia. cbn [shr_record_of_loc shr_m].
    destruct m1 as [|p|p]; try lia.
    unfold Float64.emax, Float64.prec.
    destruct (e1 <=? 1024 - 53) eqn:E; [|lia].
    exists p, e1. rewrite Z.sub_diag, Z.mul_1_r.
    repeat split; lia.
Qed.

Lemma pow2_step (m k : Z) : 0 <= k -> m * 2 ^ (k + 1) = 2 * (m * 2 ^ k).
Proof. intros. rewrite Z.pow_add_r by lia. change (2 ^ 1) with 2. lia. Qed.

(** Rounding a quotient of 53 or 54 digits to nearest, ties to even. The
    result is counted in units of [2 ^ e]: it is [q] or [q + 1] when [q]
    has 53 digits, and twice the half of [q], or that plus one, when it has
    54. *)
Lemma round_core (s : bool) (q e : Z) (l : location) :
  2 ^ 52 <= q < 2 ^ 54 -> -1074 <= e <= 969 ->
  exists m ef,
    binary_round_aux Float64.prec Float64.emax s q e l = S754_finite s m ef
    /\ 2 ^ 52 <= Zpos m < 2 ^ 53 /\ e <= ef <= e + 2
    /\ ((q < 2 ^ 53
         /\ exists d, (d = 0 \/ d = 1)
                      /\ Zpos m * 2 ^ (ef - e) = q + d
                      /\ (l = loc_Exact -> d = 0)
                      /\ (l = loc_Inexact Gt -> d = 1))
        \/ (2 ^ 53 <= q
            /\ exists h t d, q = 2 * h + t /\ (t = 0 \/ t = 1) /\ (d = 0 \/ d = 1)
                             /\ Zpos m * 2 ^ (ef - e) = 2 * (h + d)
                             /\ (t = 0 -> d = 0)
                             /\ (t = 1 -> l <> loc_Exact -> d = 1))).
Proof.
  intros Hq He. rewrite binary_round_aux_finish.
  destruct (Z.lt_ge_cases q (2 ^ 53)) as [Hlt|Hge].
  - rewrite shr_fexp_53 by lia.
    rewrite shr_m_of_loc, loc_of_shr_record_of_loc.
    assert (Hd : exists d, (d = 0 \/ d = 1) /\ round_nearest_even q l = q + d
                           /\ (l = loc_Exact -> d = 0)
                           /\ (l = loc_Inexact Gt -> d = 1)).
    { destruct l as [|[]]; cbn [round_nearest_even].
      - exists 0. repeat split; try lia; try discriminate; auto.
      - destruct (Z.even q).
        + exists 0. repeat split; try lia; discriminate.
        + exists 1. repeat split; try lia; discriminate.
      - exists 0. repeat split; try lia; discriminate.
      - exists 1. repeat split; try lia; discriminate. }
    destruct Hd as (d & Hd01 & Hr & Hex & Hgt).
    destruct (finish_spec s (round_nearest_even q l) e) as (m & ef & Hfin & Hm & Hef & Hv);
      [lia | lia |].
    exists m, ef. split; [exact Hfin |]. split; [exact Hm |]. split; [lia |].
    left. split; [exact Hlt |]. exists d. rewrite Hv, Hr. auto.
  - rewrite shr_fexp_54 by lia.
    assert (Hd : exists h t d,
               q = 2 * h + t /\ (t = 0 \/ t = 1) /\ (d = 0 \/ d = 1)
               /\ round_nearest_even (shr_m (shr_1 (shr_record_of_loc q l)))
                    (loc_of_shr_record (shr_1 (shr_record_of_loc q l))) = h + d
               /\ (t = 0 -> d = 0) /\ (t = 1 -> l <> loc_Exact -> d = 1)).
    { destruct q as [|[p|p|]|]; try lia.
      - (* odd *)
        exists (Zpos p), 1.
        destruct l as [|[]]; cbn [shr_record_of_loc shr_1 orb shr_m loc_of_shr_record
                                   round_nearest_even].
        + destruct (Z.even (Zpos p)).
          * exists 0. repeat split; try lia. intros _ Hne. congruence.
          * exists 1. repeat split; try lia.
        + exists 1. repeat split; try lia.
        + exists 1. repeat split; try lia.
        + exists 1. repeat split; try lia.
      - (* even *)
        exists (Zpos p), 0, 0.
        destruct l as [|[]]; cbn [shr_record_of_loc shr_1 orb shr_m loc_of_shr_record
                                   round_nearest_even];
          repeat split; try lia. }
    destruct Hd as (h & t & d & Hqt & Ht & Hd01 & Hr & Hev & Hodd).
    rewrite Hr.
    destruct (finish_spec s (h + d) (e + 1)) as (m & ef & Hfin & Hm & Hef & Hv);
      [lia | lia |].
    exists m, ef. split; [exact Hfin |]. split; [exact Hm |]. split; [lia |].
    right. split; [exact Hge |]. exists h, t, d.
    repeat split; try assumption.
    replace (ef - e) with ((ef - (e + 1)) + 1) by lia.
    rewrite pow2_step by lia. rewrite Hv. reflexivity.
Qed.

Lemma new_location_exact (B r : Z) :
  0 < B -> 0 <= r < B -> (new_location B r = loc_Exact <-> r = 0).
Proof.
  intros HB Hr. unfold new_location, new_location_even, new_location_odd.
  destruct (Z.even B); destruct (Z.eqb_spec r 0);
    split; intros; try reflexivity; try assumption; try discriminate; try lia.
Qed.

Lemma new_location_not_Gt (B r : Z) :
  0 < B -> 0 <= r < B -> new_location B r <> loc_Inexact Gt -> 2 * r <= B.
Proof.
  intros HB Hr. unfold new_location, new_location_even, new_location_odd.
  destruct (Z.even B); destruct (Z.eqb_spec r 0); try lia.
  - destruct (Z.compare_spec (2 * r) B); intros Hne; try lia. congruence.
  - destruct (Z.compare_spec (2 * r + 1) B); intros Hne; try lia. congruence.
Qed.

Lemma SFdiv_normal (mx my : positive) (ex ey : Z) :
  2 ^ 52 <= Zpos mx < 2 ^ 53 -> 2 ^ 52 <= Zpos my < 2 ^ 53 ->
  -52 <= ex <= 11 -> -52 <= ey <= 11 ->
  Float64.div (S754_finite false mx ex) (S754_finite false my ey) =
  binary_round_aux Float64.prec Float64.emax false
    (Zpos mx * 2 ^ 53 / Zpos my) (ex - ey - 53)
    (new_location (Zpos my) ((Zpos mx * 2 ^ 53) mod Zpos my)).
Proof.
  intros Hx Hy Hex Hey.
  unfold Float64.div, SFdiv, SFdiv_core_binary. cbn [Zdigits2 xorb].
  rewrite (digits2_pos_unique mx 53 Hx), (digits2_pos_unique my 53 Hy).
  replace (53 + ex - (53 + ey)) with (ex - ey) by lia.
  rewrite fexp_normal by lia.
  rewrite Z.min_l by lia.
  replace (ex - ey - (ex - ey - 53)) with 53 by lia.
  cbv iota beta.
  rewrite Z.shiftl_mul_pow2 by lia.
  unfold Z.div, Z.modulo.
  destruct (Z.div_eucl (Zpos mx * 2 ^ 53) (Zpos my)) as [q r].
  reflexivity.
Qed.

(** [ceil_div x d] is the least integer [n] with [x <= n * d]. *)
Lemma ceil_div_spec (x d n : Z) :
  0 < d -> ((n - 1) * d < x <= n * d <-> Float64.ceil_div x d = n).
Proof.
  intros Hd. unfold Float64.ceil_div.
  pose proof (Z.div_mod (- x) d ltac:(lia)) as Hdm.
  pose proof (Z.mod_pos_bound (- x) d Hd) as Hmod.
  split.
  - intros [Hlo Hhi]. nia.
  - intros <-. nia.
Qed.

Lemma ceil_div_exact (m d : Z) : 0 < d -> Float64.ceil_div (m * d) d = m.
Proof. intros. apply ceil_div_spec; lia. Qed.

Section Conversion.
Context `{P : Float64.Platform}.

Lemma to_int64_of_int (c : Z) :
  0 < c < 2 ^ 53 -> Float64.to_int64 (Float64.of_int c) = c.
Proof.
  intros Hc. destruct (of_int_pos c Hc) as (m & e & -> & Hm & He & Hv).
  unfold Float64.to_int64. cbn [cond_Zopp].
  assert (Hval : (if 0 <=? e then Zpos m * 2 ^ e else Zpos m / 2 ^ (- e)) = c).
  { destruct (0 <=? e) eqn:E.
    - assert (e = 0) by lia. subst e. cbn in Hv. lia.
    - rewrite Hv. apply Z.div_mul. pose proof (pow2_pos (- e)). lia. }
  rewrite Hval. unfold Go.MinInt64, Go.MaxInt64.
  destruct ((- 2 ^ 63 <=? c) && (c <=? 2 ^ 63 - 1)) eqn:E; [reflexivity |].
  apply andb_false_iff in E. destruct E as [E|E]; lia.
Qed.

(** The integer [int64(math.Ceil(x))] yields for a positive normal [x]. *)
Lemma to_int64_Ceil (m : positive) (ef : Z) :
  2 ^ 52 <= Zpos m < 2 ^ 53 -> ef <= 9 ->
  Float64.to_int64 (Float64.Ceil (S754_finite false m ef))
  = if 0 <=? ef then Zpos m * 2 ^ ef else Float64.ceil_div (Zpos m) (2 ^ (- ef)).
Proof.
  intros Hm Hef. unfold Float64.Ceil.
  destruct (0 <=? ef) eqn:E.
  - unfold Float64.to_int64. cbn [cond_Zopp]. rewrite E.
    assert (0 < Zpos m * 2 ^ ef < 2 ^ 63).
    { assert (0 < 2 ^ ef) by (apply pow2_pos; lia).
      assert (2 ^ ef <= 2 ^ 9) by (apply Z.pow_le_mono_r; lia).
      change (2 ^ 63) with (2 ^ 53 * 2 ^ 10). change (2 ^ 9) with 512 in *.
      nia. }
    unfold Go.MinInt64, Go.MaxInt64.
    destruct ((- 2 ^ 63 <=? Zpos m * 2 ^ ef) && (Zpos m * 2 ^ ef <=? 2 ^ 63 - 1)) eqn:E';
      [reflexivity |].
    apply andb_false_iff in E'. destruct E' as [E'|E']; lia.
  - cbn [cond_Zopp].
    set (c := Float64.ceil_div (Zpos m) (2 ^ (- ef))).
    assert (Hc : 0 < c < 2 ^ 53).
    { assert (Hp : 2 <= 2 ^ (- ef)).
      { change 2 with (2 ^ 1) at 1. apply Z.pow_le_mono_r; lia. }
      pose proof (proj2 (ceil_div_spec (Zpos m) (2 ^ (- ef)) c ltac:(lia)) eq_refl).
      nia. }
    change (binary_normalize Float64.prec Float64.emax c 0 false)
      with (Float64.of_int c).
    apply to_int64_of_int. exact Hc.
Qed.

End Conversion.


Lemma quotient_bounds (a b D L q r N : Z) :
  0 < a -> 0 < b -> 0 < L -> 0 < D ->
  a * (D * L) = q * (b * L) + r -> 0 <= r < b * L ->
  (N - 1) * b < a <= N * b ->
  (N - 1) * D <= q <= N * D.
Proof.
  intros Ha Hb HL HD Heq Hr [Hlo Hhi].
  assert (HBL : 0 < b * L) by nia.
  assert (HDL : 0 < D * L) by nia.
  assert (H1 : a * (D * L) <= N * b * (D * L))
    by (apply Z.mul_le_mono_nonneg_r; lia).
  assert (H2 : ((N - 1) * b + 1) * (D * L) <= a * (D * L))
    by (apply Z.mul_le_mono_nonneg_r; lia).
  split.
  - (* (N-1) D < q + 1 *)
    assert (H3 : (N - 1) * D * (b * L) < (q + 1) * (b * L)) by nia.
    apply Z.mul_lt_mono_pos_r in H3; lia.
  - assert (H3 : q * (b * L) <= N * D * (b * L)) by nia.
    apply Z.mul_le_mono_pos_r in H3; lia.
Qed.

Lemma quotient_case1 (a b D L q r d N : Z) :
  0 < a < 2 ^ 53 -> 0 < b -> 0 < L -> 0 < D ->
  a * (D * L) = q * (b * L) + r -> 0 <= r < b * L -> 2 ^ 52 <= q ->
  (N - 1) * b < a <= N * b ->
  (d = 0 \/ d = 1) -> (r = 0 -> d = 0) -> (d = 0 -> 2 * r <= b * L) ->
  (N - 1) * D < q + d <= N * D.
Proof.
  intros Ha Hb HL HD Heq Hr Hq HN Hd Hex Hhalf.
  pose proof (quotient_bounds a b D L q r N ltac:(lia) Hb HL HD Heq Hr HN) as [Blo Bhi].
  assert (HN1 : 1 <= N) by nia.
  split.
  - destruct Hd as [-> | ->]; [|lia].
    specialize (Hhalf eq_refl).
    destruct (Z.eq_dec q ((N - 1) * D)) as [E|E]; [exfalso | lia].
    assert (Hr' : r = (a - (N - 1) * b) * (D * L)) by (subst q; lia).
    assert (Hge : D * L <= r) by nia.
    assert (H2D : 2 * D <= b).
    { assert (2 * D * L <= b * L) by lia.
      apply Z.mul_le_mono_pos_r in H; lia. }
    assert ((N - 1) * (2 * D) <= (N - 1) * b)
      by (apply Z.mul_le_mono_nonneg_l; lia).
    change (2 ^ 53) with (2 * 2 ^ 52) in Ha. lia.
  - destruct Hd as [-> | ->]; [lia |].
    destruct (Z.eq_dec q (N * D)) as [E|E]; [exfalso | lia].
    assert (H1 : a * (D * L) <= N * b * (D * L))
      by (apply Z.mul_le_mono_nonneg_r; nia).
    assert (r = 0) by (subst q; lia).
    specialize (Hex H). lia.
Qed.

Lemma quotient_case2 (a b D L h t r d N : Z) :
  0 < a < 2 ^ 53 -> 0 < b -> 0 < L -> 0 < D ->
  a * (2 * D * L) = (2 * h + t) * (b * L) + r -> 0 <= r < b * L ->
  2 ^ 52 <= h -> (t = 0 \/ t = 1) ->
  (N - 1) * b < a <= N * b ->
  (d = 0 \/ d = 1) -> (t = 0 -> d = 0) -> (d = 0 -> t = 0 \/ r = 0) ->
  (N - 1) * (2 * D) < 2 * (h + d) <= N * (2 * D).
Proof.
  intros Ha Hb HL HD Heq Hr Hh Ht HN Hd Hev Hz.
  pose proof (quotient_bounds a b (2 * D) L (2 * h + t) r N ltac:(lia) Hb HL
                ltac:(lia) Heq Hr HN) as [Blo Bhi].
  assert (HN1 : 1 <= N) by nia.
  split.
  - destruct Hd as [-> | ->]; [|lia].
    specialize (Hz eq_refl).
    destruct (Z.eq_dec h ((N - 1) * D)) as [E|E]; [exfalso | lia].
    assert (Hr' : t * (b * L) + r = (a - (N - 1) * b) * (2 * D * L))
      by (subst h; lia).
    assert (Hge : 2 * D * L <= t * (b * L) + r) by nia.
    assert (H2D : 2 * D <= b).
    { assert (2 * D * L <= b * L) by (destruct Ht as [->| ->], Hz as [Hz|Hz]; lia).
      apply Z.mul_le_mono_pos_r in H; lia. }
    assert ((N - 1) * (2 * D) <= (N - 1) * b)
      by (apply Z.mul_le_mono_nonneg_l; lia).
    change (2 ^ 53) with (2 * 2 ^ 52) in Ha. lia.
  - destruct Hd as [-> | ->]; [lia |].
    destruct (Z.eq_dec h (N * D)) as [E|E]; [exfalso | lia].
    assert (t = 0) by lia. specialize (Hev H). lia.
Qed.

Lemma ceil_div_scale (x d k : Z) :
  0 < d -> 0 < k -> Float64.ceil_div (x * k) (d * k) = Float64.ceil_div x d.
Proof.
  intros Hd Hk. apply ceil_div_spec; [nia |].
  pose proof (proj2 (ceil_div_spec x d (Float64.ceil_div x d) Hd) eq_refl) as [Hlo Hhi].
  split.
  - replace ((Float64.ceil_div x d - 1) * (d * k))
      with ((Float64.ceil_div x d - 1) * d * k) by lia.
    apply Z.mul_lt_mono_pos_r; assumption.
  - replace (Float64.ceil_div x d * (d * k))
      with (Float64.ceil_div x d * d * k) by lia.
    apply Z.mul_le_mono_nonneg_r; lia.
Qed.

(** *** Integers of 54 to 63 digits *)

Lemma shr_1_m (mrs : shr_record) :
  0 <= shr_m mrs -> shr_m (shr_1 mrs) = shr_m mrs / 2.
Proof.
  destruct mrs as [m r s]. cbn [shr_m]. intros Hm.
  destruct m as [|[p|p|]|p]; cbn [shr_1 shr_m]; try reflexivity;
    Z.div_mod_to_equations; lia.
Qed.

Lemma div_pow2_twice (m j k : Z) :
  0 <= j -> 0 <= k -> m / 2 ^ j / 2 ^ k = m / 2 ^ (j + k).
Proof.
  intros Hj Hk. pose proof (pow2_pos j Hj). pose proof (pow2_pos k Hk).
  rewrite Z.div_div by lia. rewrite Z.pow_add_r by assumption. reflexivity.
Qed.

Lemma iter_pos_shr_m (n : positive) :
  forall mrs, 0 <= shr_m mrs ->
              0 <= shr_m (SpecFloat.iter_pos shr_1 n mrs)
              /\ shr_m (SpecFloat.iter_pos shr_1 n mrs) = shr_m mrs / 2 ^ Zpos n.
Proof.
  induction n as [n IH|n IH|]; intros mrs Hm; cbn [SpecFloat.iter_pos].
  - assert (H1 : 0 <= shr_m (shr_1 mrs)).
    { rewrite shr_1_m by assumption. apply Z.div_pos; lia. }
    destruct (IH _ H1) as [H2 E2]. destruct (IH _ H2) as [H3 E3].
    split; [assumption |].
    rewrite E3, E2, shr_1_m by assumption.
    change 2 with (2 ^ 1) at 1. rewrite !div_pow2_twice by lia.
    f_equal. f_equal. lia.
  - destruct (IH _ Hm) as [H2 E2]. destruct (IH _ H2) as [H3 E3].
    split; [assumption |].
    rewrite E3, E2, div_pow2_twice by lia. f_equal. f_equal. lia.
  - rewrite shr_1_m by assumption. split; [apply Z.div_pos; lia | reflexivity].
Qed.

Lemma round_nearest_even_bounds (m : Z) (l : location) :
  m <= round_nearest_even m l <= m + 1.
Proof.
  destruct l as [|[]]; cbn [round_nearest_even]; try lia.
  destruct (Z.even m); lia.
Qed.

Lemma of_int_large (b : Z) :
  2 ^ 53 <= b < 2 ^ 63 ->
  exists m e, Float64.of_int b = S754_finite false m e
              /\ 2 ^ 52 <= Zpos m < 2 ^ 53 /\ 1 <= e <= 11.
Proof.
  intros [Hlo Hhi]. destruct b as [|pb|pb]; try lia.
  pose proof (digits2_pos_bounds pb) as [Blo Bhi].
  set (d := Zpos (digits2_pos pb)) in *.
  assert (Hd1 : 54 <= d).
  { destruct (Z.le_gt_cases 54 d) as [|Hlt]; [assumption |].
    assert (2 ^ d <= 2 ^ 53) by (apply Z.pow_le_mono_r; lia). lia. }
  assert (Hd2 : d <= 63).
  { destruct (Z.le_gt_cases d 63) as [|Hgt]; [assumption |].
    assert (2 ^ 63 <= 2 ^ (d - 1)) by (apply Z.pow_le_mono_r; lia). lia. }
  unfold Float64.of_int, binary_normalize, binary_round, shl_align.
  fold d. rewrite Z.add_0_r, fexp_normal by lia. rewrite Z.sub_0_r.
  destruct (d - 53) as [|k|k] eqn:Ek; try lia.
  rewrite binary_round_aux_finish. unfold shr_fexp. cbn [Zdigits2]. fold d.
  rewrite Z.add_0_r, fexp_normal by lia. rewrite Z.sub_0_r, Ek.
  cbn [shr shr_record_of_loc].
  set (mrs := SpecFloat.iter_pos shr_1 k
                {| shr_m := Zpos pb; shr_r := false; shr_s := false |}).
  assert (Hm : 2 ^ 52 <= shr_m mrs < 2 ^ 53).
  { unfold mrs.
    rewrite (proj2 (iter_pos_shr_m k
                      {| shr_m := Zpos pb; shr_r := false; shr_s := false |}
                      ltac:(cbn; lia))).
    cbn [shr_m].
    assert (Hp : 0 < 2 ^ Zpos k) by (apply pow2_pos; lia).
    assert (E1 : 2 ^ (d - 1) = 2 ^ 52 * 2 ^ Zpos k)
      by (rewrite <- Z.pow_add_r by lia; f_equal; lia).
    assert (E2 : 2 ^ d = 2 ^ 53 * 2 ^ Zpos k)
      by (rewrite <- Z.pow_add_r by lia; f_equal; lia).
    split.
    - apply Z.div_le_lower_bound; lia.
    - apply Z.div_lt_upper_bound; lia. }
  pose proof (round_nearest_even_bounds (shr_m mrs) (loc_of_shr_record mrs)) as Hr.
  destruct (finish_spec false
              (round_nearest_even (shr_m mrs) (loc_of_shr_record mrs))
              (0 + Zpos k)) as (m & ef & Hfin & Hmb & Hef & _); [lia | lia |].
  exists m, ef. rewrite Hfin. repeat split; lia.
Qed.

Lemma quotient_digits (mx my : Z) :
  2 ^ 52 <= mx < 2 ^ 53 -> 2 ^ 52 <= my < 2 ^ 53 ->
  2 ^ 52 <= mx * 2 ^ 53 / my < 2 ^ 54.
Proof.
  intros Hx Hy. split.
  - apply Z.div_le_lower_bound; [lia |].
    change (2 ^ 53) with (2 * 2 ^ 52) in *. nia.
  - apply Z.div_lt_upper_bound; [lia |].
    change (2 ^ 54) with (2 * 2 ^ 53). change (2 ^ 53) with (2 * 2 ^ 52) in *. nia.
Qed.

Section Quotient.
Context `{P : Float64.Platform}.

(** On integers below [2 ^ 53] the floating-point detour is exact: the
    quotient, rounded to nearest, rounded up and converted back, is the
    integer ceiling of the ratio. *)
Theorem div_ceil_exact (a b : Z) :
  0 < a < 2 ^ 53 -> 0 < b < 2 ^ 53 ->
  Float64.to_int64
    (Float64.Ceil (Float64.div (Float64.of_int a) (Float64.of_int b)))
  = Float64.ceil_div a b.
Proof.
  intros Ha Hb.
  destruct (of_int_pos a Ha) as (mx & ex & -> & Hmx & Hex & Hvx).
  destruct (of_int_pos b Hb) as (my & ey & -> & Hmy & Hey & Hvy).
  rewrite SFdiv_normal by (try assumption; lia).
  set (q := Zpos mx * 2 ^ 53 / Zpos my).
  set (r := (Zpos mx * 2 ^ 53) mod Zpos my).
  assert (Hdm : Zpos mx * 2 ^ 53 = Zpos my * q + r)
    by (apply Z.div_mod; lia).
  assert (Hr : 0 <= r < Zpos my) by (apply Z.mod_pos_bound; lia).
  assert (Hq : 2 ^ 52 <= q < 2 ^ 54).
  { split.
    - apply Z.div_le_lower_bound; [lia |].
      change (2 ^ 53) with (2 * 2 ^ 52) in *. nia.
    - apply Z.div_lt_upper_bound; [lia |].
      change (2 ^ 54) with (2 * 2 ^ 53). change (2 ^ 53) with (2 * 2 ^ 52) in *. nia. }
  set (l := new_location (Zpos my) r).
  destruct (round_core false q (ex - ey - 53) l Hq ltac:(lia))
    as (m & ef & -> & Hm & Hef & Hcase).
  rewrite to_int64_Ceil by (try assumption; lia).
  set (E := - (ex - ey - 53)).
  assert (HE : 1 <= E <= 105) by (unfold E; lia).
  set (V := Zpos m * 2 ^ (ef - (ex - ey - 53))) in *.
  assert (HD : 0 < 2 ^ E) by (apply pow2_pos; lia).
  (* the value read back is the ceiling of [V / 2 ^ E] *)
  assert (Hread : (if 0 <=? ef then Zpos m * 2 ^ ef
                   else Float64.ceil_div (Zpos m) (2 ^ (- ef)))
                  = Float64.ceil_div V (2 ^ E)).
  { unfold V. replace (ef - (ex - ey - 53)) with (ef + E) by (unfold E; lia).
    destruct (0 <=? ef) eqn:Eef.
    - rewrite Z.pow_add_r, Z.mul_assoc by lia.
      symmetry. apply ceil_div_exact. assumption.
    - replace (2 ^ E) with (2 ^ (- ef) * 2 ^ (ef + E))
        by (rewrite <- Z.pow_add_r by lia; f_equal; lia).
      symmetry. apply ceil_div_scale; apply pow2_pos; lia. }
  rewrite Hread. clear Hread.
  set (N := Float64.ceil_div a b).
  pose proof (proj2 (ceil_div_spec a b N ltac:(lia)) eq_refl) as HN.
  apply ceil_div_spec; [assumption |].
  set (L := 2 ^ (- ey)) in *.
  assert (HL : 0 < L) by (apply pow2_pos; lia).
  assert (HK : 2 ^ (- ex) * 2 ^ 53 = 2 ^ E * L).
  { unfold L, E. rewrite <- !Z.pow_add_r by lia. f_equal. lia. }
  assert (Heq : a * (2 ^ E * L) = q * (b * L) + r).
  { rewrite <- HK, <- Hvy, Z.mul_assoc, <- Hvx. lia. }
  assert (Hl0 : l = loc_Exact <-> r = 0)
    by (apply new_location_exact; lia).
  assert (HlG : l <> loc_Inexact Gt -> 2 * r <= b * L).
  { intros Hne. rewrite <- Hvy. apply new_location_not_Gt; try assumption; lia. }
  destruct Hcase as [(Hlt & d & Hd & HV & Hex0 & Hgt)
                    |(Hge & h & t & d & Hqt & Ht & Hd & HV & Hev & Hodd)].
  - fold V in HV. rewrite HV.
    apply (quotient_case1 a b (2 ^ E) L q r d N); try assumption; try lia.
    + intros Hr0. apply Hex0, Hl0, Hr0.
    + intros Hd0. apply HlG. intros Hl. specialize (Hgt Hl). lia.
  - fold V in HV. rewrite HV.
    replace (2 ^ E) with (2 * 2 ^ (E - 1))
      by (rewrite <- Z.pow_succ_r by lia; f_equal; lia).
    assert (HD' : 0 < 2 ^ (E - 1)) by (apply pow2_pos; lia).
    apply (quotient_case2 a b (2 ^ (E - 1)) L h t r d N); try assumption; try lia.
    + rewrite <- Hqt.
      replace (2 * 2 ^ (E - 1)) with (2 ^ E)
        by (rewrite <- Z.pow_succ_r by lia; f_equal; lia).
      rewrite <- Heq. lia.
    + intros Hd0. destruct Ht as [Ht|Ht]; [left; assumption |].
      right. apply Hl0. destruct l as [|c] eqn:El; [reflexivity |].
      assert (d = 1) by (apply Hodd; [assumption | discriminate]). lia.
Qed.

(** A page size of [2 ^ 53] or more exceeds every total below [2 ^ 53]:
    the quotient lies in (0, 1] and its ceiling is 1, although the page
    size itself may have been rounded. *)
Theorem div_ceil_large (a b : Z) :
  0 < a < 2 ^ 53 -> 2 ^ 53 <= b < 2 ^ 63 ->
  Float64.to_int64
    (Float64.Ceil (Float64.div (Float64.of_int a) (Float64.of_int b))) = 1.
Proof.
  intros Ha Hb.
  destruct (of_int_pos a Ha) as (mx & ex & -> & Hmx & Hex & _).
  destruct (of_int_large b Hb) as (my & ey & -> & Hmy & Hey).
  rewrite SFdiv_normal by (try assumption; lia).
  pose proof (quotient_digits (Zpos mx) (Zpos my) Hmx Hmy) as Hq.
  set (q := Zpos mx * 2 ^ 53 / Zpos my) in *.
  set (l := new_location (Zpos my) ((Zpos mx * 2 ^ 53) mod Zpos my)).
  destruct (round_core false q (ex - ey - 53) l Hq ltac:(lia))
    as (m & ef & -> & Hm & Hef & Hcase).
  rewrite to_int64_Ceil by (try assumption; lia).
  destruct (0 <=? ef) eqn:E; [lia |].
  apply ceil_div_spec; [apply pow2_pos; lia |].
  rewrite Z.mul_0_l, Z.mul_1_l. split; [lia |].
  destruct (Z.eq_dec ef (-52)) as [E52|E52].
  - (* the mantissa was renormalised twice: it is [2 ^ 52] *)
    assert (Hsh : ef - (ex - ey - 53) = 2) by lia.
    rewrite Hsh in Hcase. rewrite E52. change (- -52) with 52.
    change (2 ^ 2) with 4 in Hcase.
    destruct Hcase as [(Hlt & d & Hd & HV & _)
                      |(Hge & h & t & d & Hqt & Ht & Hd & HV & _)]; lia.
  - assert (2 ^ 53 <= 2 ^ (- ef)) by (apply Z.pow_le_mono_r; lia). lia.
Qed.

End Quotient.

End FloatFacts.

(** ** The pagination response *)
Module ResponseFacts.

Definition request (perPage : Z) : PaginationRequest :=
  {| Page := 1; PerPage := perPage; Search := ""; Sort := ""; Order := "asc" |}.

(** C8 as stated does not hold. With [perPage = -10] and 25 rows the
    ceiling of the ratio is -2, which is not 0 and is returned as it is,
    where the specification gives 1. With [perPage = 1] and [2 ^ 53 + 1] rows the
    total is rounded to [2 ^ 53] when it is converted to [float64]. *)
Lemma maxPage_not_always_max_1_ceiling :
  MaxPage (@CalculatePagination Float64.amd64 (request (-10)) 25)
    <> Z.max 1 (Float64.ceil_div 25 (-10))
  /\ MaxPage (@CalculatePagination Float64.amd64 (request 1) (2 ^ 53 + 1))
       <> Z.max 1 (Float64.ceil_div (2 ^ 53 + 1) 1).
Proof. split; vm_compute; discriminate. Qed.

Example maxPage_negative_perPage :
  MaxPage (@CalculatePagination Float64.amd64 (request (-10)) 25) = -2.
Proof. vm_compute. reflexivity. Qed.

Example maxPage_rounded_total :
  MaxPage (@CalculatePagination Float64.amd64 (request 1) (2 ^ 53 + 1)) = 2 ^ 53.
Proof. vm_compute. reflexivity. Qed.

Section WithPlatform.
Context `{P : Float64.Platform}.

Lemma of_int_finite (b : Z) :
  0 < b < 2 ^ 63 -> exists m e, Float64.of_int b = S754_finite false m e.
Proof.
  intros Hb. destruct (Z.lt_ge_cases b (2 ^ 53)) as [Hs|Hl].
  - destruct (FloatFacts.of_int_pos b ltac:(lia)) as (m & e & E & _). eauto.
  - destruct (FloatFacts.of_int_large b ltac:(lia)) as (m & e & E & _). eauto.
Qed.

Lemma CalculatePagination_zero (pagination : PaginationRequest) :
  0 < PerPage pagination < 2 ^ 63 ->
  MaxPage (CalculatePagination pagination 0) = 1.
Proof.
  intros Hb. unfold CalculatePagination. cbn [MaxPage].
  destruct (of_int_finite (PerPage pagination) Hb) as (m & e & ->).
  reflexivity.
Qed.

(** C8, amended: the page, the page size and the total are handed back as
    they came; for a page size of at least 1 and [0 <= totalCount < 2 ^ 53]
    the number of pages is [max 1 (ceil (totalCount / perPage))], the
    ceiling being the least [n] with [totalCount <= n * perPage], and so it
    is 1 when the total is 0. *)
Theorem CalculatePagination_maxPage (pagination : PaginationRequest)
    (totalCount : Z) :
  let response := CalculatePagination pagination totalCount in
  (RPage response = Page pagination
   /\ RPerPage response = PerPage pagination
   /\ Total response = totalCount)
  /\ (1 <= PerPage pagination <= Go.MaxInt64 -> 0 <= totalCount < 2 ^ 53 ->
      MaxPage response = Z.max 1 (Float64.ceil_div totalCount (PerPage pagination))
      /\ (forall n,
             (n - 1) * PerPage pagination < totalCount <= n * PerPage pagination ->
             MaxPage response = Z.max 1 n)
      /\ (totalCount = 0 -> MaxPage response = 1)).
Proof.
  cbv zeta. split; [repeat split |].
  unfold Go.MaxInt64. intros Hb Ha.
  assert (H0 : totalCount = 0 ->
               MaxPage (CalculatePagination pagination totalCount) = 1).
  { intros ->. apply CalculatePagination_zero. lia. }
  assert (Hmax : MaxPage (CalculatePagination pagination totalCount)
                 = Z.max 1 (Float64.ceil_div totalCount (PerPage pagination))).
  { destruct (Z.eq_dec totalCount 0) as [E|E].
    - rewrite (H0 E), E. unfold Float64.ceil_div. cbn. reflexivity.
    - set (N := Float64.ceil_div totalCount (PerPage pagination)).
      pose proof (proj2 (FloatFacts.ceil_div_spec totalCount (PerPage pagination) N
                           ltac:(lia)) eq_refl) as HN.
      assert (1 <= N) by nia.
      unfold CalculatePagination. cbn [MaxPage].
      destruct (Z.lt_ge_cases (PerPage pagination) (2 ^ 53)) as [Hs|Hl].
      + rewrite FloatFacts.div_ceil_exact by lia. fold N.
        destruct (N =? 0) eqn:EN; lia.
      + rewrite FloatFacts.div_ceil_large by lia.
        assert (N = 1) by (apply FloatFacts.ceil_div_spec; lia).
        cbn. lia. }
  split; [exact Hmax |]. split; [|exact H0].
  intros n Hn. rewrite Hmax. f_equal.
  apply FloatFacts.ceil_div_spec; [lia | exact Hn].
Qed.

End WithPlatform.

Lemma CalculatePagination_maxPage_witness :
  MaxPage (@CalculatePagination Float64.amd64 (request 10) 25) = 3
  /\ MaxPage (@CalculatePagination Float64.amd64 (request 10) 25) = Z.max 1 3
  /\ MaxPage (@CalculatePagination Float64.amd64 (request 10) 0) = 1.
Proof.
  split; [|split].
  - apply (proj1 (proj2 (@CalculatePagination_maxPage Float64.amd64 (request 10) 25)
                    ltac:(unfold Go.MaxInt64; cbn; lia) ltac:(lia))).
  - apply (proj1 (proj2 (proj2 (@CalculatePagination_maxPage Float64.amd64
                                  (request 10) 25)
                           ltac:(unfold Go.MaxInt64; cbn; lia) ltac:(lia)))).
    cbn. lia.
  - apply (proj2 (proj2 (proj2 (@CalculatePagination_maxPage Float64.amd64
                                  (request 10) 0)
                           ltac:(unfold Go.MaxInt64; cbn; lia) ltac:(lia)))).
    reflexivity.
Defined.

End ResponseFacts.

(** * Further properties of the code *)

(** ** The window of a request *)
Module WindowFacts.

Lemma wrap64_id (z : Z) :
  Go.MinInt64 <= z <= Go.MaxInt64 -> Go.wrap64 z = z.
Proof.
  unfold Go.MinInt64, Go.MaxInt64, Go.wrap64. intros Hz.
  rewrite Z.mod_small by lia. lia.
Qed.

(** For a request with [page >= 1] and [perPage >= 1] whose window starts
    within the [int64] range, [GetOffset] and [GetLimit] change nothing in
    the request; the offset is [(page - 1) * perPage], it is not negative,
    and the limit is [perPage]. *)
Theorem window_of_valid_request (p : PaginationRequest) :
  1 <= Page p -> 1 <= PerPage p ->
  (Page p - 1) * PerPage p <= Go.MaxInt64 ->
  PaginationRequest.GetOffset p = ((Page p - 1) * PerPage p, p)
  /\ PaginationRequest.GetLimit p = (PerPage p, p)
  /\ 0 <= fst (PaginationRequest.GetOffset p).
Proof.
  intros Hpg Hpp Hmax.
  assert (Hoff : PaginationRequest.GetOffset p = ((Page p - 1) * PerPage p, p)).
  { unfold PaginationRequest.GetOffset.
    destruct (Page p <=? 0) eqn:E; [lia |].
    assert (Hpm : Page p - 1 <= Go.MaxInt64) by nia.
    rewrite (wrap64_id (Page p - 1)) by (unfold Go.MinInt64, Go.MaxInt64 in *; lia).
    rewrite wrap64_id by (unfold Go.MinInt64, Go.MaxInt64 in *; nia).
    reflexivity. }
  split; [exact Hoff |]. split.
  - unfold PaginationRequest.GetLimit.
    destruct (PerPage p <=? 0) eqn:E; [lia | reflexivity].
  - rewrite Hoff. cbn [fst]. nia.
Qed.

Lemma window_of_valid_request_witness :
  PaginationRequest.GetOffset
    {| Page := 3; PerPage := 25; Search := ""; Sort := ""; Order := "asc" |}
  = (50, {| Page := 3; PerPage := 25; Search := ""; Sort := ""; Order := "asc" |}).
Proof.
  apply (proj1 (window_of_valid_request
                  {| Page := 3; PerPage := 25; Search := ""; Sort := "";
                     Order := "asc" |}
                  ltac:(cbn; lia) ltac:(cbn; lia)
                  ltac:(unfold Go.MaxInt64; cbn; lia))).
Defined.

(** Whatever the request holds, the limit is positive and is the page size
    [Validate] would settle on; the request [GetOffset] and then
    [GetLimit] leave behind has the page and page size of [Validate]; and
    on the first page, or any page below it, the offset is 0. *)
Theorem window_coercions (p : PaginationRequest) :
  let '(offset, p1) := PaginationRequest.GetOffset p in
  let '(limit, p2) := PaginationRequest.GetLimit p1 in
  1 <= limit
  /\ limit = PerPage (PaginationRequest.Validate p)
  /\ Page p2 = Page (PaginationRequest.Validate p)
  /\ PerPage p2 = PerPage (PaginationRequest.Validate p)
  /\ (Page p <= 1 -> offset = 0).
Proof.
  rewrite PaginationFacts.Validate_eq.
  destruct p as [pg pp se so od].
  unfold PaginationRequest.GetOffset, PaginationRequest.GetLimit,
    PaginationRequest.with_Page, PaginationRequest.with_PerPage.
  cbn [Page PerPage Search Sort Order].
  destruct (pg <=? 0) eqn:Epg; cbn [Page PerPage Search Sort Order];
    destruct (pp <=? 0) eqn:Epp; cbn [Page PerPage Search Sort Order];
    repeat split; try lia; intros Hle.
  all: try (change (Go.wrap64 (1 - 1)) with 0; rewrite Z.mul_0_l; reflexivity).
  all: assert (pg = 1) by lia; subst pg;
    change (Go.wrap64 (1 - 1)) with 0; rewrite Z.mul_0_l; reflexivity.
Qed.

End WindowFacts.

(** ** More on the paginated executor *)
Module ExecutorMore.
Import ExecutorFacts.

Section Run.
Context {T S B : Type} `{QueryBuilder B}.
Variable be : gorm.Backend T S.
Variable db : gorm.DB.
Variable builder : B.


Lemma nth_error_just_after {A} (l rest : list A) (x : A) :
  nth_error (l ++ x :: rest) (length l) = Some x.
Proof.
  rewrite nth_error_app2 by lia. rewrite Nat.sub_diag. reflexivity.
Qed.


End Run.

Definition searching (term : string) : PaginationRequest :=
  {| Page := 1; PerPage := 10; Search := term; Sort := ""; Order := "asc" |}.


End ExecutorMore.

(** ** Ordering, eager loading and the builders behind the executor *)
Module StatementFacts.
Import ExecutorFacts.

Lemma filter_sublist {A} (f : A -> bool) (l : list A) :
  sublist (List.filter f l) l.
Proof.
  induction l as [|x l IH]; cbn [List.filter]; [constructor |].
  destruct (f x); constructor; assumption.
Qed.

Lemma filter_twice {A} (f : A -> bool) (l : list A) :
  List.filter f (List.filter f l) = List.filter f l.
Proof.
  induction l as [|x l IH]; cbn [List.filter]; [reflexivity |].
  destruct (f x) eqn:E; [cbn [List.filter]; rewrite E, IH; reflexivity | exact IH].
Qed.

Lemma isValidInclude_bytes (s : string) :
  isValidInclude s = true <-> s <> "" /\ Forall IdentFacts.ident_char (Go.bytes s).
Proof. exact (IdentFacts.isValidSortField_bytes s). Qed.

Lemma map_get_true (m : gmap string bool) (k : string) :
  map_get m k = true <-> m !! k = Some true.
Proof.
  unfold map_get. destruct (m !! k) as [[|]|]; cbn; split; congruence.
Qed.

Lemma window_limit (p : PaginationRequest) :
  snd (window p) = if PerPage p <=? 0 then 10 else PerPage p.
Proof.
  destruct p as [pg pp se so od].
  unfold window, PaginationRequest.GetOffset, PaginationRequest.GetLimit,
    PaginationRequest.with_Page, PaginationRequest.with_PerPage.
  cbn [Page PerPage Search Sort Order].
  destruct (pg <=? 0); cbn [Page PerPage Search Sort Order fst snd];
    destruct (pp <=? 0); reflexivity.
Qed.

Section Builder.
Context {B : Type} `{QueryBuilder B}.
Variable builder : B.



End Builder.

Lemma append_nonempty_l (s t : string) : s <> "" -> s +:+ t <> "".
Proof. destruct s; cbn; [congruence | discriminate]. Qed.


End StatementFacts.

(** ** The builders *)
Module BuilderFacts.
Import ExecutorFacts.

Lemma fold_joins (l : list string) (q : gorm.DB) :
  fold_left (fun q join => gorm.call q (gorm.Joins join)) l q
  = (q ++ map gorm.Joins l)%list.
Proof.
  revert q. induction l as [|x l IH]; intros q; cbn [fold_left map].
  - rewrite app_nil_r. reflexivity.
  - rewrite IH. unfold gorm.call. rewrite <- app_assoc. reflexivity.
Qed.

Lemma fold_groups (l : list string) (q : gorm.DB) :
  fold_left (fun q groupBy => gorm.call q (gorm.Group groupBy)) l q
  = (q ++ map gorm.Group l)%list.
Proof.
  revert q. induction l as [|x l IH]; intros q; cbn [fold_left map].
  - rewrite app_nil_r. reflexivity.
  - rewrite IH. unfold gorm.call. rewrite <- app_assoc. reflexivity.
Qed.

Lemma fold_havings (l : list string) (q : gorm.DB) :
  fold_left (fun q having => gorm.call q (gorm.Having having)) l q
  = (q ++ map gorm.Having l)%list.
Proof.
  revert q. induction l as [|x l IH]; intros q; cbn [fold_left map].
  - rewrite app_nil_r. reflexivity.
  - rewrite IH. unfold gorm.call. rewrite <- app_assoc. reflexivity.
Qed.

(** The clauses a builder holds, in the order they reach the statement:
    one [Select] with all the fields when there are any, then the joins,
    the groupings and the conditions on groups, each kind in the order it
    was added. *)
Definition clauses (selects joins groupBy having : list string) : gorm.DB :=
  ((match selects with
    | [] => []
    | _ => [gorm.Select selects]
    end)
   ++ map gorm.Joins joins ++ map gorm.Group groupBy
   ++ map gorm.Having having)%list.

Lemma Chainable_ApplyFilters_eq (c : ChainableQueryBuilder) (query : gorm.DB)
    (s : SimpleQueryBuilder) (filtered : gorm.DB) :
  CSimple c = Some s ->
  SimpleQueryBuilder.ApplyFilters s query = Some filtered ->
  ChainableQueryBuilder.ApplyFilters c query
  = Some (filtered ++ clauses (selects c) (joins c) (groupBy c) (having c))%list.
Proof.
  intros Hs Hf. unfold ChainableQueryBuilder.ApplyFilters, clauses.
  rewrite Hs, Hf. rewrite fold_havings, fold_groups, fold_joins.
  destruct (selects c) as [|f fs]; cbn [length Nat.ltb Nat.leb];
    unfold gorm.call; rewrite <- ?app_assoc; cbn [app]; [|reflexivity].
  reflexivity.
Qed.

(** A chainable builder applies its base filter first and then its
    clauses in the fixed order select, joins, group by, having, whatever
    the order the chain was written in; without an embedded builder, or
    when the base filter panics, it panics. *)
Theorem Chainable_ApplyFilters_order (c : ChainableQueryBuilder) (query : gorm.DB) :
  (forall s filtered,
      CSimple c = Some s ->
      SimpleQueryBuilder.ApplyFilters s query = Some filtered ->
      ChainableQueryBuilder.ApplyFilters c query
      = Some (filtered ++ clauses (selects c) (joins c) (groupBy c) (having c))%list)
  /\ (CSimple c = None -> ChainableQueryBuilder.ApplyFilters c query = None)
  /\ (forall s, CSimple c = Some s ->
                SimpleQueryBuilder.ApplyFilters s query = None ->
                ChainableQueryBuilder.ApplyFilters c query = None).
Proof.
  split; [|split].
  - intros s filtered. apply Chainable_ApplyFilters_eq.
  - intros Hs. unfold ChainableQueryBuilder.ApplyFilters. rewrite Hs. reflexivity.
  - intros s Hs Hf. unfold ChainableQueryBuilder.ApplyFilters.
    rewrite Hs, Hf. reflexivity.
Qed.

Definition chained : ChainableQueryBuilder :=
  ChainableQueryBuilder.Join "JOIN users ON users.id = posts.user_id"
    (ChainableQueryBuilder.Having "COUNT(*) > 1"
       (ChainableQueryBuilder.Select ["posts.id"; "users.name"]
          (ChainableQueryBuilder.GroupBy "posts.id"
             (NewChainableQueryBuilder "posts")))).

Lemma Chainable_ApplyFilters_order_witness :
  ChainableQueryBuilder.ApplyFilters chained [gorm.Table "posts"]
  = Some [gorm.Table "posts";
          gorm.Select ["posts.id"; "users.name"];
          gorm.Joins "JOIN users ON users.id = posts.user_id";
          gorm.Group "posts.id";
          gorm.Having "COUNT(*) > 1"].
Proof.
  exact (proj1 (Chainable_ApplyFilters_order chained [gorm.Table "posts"])
           (NewSimpleQueryBuilder "posts") [gorm.Table "posts"] eq_refl eq_refl).
Defined.

(** Applied by hand in the order select, joins, group by, having, the
    clauses of an advanced builder extend the statement exactly as a
    chainable builder holding the same lists does. *)
Theorem Advanced_matches_Chainable (a : AdvancedQueryBuilder)
    (c : ChainableQueryBuilder) (query : gorm.DB) :
  CSimple c = Some (ASimple a) ->
  FilterFunc (ASimple a) = None ->
  selects c = SelectFields a -> joins c = JoinClauses a ->
  groupBy c = GroupByClauses a -> having c = HavingClauses a ->
  ChainableQueryBuilder.ApplyFilters c query
  = Some (AdvancedQueryBuilder.ApplyHaving a
            (AdvancedQueryBuilder.ApplyGroupBy a
               (AdvancedQueryBuilder.ApplyJoins a
                  (AdvancedQueryBuilder.ApplySelect a query))))
  /\ AdvancedQueryBuilder.ApplyHaving a
       (AdvancedQueryBuilder.ApplyGroupBy a
          (AdvancedQueryBuilder.ApplyJoins a
             (AdvancedQueryBuilder.ApplySelect a query)))
     = (query ++ clauses (SelectFields a) (JoinClauses a) (GroupByClauses a)
                   (HavingClauses a))%list.
Proof.
  intros Hs Hf Hsel Hj Hg Hh.
  assert (E : AdvancedQueryBuilder.ApplyHaving a
                (AdvancedQueryBuilder.ApplyGroupBy a
                   (AdvancedQueryBuilder.ApplyJoins a
                      (AdvancedQueryBuilder.ApplySelect a query)))
              = (query ++ clauses (SelectFields a) (JoinClauses a)
                            (GroupByClauses a) (HavingClauses a))%list).
  { unfold AdvancedQueryBuilder.ApplyHaving, AdvancedQueryBuilder.ApplyGroupBy,
      AdvancedQueryBuilder.ApplyJoins, AdvancedQueryBuilder.ApplySelect, clauses.
    rewrite fold_havings, fold_groups, fold_joins.
    destruct (SelectFields a) as [|f fs]; cbn [length Nat.ltb Nat.leb];
      unfold gorm.call; rewrite <- ?app_assoc; reflexivity. }
  split; [|exact E].
  rewrite E.
  rewrite (Chainable_ApplyFilters_eq c query (ASimple a) query Hs).
  - rewrite Hsel, Hj, Hg, Hh. reflexivity.
  - unfold SimpleQueryBuilder.ApplyFilters. rewrite Hf. reflexivity.
Qed.

Definition advanced : AdvancedQueryBuilder :=
  {| ASimple := NewSimpleQueryBuilder "posts";
     JoinClauses := ["JOIN users ON users.id = posts.user_id"];
     GroupByClauses := ["posts.id"];
     HavingClauses := ["COUNT(*) > 1"];
     SelectFields := ["posts.id"; "users.name"] |}.

Lemma Advanced_matches_Chainable_witness :
  ChainableQueryBuilder.ApplyFilters chained [gorm.Table "posts"]
  = Some (AdvancedQueryBuilder.ApplyHaving advanced
            (AdvancedQueryBuilder.ApplyGroupBy advanced
               (AdvancedQueryBuilder.ApplyJoins advanced
                  (AdvancedQueryBuilder.ApplySelect advanced [gorm.Table "posts"])))).
Proof.
  exact (proj1 (Advanced_matches_Chainable advanced chained [gorm.Table "posts"]
                  eq_refl eq_refl eq_refl eq_refl eq_refl eq_refl)).
Defined.

Section Store.
Context {T S : Type}.
Variable be : gorm.Backend T S.
Variable db : gorm.DB.

(** The executor sees an advanced builder through the methods of the
    simple builder embedded in it. *)
Lemma Advanced_runs_as_simple (a : AdvancedQueryBuilder)
    (pagination : PaginationRequest) (includes : list string)
    (options : PaginatedQueryOptions) (w : gorm.World S) :
  PaginatedQueryWithOptions be db a pagination includes options w
  = PaginatedQueryWithOptions be db (ASimple a) pagination includes options w.
Proof. reflexivity. Qed.


End Store.


End BuilderFacts.

(** ** Includable builders *)
Module IncludableFacts.

Section Run.
Context {T S B : Type} `{IB : Includable.Builder B}.
Variable be : gorm.Backend T S.

(** Without a connection, and with a builder that cannot provide one, the
    query is refused before anything happens: the builder is not even
    validated and no statement runs. With a builder that provides one, a
    missing connection is replaced by the builder's; when that one is nil
    too, the call panics. *)
Theorem missing_connection (builder : B) (w : gorm.World S) :
  (@Includable.GetDB B IB = None ->
   PaginatedQueryWithIncludable be None builder w
   = Some (([], 0, Some (Dyn.errorString "database connection not provided"),
            builder), w))
  /\ (forall getDB,
        @Includable.GetDB B IB = Some getDB ->
        PaginatedQueryWithIncludable be None builder w
        = match getDB builder with
          | Some db => PaginatedQueryWithIncludable be (Some db) builder w
          | None => None
          end).
Proof.
  split.
  - intros E. unfold PaginatedQueryWithIncludable. rewrite E. reflexivity.
  - intros getDB E. unfold PaginatedQueryWithIncludable. rewrite E.
    destruct (getDB builder); reflexivity.
Qed.

(** The request and the includes are read from the builder after it has
    been validated, and the builder is handed back validated; with a
    connection at hand the call is the executor with the default options. *)
Theorem Includable_runs_validated (db : gorm.DB) (builder : B)
    (w : gorm.World S) :
  let validated := Includable.Validate builder in
  PaginatedQueryWithIncludable be (Some db) builder w
  = PaginatedQueryWithIncludableAndOptions be (Some db) builder
      {| Dialect := MySQL; EnableSoftDelete := false; CustomCountQuery := "" |} w
  /\ PaginatedQueryWithIncludable be (Some db) builder w
     = match PaginatedQueryWithOptions (H := Includable.base) be db validated
               (Includable.GetPagination validated)
               (Includable.GetIncludes validated)
               {| Dialect := MySQL; EnableSoftDelete := false;
                  CustomCountQuery := "" |} w with
       | Some (result, w') => Some ((result, validated), w')
       | None => None
       end.
Proof.
  cbv zeta. split; [reflexivity |].
  unfold PaginatedQueryWithIncludable, deref, gorm.bind, gorm.lift, gorm.ret.
  destruct (PaginatedQueryWithOptions _ _ _ _ _ _ w) as [[result w']|]; reflexivity.
Qed.

End Run.

(** A listing filter as a caller writes one: a [BaseFilter] in front of a
    simple builder, validated by validating its pagination. *)
Record PostFilter := { PBase : BaseFilter; PBuilder : SimpleQueryBuilder }.

Definition PostFilter_Builder : Includable.Builder PostFilter :=
  {| Includable.base :=
       {| ApplyFilters := fun f => SimpleQueryBuilder.ApplyFilters (PBuilder f);
          GetTableName := fun f => SimpleQueryBuilder.GetTableName (PBuilder f);
          GetDefaultSort := fun f => SimpleQueryBuilder.GetDefaultSort (PBuilder f);
          GetSearchFields := fun f => SimpleQueryBuilder.GetSearchFields (PBuilder f);
          GetAllowedIncludes := None |};
     Includable.GetIncludes := fun f => BaseFilter.GetIncludes (PBase f);
     Includable.GetPagination := fun f => BaseFilter.GetPagination (PBase f);
     Includable.Validate := fun f =>
       {| PBase := BaseFilter.ValidatePagination (PBase f); PBuilder := PBuilder f |};
     Includable.GetDB := None |}.

Definition listing : PostFilter :=
  {| PBase := {| Pagination := {| Page := 0; PerPage := 0; Search := "";
                                  Sort := ""; Order := "up" |};
                 Includes := [] |};
     PBuilder := ExecutorFacts.posts |}.

Lemma missing_connection_witness :
  @PaginatedQueryWithIncludable Z unit PostFilter PostFilter_Builder
    ExecutorFacts.healthy None listing ExecutorFacts.fresh
  = Some (([], 0, Some (Dyn.errorString "database connection not provided"),
           listing), ExecutorFacts.fresh).
Proof.
  exact (proj1 (@missing_connection Z unit PostFilter PostFilter_Builder
                  ExecutorFacts.healthy listing ExecutorFacts.fresh) eq_refl).
Defined.

End IncludableFacts.

(** ** More on the dynamic filter *)
Module DynamicFacts.
Import FilterFacts.

Section WithUnicode.
Context `{U : Go.Unicode}.

(** The endings a predicate can have. *)
Definition suffixes : list string :=
  [" = ?"; " != ?"; " > ?"; " >= ?"; " < ?"; " <= ?"; " LIKE ?"; " ILIKE ?";
   " IN ?"; " NOT IN ?"; " IS NULL"; " IS NOT NULL"].

(** A predicate is the field of the condition, as the caller spelled it,
    followed by one of twelve fixed endings: the text of the operator
    never reaches the statement. *)
Theorem buildCondition_shape (filter : FilterCondition) :
  exists suffix, In suffix suffixes
                 /\ DynamicFilter.buildCondition filter = Field filter +:+ suffix.
Proof.
  unfold DynamicFilter.buildCondition, suffixes.
  repeat match goal with
         | |- context [if ?c then _ else _] => destruct c
         end;
    eexists; (split; [|reflexivity]); cbn; tauto.
Qed.

(** The model makes [reflect] panic when it is neither a struct nor a
    pointer to one. *)
Definition unfit (d : DynamicFilter) : Prop :=
  match Model d with
  | None => False
  | Some (Dyn.Struct _) | Some (Dyn.Ptr (Dyn.Struct _)) => False
  | Some _ => True
  end.

Lemma isValidField_panics (d : DynamicFilter) (name : string) :
  DynamicFilter.isValidField d name = None <-> unfit d.
Proof.
  unfold DynamicFilter.isValidField, unfit.
  destruct (Model d) as [[fields|[fields|elem|]|]|]; split;
    intros; try tauto; try discriminate; reflexivity.
Qed.

(** A condition that [ApplyFilters] looks up in the model. *)
Definition considered (filter : FilterCondition) : Prop :=
  Field filter <> "" /\ Value filter <> None.

Lemma considered_dec (filter : FilterCondition) :
  {considered filter} + {Field filter = "" \/ Value filter = None}.
Proof.
  unfold considered.
  destruct (String.eqb_spec (Field filter) ""); [right; tauto |].
  destruct (Value filter); [left; split; [assumption | discriminate] | right; tauto].
Qed.

Lemma apply_one_considered (d : DynamicFilter) (i : nat)
    (filter : FilterCondition) (query : gorm.DB) :
  considered filter ->
  DynamicFilter.apply_one d i filter query =
  match DynamicFilter.isValidField d (Field filter) with
  | None => None
  | Some false => Some query
  | Some true =>
      Some (gorm.call query
              ((if (i =? 0)%nat then gorm.Where
                else if String.eqb (Go.ToUpper (Logic filter)) "OR" then gorm.Or
                     else gorm.Where)
                 (DynamicFilter.buildCondition filter) [Value filter]))
  end.
Proof.
  intros [Hf Hv].
  destruct (DynamicFilter.isValidField d (Field filter)) as [[|]|] eqn:E.
  - apply apply_one_applies; assumption.
  - unfold DynamicFilter.apply_one. apply String.eqb_neq in Hf. rewrite Hf, E.
    destruct (Value filter); [reflexivity | congruence].
  - unfold DynamicFilter.apply_one. apply String.eqb_neq in Hf. rewrite Hf, E.
    destruct (Value filter); [reflexivity | congruence].
Qed.

Lemma ApplyFilters_None_iff (d : DynamicFilter) (query : gorm.DB) :
  DynamicFilter.ApplyFilters d query = None
  <-> unfit d /\ Exists considered (Filters d).
Proof.
  unfold DynamicFilter.ApplyFilters. generalize 0%nat. revert query.
  induction (Filters d) as [|filter rest IH]; intros query i;
    cbn [DynamicFilter.apply_from].
  - split; [discriminate |]. intros [_ Hex]. inversion Hex.
  - destruct (considered_dec filter) as [Hc|Hs].
    + rewrite (apply_one_considered d i filter query Hc).
      destruct (DynamicFilter.isValidField d (Field filter)) as [[|]|] eqn:E.
      * rewrite IH. split.
        -- intros [Hu Hex]. split; [assumption | right; assumption].
        -- intros [Hu _]. apply (isValidField_panics d (Field filter)) in Hu.
           congruence.
      * rewrite IH. split.
        -- intros [Hu Hex]. split; [assumption | right; assumption].
        -- intros [Hu _]. apply (isValidField_panics d (Field filter)) in Hu.
           congruence.
      * split; [|reflexivity]. intros _.
        split; [apply (isValidField_panics d (Field filter)); assumption |].
        left. assumption.
    + rewrite (apply_one_skips d i filter query Hs). rewrite IH. split.
      * intros [Hu Hex]. split; [assumption | right; assumption].
      * intros [Hu Hex]. split; [assumption |].
        inversion Hex as [? ? Hc|? ? Hr]; subst; [|assumption].
        destruct Hc as [Hf Hv]. destruct Hs; contradiction.
Qed.

(** [ApplyFilters] panics exactly when the model is unfit and some
    condition has both a field and a value: conditions that are passed
    over never reach [reflect]. *)
Theorem ApplyFilters_panics_iff (d : DynamicFilter) (query : gorm.DB) :
  DynamicFilter.ApplyFilters d query = None
  <-> unfit d /\ Exists considered (Filters d).
Proof. apply ApplyFilters_None_iff. Qed.

(** A call [ApplyFilters] may add for a condition. *)
Definition added_for (d : DynamicFilter) (filter : FilterCondition)
    (c : gorm.Clause) : Prop :=
  considered filter
  /\ DynamicFilter.isValidField d (Field filter) = Some true
  /\ (c = gorm.Where (DynamicFilter.buildCondition filter) [Value filter]
      \/ c = gorm.Or (DynamicFilter.buildCondition filter) [Value filter]).

Lemma apply_from_adds (d : DynamicFilter) (filters : list FilterCondition) :
  forall i query query',
    DynamicFilter.apply_from d i filters query = Some query' ->
    exists added,
      query' = (query ++ added)%list
      /\ (length added <= length filters)%nat
      /\ Forall (fun c => exists filter, In filter filters /\ added_for d filter c)
                added.
Proof.
  induction filters as [|filter rest IH]; intros i query query';
    cbn [DynamicFilter.apply_from].
  - intros E. injection E as <-. exists []. rewrite app_nil_r.
    repeat split; [cbn; lia | constructor].
  - destruct (DynamicFilter.apply_one d i filter query) as [q1|] eqn:E1;
      [|discriminate].
    intros E. destruct (IH _ _ _ E) as (added & -> & Hlen & Hall).
    assert (Hweak : Forall (fun c => exists f, In f (filter :: rest)
                                               /\ added_for d f c) added).
    { eapply Forall_impl; [exact Hall |]. cbn beta.
      intros c (f & Hin & Hf). exists f. split; [right; assumption | assumption]. }
    destruct (considered_dec filter) as [Hc|Hs].
    + rewrite (apply_one_considered d i filter query Hc) in E1.
      destruct (DynamicFilter.isValidField d (Field filter)) as [[|]|] eqn:Ev;
        [| |discriminate].
      * injection E1 as <-. unfold gorm.call. rewrite <- app_assoc. cbn [app].
        eexists. split; [reflexivity |]. split; [cbn [length]; lia |].
        constructor; [|exact Hweak].
        exists filter. split; [left; reflexivity |].
        split; [assumption |]. split; [assumption |].
        destruct (i =? 0)%nat; [left; reflexivity |].
        destruct (String.eqb _ "OR"); [right | left]; reflexivity.
      * injection E1 as <-. exists added.
        split; [reflexivity |]. split; [cbn [length]; lia | exact Hweak].
    + rewrite (apply_one_skips d i filter query Hs) in E1. injection E1 as <-.
      exists added. split; [reflexivity |]. split; [cbn [length]; lia | exact Hweak].
Qed.


(** With a nil model, or a struct without fields, no condition is ever
    applied. *)
Theorem ApplyFilters_without_fields (d : DynamicFilter) (query : gorm.DB) :
  Model d = None \/ Model d = Some (Dyn.Struct [])
  \/ Model d = Some (Dyn.Ptr (Dyn.Struct [])) ->
  DynamicFilter.ApplyFilters d query = Some query.
Proof.
  intros Hm.
  assert (Hv : forall name, DynamicFilter.isValidField d name = Some false).
  { intros name. unfold DynamicFilter.isValidField.
    destruct Hm as [-> | [-> | ->]]; reflexivity. }
  unfold DynamicFilter.ApplyFilters. generalize 0%nat.
  induction (Filters d) as [|filter rest IH]; intros i; [reflexivity |].
  cbn [DynamicFilter.apply_from].
  destruct (considered_dec filter) as [Hc|Hs].
  - rewrite (apply_one_considered d i filter query Hc), Hv. apply IH.
  - rewrite (apply_one_skips d i filter query Hs). apply IH.
Qed.

End WithUnicode.

Definition wanted : list FilterCondition :=
  [ {| Field := "Title"; Operator := "like"; Value := Some (Dyn.VStr "%go%");
       Logic := "" |};
    {| Field := "password"; Operator := "="; Value := Some (Dyn.VStr "x");
       Logic := "OR" |};
    {| Field := "Status"; Operator := "in";
       Value := Some (Dyn.VStrs ["draft"; "live"]); Logic := "or" |} ].


Lemma ApplyFilters_without_fields_witness :
  @DynamicFilter.ApplyFilters ascii_tables
    {| Base := Base (on_posts wanted); Filters := wanted; TableName := "posts";
       Model := None; SearchFields := []; DefaultSort := "" |}
    [gorm.Table "posts"]
  = Some [gorm.Table "posts"].
Proof.
  apply (@ApplyFilters_without_fields ascii_tables). left. reflexivity.
Defined.

End DynamicFacts.
(** ** Splitting and trimming *)
Module TextFacts.

(** Every byte of the string passes the test. *)
Fixpoint every (ok : ascii -> bool) (s : string) : bool :=
  match s with
  | EmptyString => true
  | String c s' => ok c && every ok s'
  end.

(** The separator does not occur in the string. *)
Definition free (sep : ascii) (s : string) : bool :=
  every (fun c => negb (Ascii.eqb c sep)) s.

(** The parts written one after the other with the separator between. *)
Fixpoint joined (sep : ascii) (parts : list string) : string :=
  match parts with
  | [] => ""
  | [part] => part
  | part :: rest => part +:+ String sep (joined sep rest)
  end.

Lemma append_cons (c : ascii) (s t : string) :
  String c s +:+ t = String c (s +:+ t).
Proof. reflexivity. Qed.

Lemma append_nil_l (s : string) : "" +:+ s = s.
Proof. reflexivity. Qed.

Lemma append_nil_r (s : string) : s +:+ "" = s.
Proof.
  induction s as [|c s IH]; [reflexivity |].
  rewrite append_cons, IH. reflexivity.
Qed.

Lemma append_assoc (s t u : string) : (s +:+ t) +:+ u = s +:+ (t +:+ u).
Proof.
  induction s as [|c s IH]; [reflexivity |].
  rewrite !append_cons, IH. reflexivity.
Qed.

Lemma every_app (ok : ascii -> bool) (s t : string) :
  every ok (s +:+ t) = every ok s && every ok t.
Proof.
  induction s as [|c s IH]; [reflexivity |].
  rewrite append_cons. cbn [every]. rewrite IH. apply andb_assoc.
Qed.

Lemma Split_nonempty (s : string) (sep : ascii) : Strings.Split s sep <> [].
Proof.
  destruct s as [|c s]; cbn; [discriminate |].
  destruct (Ascii.eqb c sep); [discriminate |].
  destruct (Strings.Split s sep); discriminate.
Qed.

Lemma Split_free (s : string) (sep : ascii) :
  free sep s = true -> Strings.Split s sep = [s].
Proof.
  induction s as [|c s IH]; cbn; [reflexivity |].
  intros Hf. apply andb_true_iff in Hf as [Hc Hs].
  apply negb_true_iff in Hc. rewrite Hc, (IH Hs). reflexivity.
Qed.

Lemma Split_sep (s t : string) (sep : ascii) :
  free sep s = true ->
  Strings.Split (s +:+ String sep t) sep = s :: Strings.Split t sep.
Proof.
  induction s as [|c s IH].
  - intros _. rewrite append_nil_l. cbn [Strings.Split].
    rewrite Ascii.eqb_refl. reflexivity.
  - intros Hf. apply andb_true_iff in Hf as [Hc Hs].
    apply negb_true_iff in Hc. rewrite append_cons. cbn [Strings.Split].
    rewrite Hc, (IH Hs). reflexivity.
Qed.

(** Splitting what was joined gives the parts back, when there is at least
    one and none holds the separator. *)
Lemma Split_joined (sep : ascii) (parts : list string) :
  parts <> [] -> Forall (fun part => free sep part = true) parts ->
  Strings.Split (joined sep parts) sep = parts.
Proof.
  induction parts as [|part rest IH]; [congruence |].
  intros _ Hall. inversion Hall as [|? ? Hp Hr]; subst.
  destruct rest as [|part' rest].
  - cbn. apply Split_free. assumption.
  - change (joined sep (part :: part' :: rest))
      with (part +:+ String sep (joined sep (part' :: rest))).
    rewrite (Split_sep _ _ _ Hp), IH; [reflexivity | discriminate | assumption].
Qed.

Lemma rev_app (s t : string) :
  Space.rev (s +:+ t) = Space.rev t +:+ Space.rev s.
Proof.
  induction s as [|c s IH].
  - rewrite append_nil_l. symmetry. apply append_nil_r.
  - rewrite append_cons. cbn [Space.rev]. rewrite IH. apply append_assoc.
Qed.

Lemma rev_rev (s : string) : Space.rev (Space.rev s) = s.
Proof.
  induction s as [|c s IH]; [reflexivity |].
  cbn [Space.rev]. rewrite rev_app, IH. reflexivity.
Qed.

Lemma every_rev (ok : ascii -> bool) (s : string) :
  every ok (Space.rev s) = every ok s.
Proof.
  induction s as [|c s IH]; [reflexivity |].
  cbn [Space.rev every]. rewrite every_app, IH. cbn [every].
  rewrite andb_true_r. apply andb_comm.
Qed.

(** ASCII space. *)
Definition blank_byte (c : ascii) : bool := Space.ascii_space (Go.byte_of c).

(** An ASCII byte that is not space. *)
Definition solid_byte (c : ascii) : bool :=
  (Go.byte_of c <? Go.RuneSelf) && negb (Space.ascii_space (Go.byte_of c)).

Lemma blank_byte_ascii (c : ascii) :
  blank_byte c = true -> (Go.RuneSelf <=? Go.byte_of c) = false.
Proof.
  unfold blank_byte, Space.ascii_space, Go.RuneSelf. intros Hb.
  apply Z.leb_gt.
  repeat (apply orb_true_iff in Hb as [Hb|Hb]); apply Z.eqb_eq in Hb; lia.
Qed.

Lemma scan_blank (l s : string) :
  every blank_byte l = true -> Space.scan (l +:+ s) = Space.scan s.
Proof.
  induction l as [|c l IH]; [reflexivity |].
  cbn [every]. intros Hl. apply andb_true_iff in Hl as [Hc Hl].
  rewrite append_cons. cbn [Space.scan]. rewrite (blank_byte_ascii c Hc).
  unfold blank_byte in Hc. rewrite Hc. apply IH. assumption.
Qed.

Lemma scan_solid (c : ascii) (s : string) :
  solid_byte c = true -> Space.scan (String c s) = (String c s, false).
Proof.
  unfold solid_byte. intros Hc. apply andb_true_iff in Hc as [Hlt Hns].
  apply negb_true_iff in Hns. apply Z.ltb_lt in Hlt.
  cbn [Space.scan]. rewrite Hns.
  destruct (Go.RuneSelf <=? Go.byte_of c) eqn:E; [|reflexivity].
  apply Z.leb_le in E. lia.
Qed.

Lemma rev_nonempty (c : ascii) (s : string) :
  exists c' s', Space.rev (String c s) = String c' s'
                /\ (every solid_byte (String c s) = true -> solid_byte c' = true).
Proof.
  destruct (Space.rev (String c s)) as [|c' s'] eqn:E.
  - apply (f_equal Space.rev) in E. rewrite rev_rev in E. discriminate.
  - exists c', s'. split; [reflexivity |]. intros Hs.
    rewrite <- every_rev, E in Hs. cbn in Hs.
    apply andb_true_iff in Hs as [Hc _]. assumption.
Qed.

Lemma prefix_split (p s : string) :
  String.prefix p s = true -> s = p +:+ Strings.drop (String.length p) s.
Proof.
  revert s. induction p as [|c p IH]; intros s; [reflexivity |].
  destruct s as [|c' s]; cbn [String.prefix]; [discriminate |].
  destruct (ascii_dec c c') as [<-|]; [|discriminate].
  intros Hp. rewrite append_cons. cbn [String.length Strings.drop].
  f_equal. apply IH. assumption.
Qed.

Lemma prefix_append (p s : string) : String.prefix p (p +:+ s) = true.
Proof.
  induction p as [|c p IH]; [destruct s; reflexivity |].
  rewrite append_cons. cbn [String.prefix].
  destruct (ascii_dec c c); [assumption | congruence].
Qed.

Lemma drop_append (p s : string) : Strings.drop (String.length p) (p +:+ s) = s.
Proof.
  induction p as [|c p IH]; [destruct s; reflexivity |].
  rewrite append_cons. cbn [String.length Strings.drop]. assumption.
Qed.

Section WithTables.
Context `{T : Space.Tables}.

(** [TrimSpace] takes the ASCII space off both ends of a text of ASCII
    bytes that are not space, whatever the Unicode tables hold. *)
Lemma TrimSpace_padded (l name r : string) :
  every blank_byte l = true -> every solid_byte name = true ->
  every blank_byte r = true ->
  Space.TrimSpace (l +:+ name +:+ r) = name.
Proof.
  intros Hl Hn Hr. unfold Space.TrimSpace. rewrite (scan_blank l _ Hl).
  destruct name as [|c name].
  - rewrite append_nil_l, <- (append_nil_r r), (scan_blank r "" Hr). reflexivity.
  - rewrite append_cons.
    pose proof Hn as Hn'. cbn [every] in Hn'.
    apply andb_true_iff in Hn' as [Hc _].
    rewrite (scan_solid c _ Hc), <- append_cons.
    rewrite rev_app, scan_blank by (rewrite every_rev; assumption).
    destruct (rev_nonempty c name) as (c' & s' & E & Hc').
    rewrite E, (scan_solid c' s' (Hc' Hn)), <- E. apply rev_rev.
Qed.

End WithTables.

End TextFacts.

(** ** Names read from struct tags *)
Module TagFacts.
Import TextFacts.

Lemma find_first {A : Type} (ok : A -> bool) (before after : list A) (x : A) :
  Forall (fun y => ok y = false) before -> ok x = true ->
  List.find ok (before ++ x :: after) = Some x.
Proof.
  induction 1 as [|y before Hy _ IH]; intros Hx; cbn.
  - rewrite Hx. reflexivity.
  - rewrite Hy. apply IH. assumption.
Qed.

(** Where a [gorm] tag has a setting [column:name], after settings that do
    not begin with [column:], the column name is read from it. *)
Lemma extractColumnName_joined (before after : list string) (name : string) :
  Forall (fun part => free ";" part = true
                      /\ Strings.HasPrefix part "column:" = false) before ->
  free ";" name = true ->
  Forall (fun part => free ";" part = true) after ->
  DynamicFilter.extractColumnName
    (joined ";" (before ++ ("column:" +:+ name) :: after)) = name.
Proof.
  intros Hb Hn Ha. unfold DynamicFilter.extractColumnName.
  rewrite Split_joined.
  - rewrite (find_first _ before after ("column:" +:+ name)).
    + unfold Strings.TrimPrefix, Strings.HasPrefix. cbn.
      destruct name; reflexivity.
    + eapply Forall_impl; [exact Hb |]. cbn beta. intros part [_ Hp]. exact Hp.
    + unfold Strings.HasPrefix. cbn. destruct name; reflexivity.
  - destruct before; discriminate.
  - apply Forall_app. split.
    + eapply Forall_impl; [exact Hb |]. cbn beta. intros part [Hp _]. exact Hp.
    + constructor; [|assumption]. cbn. assumption.
Qed.

(** The name of a [json] tag is what stands before its first comma,
    unless that is ["-"]. *)
Lemma extractJSONName_joined (name : string) (opts : list string) :
  free "," name = true -> Forall (fun opt => free "," opt = true) opts ->
  DynamicFilter.extractJSONName (joined "," (name :: opts))
  = if String.eqb name "-" then "" else name.
Proof.
  intros Hn Ho. unfold DynamicFilter.extractJSONName.
  rewrite Split_joined; [|discriminate | constructor; assumption].
  destruct (String.eqb name "-"); reflexivity.
Qed.

Section WithUnicode.
Context `{U : Go.Unicode}.

(** The fields of [d]'s model, when it is a struct or a pointer to one. *)
Definition model_fields (d : DynamicFilter) : option (list Dyn.StructField) :=
  match Model d with
  | Some (Dyn.Struct fields) | Some (Dyn.Ptr (Dyn.Struct fields)) => Some fields
  | _ => None
  end.

Lemma isValidField_fields (d : DynamicFilter) (fields : list Dyn.StructField)
    (fieldName : string) :
  model_fields d = Some fields ->
  DynamicFilter.isValidField d fieldName
  = Some (existsb
            (fun field =>
               String.eqb (Dyn.Name field) fieldName
               || Go.EqualFold (Dyn.Name field) fieldName
               || String.eqb (DynamicFilter.extractColumnName (Dyn.gormTag field))
                             fieldName
               || String.eqb (DynamicFilter.extractJSONName (Dyn.jsonTag field))
                             fieldName)
            fields).
Proof.
  unfold model_fields, DynamicFilter.isValidField.
  destruct (Model d) as [[fs|[fs|elem|]|]|]; intros E; try discriminate;
    injection E as ->; reflexivity.
Qed.

(** A field of the model is accepted under four spellings: its Go name,
    any spelling [EqualFold] identifies with that name, the column name of
    its [gorm] tag and the name of its [json] tag. *)
Theorem model_field_spellings (d : DynamicFilter)
    (fields : list Dyn.StructField) (field : Dyn.StructField) :
  model_fields d = Some fields -> In field fields ->
  DynamicFilter.isValidField d (Dyn.Name field) = Some true
  /\ (forall spelling, Go.EqualFold (Dyn.Name field) spelling = true ->
        DynamicFilter.isValidField d spelling = Some true)
  /\ (forall before column after,
        Dyn.gormTag field = joined ";" (before ++ ("column:" +:+ column) :: after) ->
        Forall (fun part => free ";" part = true
                            /\ Strings.HasPrefix part "column:" = false) before ->
        free ";" column = true ->
        Forall (fun part => free ";" part = true) after ->
        DynamicFilter.isValidField d column = Some true)
  /\ (forall name opts,
        Dyn.jsonTag field = joined "," (name :: opts) ->
        free "," name = true -> Forall (fun opt => free "," opt = true) opts ->
        name <> "-" ->
        DynamicFilter.isValidField d name = Some true).
Proof.
  intros Hm Hin.
  assert (Hex : forall fieldName,
             (String.eqb (Dyn.Name field) fieldName
              || Go.EqualFold (Dyn.Name field) fieldName
              || String.eqb (DynamicFilter.extractColumnName (Dyn.gormTag field))
                            fieldName
              || String.eqb (DynamicFilter.extractJSONName (Dyn.jsonTag field))
                            fieldName) = true ->
             DynamicFilter.isValidField d fieldName = Some true).
  { intros fieldName Hok. rewrite (isValidField_fields d fields _ Hm). f_equal.
    apply existsb_exists. exists field. split; assumption. }
  repeat split.
  - apply Hex. rewrite String.eqb_refl. reflexivity.
  - intros spelling Hs. apply Hex. rewrite Hs, orb_true_r. reflexivity.
  - intros before column after Htag Hb Hc Ha. apply Hex.
    rewrite Htag, (extractColumnName_joined before after column Hb Hc Ha).
    rewrite String.eqb_refl, orb_true_r. reflexivity.
  - intros name opts Htag Hn Ho Hne. apply Hex.
    rewrite Htag, (extractJSONName_joined name opts Hn Ho).
    apply String.eqb_neq in Hne. rewrite Hne, String.eqb_refl, orb_true_r.
    reflexivity.
Qed.

(** A [json] tag that has ["-"] before its first comma gives no JSON
    name, and a [gorm] tag none of whose settings begins with [column:]
    gives no column name. *)
Lemma tags_without_names (name : string) (opts parts : list string) :
  Forall (fun opt => free "," opt = true) opts ->
  parts <> [] ->
  Forall (fun part => free ";" part = true
                      /\ Strings.HasPrefix part "column:" = false) parts ->
  DynamicFilter.extractJSONName (joined "," ("-" :: opts)) = ""
  /\ DynamicFilter.extractColumnName (joined ";" parts) = "".
Proof.
  intros Ho Hne Hp. split.
  - rewrite extractJSONName_joined; [reflexivity | reflexivity | assumption].
  - unfold DynamicFilter.extractColumnName. rewrite Split_joined.
    + assert (Hnone : List.find (fun part => Strings.HasPrefix part "column:") parts
                      = None).
      { clear Hne. induction Hp as [|part parts [_ Hpre] _ IH]; cbn;
          [reflexivity |]. rewrite Hpre. exact IH. }
      rewrite Hnone. reflexivity.
    + assumption.
    + eapply Forall_impl; [exact Hp |]. cbn beta. intros part [Hf _]. exact Hf.
Qed.

End WithUnicode.

Definition DeletedAt : Dyn.StructField :=
  {| Dyn.Name := "DeletedAt"; Dyn.gormTag := "column:deleted_at";
     Dyn.jsonTag := "deleted_at,omitempty" |}.

Lemma model_field_spellings_witness :
  @DynamicFilter.isValidField FilterFacts.ascii_tables
     (FilterFacts.on_posts []) "DeletedAt" = Some true
  /\ @DynamicFilter.isValidField FilterFacts.ascii_tables
       (FilterFacts.on_posts []) "deletedat" = Some true
  /\ @DynamicFilter.isValidField FilterFacts.ascii_tables
       (FilterFacts.on_posts []) "deleted_at" = Some true.
Proof.
  destruct (@model_field_spellings FilterFacts.ascii_tables
              (FilterFacts.on_posts []) _ DeletedAt eq_refl ltac:(cbn; tauto))
    as (Hname & Hfold & Hcolumn & Hjson).
  split; [exact Hname |]. split.
  - apply Hfold. vm_compute. reflexivity.
  - apply (Hjson "deleted_at" ["omitempty"]).
    + reflexivity.
    + reflexivity.
    + repeat constructor.
    + discriminate.
Defined.

End TagFacts.

(** ** Includes bound from the request *)
Module IncludesFacts.
Import TextFacts.

(** An include as a client may write it: a name between two runs of ASCII
    space. *)
Record Written := { lead : string; name : string; trail : string }.

Definition text (w : Written) : string := lead w +:+ name w +:+ trail w.

(** The name is made of ASCII bytes other than space and the comma, and
    the padding of ASCII space. *)
Definition well_written (w : Written) : bool :=
  every blank_byte (lead w)
  && every (fun c => solid_byte c && negb (Ascii.eqb c ",")) (name w)
  && every blank_byte (trail w).

Lemma every_and (ok ok' : ascii -> bool) (s : string) :
  every (fun c => ok c && ok' c) s = every ok s && every ok' s.
Proof.
  induction s as [|c s IH]; [reflexivity |].
  cbn [every]. rewrite IH.
  destruct (ok c), (ok' c), (every ok s), (every ok' s); reflexivity.
Qed.

Lemma every_impl (ok ok' : ascii -> bool) (s : string) :
  (forall c, ok c = true -> ok' c = true) ->
  every ok s = true -> every ok' s = true.
Proof.
  intros Himp. induction s as [|c s IH]; [reflexivity |].
  cbn [every]. intros Hs. apply andb_true_iff in Hs as [Hc Hs].
  rewrite (Himp c Hc), (IH Hs). reflexivity.
Qed.

Lemma blank_not_comma (c : ascii) :
  blank_byte c = true -> negb (Ascii.eqb c ",") = true.
Proof.
  intros Hb. apply negb_true_iff, Ascii.eqb_neq. intros ->.
  vm_compute in Hb. discriminate.
Qed.

Lemma well_written_spec (w : Written) :
  well_written w = true ->
  every blank_byte (lead w) = true /\ every solid_byte (name w) = true
  /\ every blank_byte (trail w) = true /\ free "," (text w) = true.
Proof.
  unfold well_written. intros Hw.
  apply andb_true_iff in Hw as [Hw Ht]. apply andb_true_iff in Hw as [Hl Hn].
  rewrite every_and in Hn. apply andb_true_iff in Hn as [Hn Hc].
  repeat split; try assumption.
  unfold free, text. rewrite !every_app, Hc.
  rewrite (every_impl _ _ _ blank_not_comma Hl).
  rewrite (every_impl _ _ _ blank_not_comma Ht). reflexivity.
Qed.

Section WithTables.
Context `{T : Space.Tables}.

(** Round trip of the [includes] parameter: when the request carries
    includes written one after the other with commas between, each
    possibly padded with ASCII space, the filter's includes become the
    bare names, in the order written. *)
Theorem includes_round_trip (f : BaseFilter) (ctx : gin.Context)
    (written : list Written) :
  Forall (fun w => well_written w = true) written ->
  gin.Query ctx "includes" = joined "," (map text written) ->
  gin.Query ctx "includes" <> "" ->
  Includes (BaseFilter.BindPagination f ctx) = map name written.
Proof.
  intros Hall Hq Hne. unfold BaseFilter.BindPagination. cbn [Includes].
  apply String.eqb_neq in Hne. rewrite Hne. cbn [negb]. rewrite Hq.
  rewrite Split_joined.
  - rewrite map_map. apply map_ext_in. intros w Hin.
    rewrite List.Forall_forall in Hall.
    destruct (well_written_spec w (Hall w Hin)) as (Hl & Hn & Ht & _).
    apply TrimSpace_padded; assumption.
  - destruct written; [|discriminate].
    apply String.eqb_neq in Hne. rewrite Hq in Hne. contradiction.
  - apply Forall_map. eapply Forall_impl; [exact Hall |]. cbn beta.
    intros w Hw. apply (well_written_spec w Hw).
Qed.

(** Without an [includes] parameter, or with an empty one, the includes
    the filter already holds are kept; with one, the filter holds one
    include for each comma of the parameter and one more. *)
Theorem includes_count (f : BaseFilter) (ctx : gin.Context) :
  (gin.Query ctx "includes" = "" ->
   Includes (BaseFilter.BindPagination f ctx) = Includes f)
  /\ (gin.Query ctx "includes" <> "" ->
      length (Includes (BaseFilter.BindPagination f ctx))
      = S (length (List.filter (fun c => Ascii.eqb c ",")
                          (list_ascii_of_string (gin.Query ctx "includes"))))).
Proof.
  unfold BaseFilter.BindPagination. cbn [Includes]. split.
  - intros ->. reflexivity.
  - intros Hne. apply String.eqb_neq in Hne. rewrite Hne. cbn [negb].
    rewrite length_map. clear Hne.
    induction (gin.Query ctx "includes") as [|c s IH]; [reflexivity |].
    cbn [Strings.Split list_ascii_of_string List.filter].
    destruct (Ascii.eqb c ",") eqn:E.
    + cbn [length]. rewrite IH. reflexivity.
    + rewrite <- IH. pose proof (Split_nonempty s ",") as Hs.
      destruct (Strings.Split s ","); [congruence | reflexivity].
Qed.

End WithTables.

(** Tables for requests in ASCII, which never consult them. *)
Definition unused_tables : Space.Tables :=
  {| Space.TrimFunc_IsSpace := fun s => s;
     Space.TrimRightFunc_IsSpace := fun s => s |}.

Definition asked : gin.Context :=
  gin.of_pairs [("page", "2"); ("includes", " author,comments.user , tags")].

Lemma includes_round_trip_witness :
  Includes (@BaseFilter.BindPagination unused_tables
              {| Pagination := {| Page := 1; PerPage := 10; Search := "";
                                  Sort := ""; Order := "asc" |};
                 Includes := [] |} asked)
  = ["author"; "comments.user"; "tags"].
Proof.
  apply (@includes_round_trip unused_tables _ asked
           [ {| lead := " "; name := "author"; trail := "" |};
             {| lead := ""; name := "comments.user"; trail := " " |};
             {| lead := " "; name := "tags"; trail := "" |} ]).
  - repeat constructor.
  - vm_compute. reflexivity.
  - vm_compute. discriminate.
Defined.

End IncludesFacts.

(** ** The command line *)
Module ScriptFacts.
Import TextFacts.

(** An argument that names a script. *)
Definition names_script (arg : string) : bool := Strings.HasPrefix arg "--script=".

Lemma read_flag (fl : script.Flags) (arg : string) :
  script.migrate (script.read fl arg)
    = script.migrate fl || String.eqb arg "--migrate"
  /\ script.seed (script.read fl arg) = script.seed fl || String.eqb arg "--seed"
  /\ script.run (script.read fl arg) = script.run fl || String.eqb arg "--run".
Proof.
  unfold script.read.
  destruct (String.eqb_spec arg "--migrate") as [->|_];
    [cbn; rewrite !orb_false_r, orb_true_r; auto |].
  destruct (String.eqb_spec arg "--seed") as [->|_];
    [cbn; rewrite !orb_false_r, orb_true_r; auto |].
  destruct (String.eqb_spec arg "--run") as [->|_];
    [cbn; rewrite !orb_false_r, orb_true_r; auto |].
  destruct (Strings.HasPrefix arg "--script="); cbn; rewrite !orb_false_r; auto.
Qed.

Lemma read_script (fl : script.Flags) (arg : string) :
  (names_script arg = false
   /\ script.scripFlag (script.read fl arg) = script.scripFlag fl
   /\ script.scriptName (script.read fl arg) = script.scriptName fl)
  \/ (names_script arg = true
      /\ arg = "--script=" +:+ script.scriptName (script.read fl arg)
      /\ script.scripFlag (script.read fl arg) = true).
Proof.
  unfold script.read, names_script.
  destruct (String.eqb_spec arg "--migrate") as [->|_]; [left; cbn; auto |].
  destruct (String.eqb_spec arg "--seed") as [->|_]; [left; cbn; auto |].
  destruct (String.eqb_spec arg "--run") as [->|_]; [left; cbn; auto |].
  destruct (Strings.HasPrefix arg "--script=") eqn:E; [right | left; auto].
  cbn [script.scriptName script.scripFlag]. split; [reflexivity |].
  split; [|reflexivity].
  unfold Strings.TrimPrefix. rewrite E. apply (prefix_split "--script=" arg E).
Qed.

Lemma existsb_eqb_In (x : string) (l : list string) :
  existsb (fun y => String.eqb y x) l = true <-> In x l.
Proof.
  rewrite existsb_exists. split.
  - intros (y & Hin & Hy). apply String.eqb_eq in Hy. subst. assumption.
  - intros Hin. exists x. split; [assumption | apply String.eqb_refl].
Qed.

(** What the loop over the arguments leaves in the locals. *)
Lemma flags_of_args (args : list string) (fl0 : script.Flags) :
  let fl := fold_left script.read args fl0 in
  script.migrate fl
    = script.migrate fl0 || existsb (fun a => String.eqb a "--migrate") args
  /\ script.seed fl = script.seed fl0 || existsb (fun a => String.eqb a "--seed") args
  /\ script.run fl = script.run fl0 || existsb (fun a => String.eqb a "--run") args
  /\ ((Forall (fun a => names_script a = false) args
       /\ script.scripFlag fl = script.scripFlag fl0
       /\ script.scriptName fl = script.scriptName fl0)
      \/ (exists before after,
            args = (before ++ ("--script=" +:+ script.scriptName fl) :: after)%list
            /\ Forall (fun a => names_script a = false) after
            /\ script.scripFlag fl = true)).
Proof.
  revert fl0. induction args as [|arg args IH]; intros fl0; cbn [fold_left existsb].
  - rewrite !orb_false_r. repeat split. left. repeat split. constructor.
  - destruct (IH (script.read fl0 arg)) as (Hm & Hs & Hr & Hscript).
    destruct (read_flag fl0 arg) as (Hm' & Hs' & Hr').
    cbv zeta. rewrite Hm, Hs, Hr, Hm', Hs', Hr', !orb_assoc.
    split; [reflexivity |]. split; [reflexivity |]. split; [reflexivity |].
    destruct Hscript as [(Hall & Hf & Hn) | (before & after & Hargs & Hall & Hf)].
    + destruct (read_script fl0 arg) as [(Ha & Hf' & Hn') | (Ha & Harg & Hf')].
      * left. split; [constructor; assumption |]. split; congruence.
      * right. exists [], args. cbn [app]. rewrite Hn, <- Harg.
        split; [reflexivity |]. split; [assumption | congruence].
    + right. exists (arg :: before), after. cbn [app]. rewrite <- Hargs.
      split; [reflexivity |]. split; assumption.
Qed.


Definition is_call (e : script.Event) : bool :=
  match e with
  | script.Logged _ => false
  | _ => true
  end.

Section Run.
Context {C S : Type}.
Variable database : script.Database C S.
Variable injector : script.Injector C.

(** Everything a run of [Commands] shows, by cases on the flags and on the
    outcome of each script. *)
Lemma Commands_effects (prog : string) (args : list string)
    (proc : script.Proc S bool) (w w' : script.World S)
    (ending : script.Ending bool) :
  script.Commands database injector (prog :: args) = Some proc ->
  proc w = (ending, w') ->
  exists new,
    script.events w' = (script.events w ++ new)%list
    /\ (In "--migrate" args -> head new = Some script.RanSeeder)
    /\ (In script.RanMigrate new ->
        exists before after,
          args = (before ++ "--script=migrate" :: after)%list
          /\ Forall (fun a => names_script a = false) after)
    /\ (length (List.filter is_call new) <= 3)%nat
    /\ (forall b, ending = script.Returns b -> (b = true <-> In "--run" args))
    /\ (forall status, ending = script.Exits status ->
          status = 1 /\ exists line, last new = Some (script.Logged line)).
Proof.
  unfold script.Commands. destruct (script.DB injector) as [db|]; [|discriminate].
  intros Hproc Hrun. injection Hproc as <-.
  destruct (flags_of_args args script.no_flags) as (Hm & Hs & Hr & Hscript).
  cbv zeta in Hm, Hs, Hr, Hscript.
  remember (fold_left script.read args script.no_flags) as fl eqn:Efl. clear Efl.
  destruct fl as [m s r sf nm].
  cbn [script.migrate script.seed script.run script.scripFlag script.scriptName
       script.no_flags orb] in *.
  unfold script.bind, script.must, script.invoke, script.ret, script.Println,
    script.Fatalf, script.bind, script.emit in Hrun.
  repeat (cbn in Hrun;
          match type of Hrun with
          | context [script.Seeder ?d ?c ?st] =>
              destruct (script.Seeder d c st) as [[?|] ?]
          | context [script.Migrate ?d ?c ?st] =>
              destruct (script.Migrate d c st) as [[?|] ?]
          | context [if ?c then _ else _] => destruct c eqn:?
          end).
  all: cbn in Hrun; injection Hrun as <- <-; cbn [script.events].
  all: rewrite <- ?app_assoc; cbn [app].
  all: first [ eexists; split; [reflexivity |]
             | exists []; split; [symmetry; apply app_nil_r |] ].
  all: split;
    [ intros Hin; first [ reflexivity
                        | apply existsb_eqb_In in Hin; congruence ] |].
  all: split;
    [ intros Hin; cbn [In] in Hin;
      first [ intuition discriminate
            | clear Hin;
              match goal with
              | E : String.eqb ?x "migrate" = true |- _ =>
                  apply String.eqb_eq in E; subst x
              end;
              destruct Hscript as [(_ & ? & _) | (before & after & -> & Hall & _)];
              [ discriminate
              | exists before, after; split; [reflexivity | assumption] ] ] |].
  all: split; [cbn; lia |].
  all: split;
    [ intros b Hb;
      first [ discriminate
            | injection Hb as <-; rewrite Hr; apply existsb_eqb_In ]
    | intros status Hst;
      first [ discriminate
            | injection Hst as <-; split; [reflexivity | eexists; reflexivity] ] ].
Qed.
(** The database scripts [Commands] runs. It only adds to what happened
    before; with [--migrate] among the arguments the first thing it does
    is run the seeder; the migration runs only for [--script=migrate], and
    only when no later argument names another script; and it runs at most
    three scripts. *)
Theorem Commands_scripts (prog : string) (args : list string)
    (proc : script.Proc S bool) (w w' : script.World S)
    (ending : script.Ending bool) :
  script.Commands database injector (prog :: args) = Some proc ->
  proc w = (ending, w') ->
  exists new,
    script.events w' = (script.events w ++ new)%list
    /\ (In "--migrate" args -> head new = Some script.RanSeeder)
    /\ (In script.RanMigrate new ->
        exists before after,
          args = (before ++ "--script=migrate" :: after)%list
          /\ Forall (fun a => names_script a = false) after)
    /\ (length (List.filter is_call new) <= 3)%nat.
Proof.
  intros Hproc Hrun.
  destruct (Commands_effects prog args proc w w' ending Hproc Hrun)
    as (new & Hev & Hmig & Hscr & Hlen & _).
  exists new. repeat split; assumption.
Qed.

(** How [Commands] ends. It panics exactly when no connection is
    registered or [os.Args] is empty. When it returns, the result is
    [true] exactly when [--run] is among the arguments; when it ends the
    process, the status is 1 and the last thing it did was log a line. *)
Theorem Commands_ending (osArgs : list string) :
  (script.Commands database injector osArgs = None
   <-> script.DB injector = None \/ osArgs = [])
  /\ forall proc w w' ending,
       script.Commands database injector osArgs = Some proc ->
       proc w = (ending, w') ->
       (forall b, ending = script.Returns b -> (b = true <-> In "--run" (tl osArgs)))
       /\ (forall status, ending = script.Exits status ->
             status = 1
             /\ exists line, last (script.events w') = Some (script.Logged line)).
Proof.
  split.
  - unfold script.Commands.
    destruct (script.DB injector) as [db|]; [|tauto].
    destruct osArgs as [|prog args]; [tauto |].
    split; [discriminate | intros [E|E]; discriminate].
  - intros proc w w' ending Hproc Hrun.
    destruct osArgs as [|prog args].
    { unfold script.Commands in Hproc.
      destruct (script.DB injector); discriminate. }
    destruct (Commands_effects prog args proc w w' ending Hproc Hrun)
      as (new & Hev & _ & _ & _ & Hret & Hexit).
    split; [exact Hret |].
    intros status Hst. destruct (Hexit status Hst) as (-> & line & Hlast).
    split; [reflexivity |]. exists line.
    rewrite Hev, last_app, Hlast. reflexivity.
Qed.

(** [args] answers [true] only for a command line [<program> version
    ... --run ...]; for one whose first argument is not [version] it
    answers [false] and neither the database nor the log is touched. *)
Theorem args_guard (osArgs : list string) (proc : script.Proc S bool)
    (w w' : script.World S) (ending : script.Ending bool) :
  main.args database injector osArgs = Some proc ->
  proc w = (ending, w') ->
  (forall b, ending = script.Returns b ->
     (b = true <->
      exists prog rest, osArgs = prog :: "version" :: rest /\ In "--run" rest))
  /\ (nth_error osArgs 1 <> Some "version" ->
      ending = script.Returns false /\ w' = w).
Proof.
  unfold main.args. intros Hproc Hrun.
  destruct osArgs as [|prog [|arg1 rest]].
  - injection Hproc as <-. injection Hrun as <- <-. split; [|auto].
    intros b Hb. injection Hb as <-.
    split; [discriminate | intros (? & ? & E & _); discriminate].
  - injection Hproc as <-. injection Hrun as <- <-. split; [|auto].
    intros b Hb. injection Hb as <-.
    split; [discriminate | intros (? & ? & E & _); discriminate].
  - destruct (String.eqb_spec arg1 "version") as [->|Hne].
    + destruct (Commands_effects prog ("version" :: rest) proc w w' ending
                  Hproc Hrun) as (_ & _ & _ & _ & _ & Hret & _).
      split; [|cbn [nth_error]; congruence].
      intros b Hb. rewrite (Hret b Hb). split.
      * intros [E|Hin]; [discriminate |]. exists prog, rest. auto.
      * intros (prog' & rest' & E & Hin). injection E as _ <-. right. assumption.
    + injection Hproc as <-. injection Hrun as <- <-. split; [|auto].
      intros b Hb. injection Hb as <-.
      split; [discriminate |]. intros (? & ? & E & _). congruence.
Qed.

End Run.

(** A database that counts how often it was seeded. *)
Definition counting : script.Database unit nat :=
  {| script.Seeder := fun _ n => (None, S n);
     script.Migrate := fun _ n => (None, n) |}.

Definition connected : script.Injector unit := {| script.DB := Some tt |}.

Definition start : script.World nat := {| script.store := 0%nat; script.events := [] |}.

Lemma Commands_scripts_witness :
  exists new,
    [script.RanSeeder; script.Logged "Database seeding completed."]
    = ([] ++ new)%list
    /\ (In "--migrate" ["version"; "--migrate"; "--run"] ->
        head new = Some script.RanSeeder)
    /\ (In script.RanMigrate new ->
        exists before after,
          ["version"; "--migrate"; "--run"]
          = (before ++ "--script=migrate" :: after)%list
          /\ Forall (fun a => names_script a = false) after)
    /\ (length (List.filter is_call new) <= 3)%nat.
Proof.
  exact (Commands_scripts counting connected "blog"
           ["version"; "--migrate"; "--run"] _ start
           {| script.store := 1%nat;
              script.events := [script.RanSeeder;
                                script.Logged "Database seeding completed."] |}
           (script.Returns true) eq_refl eq_refl).
Defined.

Lemma args_guard_witness :
  (forall b, script.Returns false = script.Returns b ->
     (b = true <->
      exists prog rest,
        ["blog"; "--run"] = prog :: "version" :: rest /\ In "--run" rest))
  /\ (nth_error ["blog"; "--run"] 1 <> Some "version" ->
      script.Returns false = script.Returns false /\ start = start).
Proof.
  exact (args_guard counting connected ["blog"; "--run"] _ start start
           (script.Returns false) eq_refl eq_refl).
Defined.

End ScriptFacts.

(** ** The authentication middleware *)
Module AuthFacts.
Import TextFacts.

(** [old] occurs nowhere in [s]. *)
Fixpoint absent (old s : string) : bool :=
  negb (Strings.HasPrefix s old)
  && match s with
     | EmptyString => true
     | String _ s' => absent old s'
     end.

Lemma Contains_absent (s old : string) :
  middlewares.Contains s old = negb (absent old s).
Proof.
  induction s as [|c s IH]; cbn [middlewares.Contains absent].
  - rewrite orb_false_r, andb_true_r, negb_involutive. reflexivity.
  - rewrite IH, negb_andb, negb_involutive. reflexivity.
Qed.

Lemma replace_absent (s old new : string) :
  absent old s = true -> middlewares.replace_from 0 s old new = s.
Proof.
  induction s as [|c s IH]; [reflexivity |].
  cbn [absent middlewares.replace_from]. intros Ha.
  apply andb_true_iff in Ha as [Hp Ha]. apply negb_true_iff in Hp.
  rewrite Hp, (IH Ha). reflexivity.
Qed.

Lemma replace_skip (p s old new : string) :
  middlewares.replace_from (String.length p) (p +:+ s) old new
  = middlewares.replace_from 0 s old new.
Proof.
  induction p as [|c p IH]; [reflexivity |].
  rewrite append_cons. cbn [String.length middlewares.replace_from]. exact IH.
Qed.

(** An occurrence at the front is replaced, and the scan goes on behind
    it. *)
Lemma replace_match (c : ascii) (old s new : string) :
  middlewares.replace_from 0 (String c old +:+ s) (String c old) new
  = new +:+ middlewares.replace_from 0 s (String c old) new.
Proof.
  rewrite append_cons. cbn [middlewares.replace_from].
  unfold Strings.HasPrefix. rewrite <- append_cons, prefix_append.
  cbn [String.length Nat.pred]. rewrite replace_skip. reflexivity.
Qed.

(** Bytes other than the first byte of [old] are copied. *)
Lemma replace_before (c : ascii) (old pre s new : string) :
  every (fun b => negb (Ascii.eqb b c)) pre = true ->
  middlewares.replace_from 0 (pre +:+ s) (String c old) new
  = pre +:+ middlewares.replace_from 0 s (String c old) new
  /\ middlewares.Contains (pre +:+ s) (String c old)
     = middlewares.Contains s (String c old).
Proof.
  induction pre as [|b pre IH]; [intros _; split; reflexivity |].
  cbn [every]. intros Hp. apply andb_true_iff in Hp as [Hb Hp].
  apply negb_true_iff, Ascii.eqb_neq in Hb.
  destruct (IH Hp) as [IHr IHc].
  rewrite !append_cons.
  cbn [middlewares.replace_from middlewares.Contains].
  unfold Strings.HasPrefix. cbn [String.prefix].
  destruct (ascii_dec c b) as [->|_]; [congruence |].
  rewrite IHr, IHc. split; reflexivity.
Qed.

Definition not_space (b : ascii) : bool := negb (Ascii.eqb b " ").
Definition not_B (b : ascii) : bool := negb (Ascii.eqb b "B").

(** A text without a space holds no ["Bearer "]. *)
Lemma absent_without_space (tok : string) :
  every not_space tok = true -> absent "Bearer " tok = true.
Proof.
  induction tok as [|c tok IH]; [reflexivity |].
  intros Ht. cbn [absent]. apply andb_true_iff. split.
  - apply negb_true_iff. destruct (Strings.HasPrefix _ _) eqn:E; [|reflexivity].
    apply prefix_split in E. rewrite E, every_app in Ht.
    cbn in Ht. discriminate.
  - apply IH. cbn [every] in Ht. apply andb_true_iff in Ht. tauto.
Qed.

(** The header as the middleware reads it: with text that holds no [B]
    before the scheme, and a token without a space behind it, the scheme
    is found, and cutting it out leaves the two joined. *)
Lemma bearer_cut (pre tok : string) :
  every not_B pre = true -> every not_space tok = true ->
  middlewares.Contains (pre +:+ "Bearer " +:+ tok) "Bearer " = true
  /\ middlewares.Replace_all (pre +:+ "Bearer " +:+ tok) "Bearer " ""
     = pre +:+ tok.
Proof.
  intros Hp Ht. unfold middlewares.Replace_all.
  destruct (replace_before "B" "earer " pre ("Bearer " +:+ tok) "" Hp) as [Hr Hc].
  rewrite Hr, Hc. split.
  - change ("Bearer " +:+ tok) with (String "B" ("earer " +:+ tok)).
    cbn [middlewares.Contains]. unfold Strings.HasPrefix.
    change (String "B" ("earer " +:+ tok)) with ("Bearer " +:+ tok).
    rewrite prefix_append. reflexivity.
  - rewrite (replace_match "B" "earer " tok ""), append_nil_l.
    rewrite replace_absent by (apply absent_without_space; assumption).
    reflexivity.
Qed.

Section Handler.
Context `{K : middlewares.Collaborators}.
Variable jwtService : middlewares.JWTService.

(** The keys a request carries on to the rest of the chain. *)
Definition admitted (ctx : middlewares.Context) (token userId : string)
    : middlewares.Context :=
  middlewares.Set_ (middlewares.Set_ ctx "token" (Dyn.VStr token))
                   "user_id" (Dyn.VStr userId).

(** The rest of the chain runs only for a header that holds ["Bearer "]
    and, with every ["Bearer "] cut out, is a token the service validates
    and resolves to a user; it then finds the token and the user id among
    the keys. Every other request is answered with status 401, keys and
    headers untouched, and the rest of the chain does not run; the one
    panic is on a nil token that comes without an error. *)
Theorem Authenticate_outcomes (ctx : middlewares.Context) :
  let header := middlewares.GetHeader ctx "Authorization" in
  let token := middlewares.Replace_all header "Bearer " "" in
  (exists body,
     forall next,
       middlewares.Authenticate jwtService next ctx
       = Some (middlewares.AbortWithStatusJSON ctx 401 body))
  \/ (middlewares.ValidateToken jwtService token = (None, None)
      /\ forall next, middlewares.Authenticate jwtService next ctx = None)
  \/ (exists parsed userId,
        header <> "" /\ middlewares.Contains header "Bearer " = true
        /\ middlewares.ValidateToken jwtService token = (Some parsed, None)
        /\ middlewares.Valid parsed = true
        /\ middlewares.GetUserIDByToken jwtService token = (userId, None)
        /\ forall next,
             middlewares.Authenticate jwtService next ctx
             = next (admitted ctx token userId)).
Proof.
  cbv zeta. unfold middlewares.Authenticate, middlewares.StatusUnauthorized.
  destruct (String.eqb_spec (middlewares.GetHeader ctx "Authorization") "")
    as [E|Hne]; [left; eexists; intros; reflexivity |].
  destruct (middlewares.Contains _ "Bearer ") eqn:Hc; cbn [negb];
    [|left; eexists; intros; reflexivity].
  destruct (middlewares.ValidateToken jwtService _) as [parsed [err|]] eqn:Hv;
    [left; eexists; intros; reflexivity |].
  destruct parsed as [parsed|]; [|right; left; split; [reflexivity | reflexivity]].
  destruct (middlewares.Valid parsed) eqn:Hvalid; cbn [negb];
    [|left; eexists; intros; reflexivity].
  destruct (middlewares.GetUserIDByToken jwtService _) as [userId [err|]] eqn:Hu;
    [left; eexists; intros; reflexivity |].
  right; right. exists parsed, userId. repeat split; assumption.
Qed.

(** A header [Bearer <token>] with a token the service validates and
    resolves passes, and the keys hold that token; so does a header in
    which the scheme comes after other text, which then counts as part of
    the token. *)
Theorem bearer_token_passes (ctx : middlewares.Context)
    (next : middlewares.Context -> option middlewares.Context)
    (pre tok userId : string) (parsed : middlewares.Token) :
  middlewares.GetHeader ctx "Authorization" = pre +:+ "Bearer " +:+ tok ->
  every not_B pre = true -> every not_space tok = true ->
  middlewares.ValidateToken jwtService (pre +:+ tok) = (Some parsed, None) ->
  middlewares.Valid parsed = true ->
  middlewares.GetUserIDByToken jwtService (pre +:+ tok) = (userId, None) ->
  middlewares.Authenticate jwtService next ctx
  = next (admitted ctx (pre +:+ tok) userId).
Proof.
  intros Hh Hp Ht Hv Hvalid Hu.
  destruct (bearer_cut pre tok Hp Ht) as [Hc Hr].
  unfold middlewares.Authenticate. rewrite Hh, Hc, Hr, Hv, Hvalid, Hu.
  cbn [negb].
  destruct (String.eqb_spec (pre +:+ "Bearer " +:+ tok) "") as [E|_];
    [|reflexivity].
  exfalso. destruct pre; [discriminate E | rewrite append_cons in E; discriminate E].
Qed.

End Handler.

(** Collaborators and a service for an example. *)
Definition sample : middlewares.Collaborators :=
  {| middlewares.Response := string * string;
     middlewares.BuildResponseFailed := fun message err _ => (message, err);
     middlewares.MESSAGE_FAILED_PROCESS_REQUEST := "failed to process request";
     middlewares.MESSAGE_FAILED_TOKEN_NOT_FOUND := "token not found";
     middlewares.MESSAGE_FAILED_TOKEN_NOT_VALID := "token not valid";
     middlewares.MESSAGE_FAILED_DENIED_ACCESS := "denied access" |}.

Definition one_user : middlewares.JWTService :=
  {| middlewares.ValidateToken := fun token =>
       if String.eqb token "abc.def.ghi"
       then (Some {| middlewares.Valid := true |}, None)
       else (None, Some (Dyn.errorString "token is malformed"));
     middlewares.GetUserIDByToken := fun _ => ("42", None) |}.

Definition request : @middlewares.Context sample :=
  {| middlewares.Header := {[ "Authorization" := "Bearer abc.def.ghi" ]};
     middlewares.Keys := ∅;
     middlewares.aborted := false;
     middlewares.written := None |}.

Lemma bearer_token_passes_witness :
  @middlewares.Authenticate sample one_user Some request
  = Some (@admitted sample request "abc.def.ghi" "42").
Proof.
  apply (@bearer_token_passes sample one_user request Some
           "" "abc.def.ghi" "42" {| middlewares.Valid := true |});
    vm_compute; reflexivity.
Defined.

End AuthFacts.
(** ** The pages of a bound request *)
Module PagesFacts.

Lemma bound_per_page_range (raw : string) :
  1 <= PaginationFacts.bound_per_page raw <= 100.
Proof.
  unfold PaginationFacts.bound_per_page.
  destruct (Go.Atoi raw) as [n|]; [|lia].
  destruct (0 <? n) eqn:E1; cbn [andb]; [|lia].
  destruct (n <=? 100) eqn:E2; lia.
Qed.

Section WithPlatform.
Context `{P : Float64.Platform}.

(** For a request bound from a query string and a total below [2 ^ 53],
    the pages cover the rows and none but the first can be empty: there
    is at least one page, the last page ends at or after the last row,
    and it starts before it. The window of the last page starts within
    the rows. *)
Theorem bound_request_pages (ctx : gin.Context) (totalCount : Z) :
  0 <= totalCount < 2 ^ 53 ->
  let p := BindPagination ctx in
  let r := CalculatePagination p totalCount in
  1 <= MaxPage r
  /\ totalCount <= MaxPage r * PerPage p
  /\ (0 < totalCount -> (MaxPage r - 1) * PerPage p < totalCount)
  /\ (0 < totalCount ->
      0 <= fst (PaginationRequest.GetOffset
                  (PaginationRequest.with_Page (MaxPage r) p)) < totalCount).
Proof.
  intros Ht. cbv zeta. rewrite PaginationFacts.BindPagination_eq.
  set (p := {| Page := _ |}).
  pose proof (bound_per_page_range (gin.Query ctx "per_page")) as Hpp.
  change (PaginationFacts.bound_per_page (gin.Query ctx "per_page"))
    with (PerPage p) in Hpp.
  assert (Hmax : MaxPage (CalculatePagination p totalCount)
                 = Z.max 1 (Float64.ceil_div totalCount (PerPage p))).
  { destruct (Z.eq_dec totalCount 0) as [->|Hne].
    - rewrite ResponseFacts.CalculatePagination_zero by lia. reflexivity.
    - unfold CalculatePagination. cbn [MaxPage].
      rewrite FloatFacts.div_ceil_exact by lia.
      pose proof (proj2 (FloatFacts.ceil_div_spec totalCount (PerPage p) _
                           ltac:(lia)) eq_refl) as HN.
      set (N := Float64.ceil_div totalCount (PerPage p)) in *.
      assert (1 <= N) by nia.
      destruct (N =? 0) eqn:EN; lia. }
  pose proof (proj2 (FloatFacts.ceil_div_spec totalCount (PerPage p) _
                       ltac:(lia)) eq_refl) as HN.
  set (N := Float64.ceil_div totalCount (PerPage p)) in *.
  rewrite Hmax. clear Hmax.
  assert (H0 : 0 <= N) by nia.
  split; [lia |]. split; [nia |]. split; [intros Hpos; nia |].
  intros Hpos. assert (HN1 : 1 <= N) by nia.
  replace (Z.max 1 N) with N by lia.
  unfold PaginationRequest.GetOffset, PaginationRequest.with_Page.
  cbn [Page PerPage Search Sort Order].
  destruct (N <=? 0) eqn:E; [lia |]. cbn [fst Page PerPage].
  assert (HNb : N <= totalCount) by nia.
  rewrite (WindowFacts.wrap64_id (N - 1))
    by (unfold Go.MinInt64, Go.MaxInt64; lia).
  rewrite WindowFacts.wrap64_id by (unfold Go.MinInt64, Go.MaxInt64; nia).
  nia.
Qed.

End WithPlatform.

Definition second_page : gin.Context :=
  gin.of_pairs [("page", "2"); ("per_page", "10")].

Lemma bound_request_pages_witness :
  1 <= 3 /\ 25 <= 3 * 10 /\ (0 < 25 -> (3 - 1) * 10 < 25)
  /\ (0 < 25 -> 0 <= 20 < 25).
Proof.
  exact (@bound_request_pages Float64.amd64 second_page 25 ltac:(lia)).
Defined.

End PagesFacts.

(** ** What the executor itself adds to a statement *)
Module AnatomyFacts.
Import ExecutorFacts.

(** The calls that shape the result set beyond filtering it: the executor
    makes none of them. *)
Definition shaping (c : gorm.Clause) : bool :=
  match c with
  | gorm.Select _ | gorm.Joins _ | gorm.Group _ | gorm.Having _ | gorm.Table _ => true
  | _ => false
  end.

Definition statement (e : gorm.Exec) : gorm.DB :=
  match e with
  | gorm.ExecCount stmt => stmt
  | gorm.ExecFind stmt => stmt
  end.

Lemma applyAutoSearch_adds (query : gorm.DB) (term : string)
    (fields : list string) (dialect : DatabaseDialect) :
  applyAutoSearch query term fields dialect = query
  \/ exists condition args,
       applyAutoSearch query term fields dialect
       = (query ++ [gorm.Where condition args])%list.
Proof.
  unfold applyAutoSearch, gorm.call.
  repeat case_match; eauto.
Qed.

Section Run.
Context {T S B : Type} `{QueryBuilder B}.
Variable be : gorm.Backend T S.
Variable db : gorm.DB.
Variable builder : B.

Lemma count_tail (options : PaginatedQueryOptions) (filtered : gorm.DB) :
  exists tail,
    count_stmt options filtered = (filtered ++ tail)%list
    /\ Forall (fun c => shaping c = false) tail.
Proof.
  unfold count_stmt, gorm.call.
  destruct (EnableSoftDelete options), (negb _);
    rewrite <- ?app_assoc; cbn [app];
    first [ eexists; split; [reflexivity | repeat constructor]
          | exists []; split; [symmetry; apply app_nil_r | constructor] ].
Qed.

Lemma data_tail (pagination : PaginationRequest) (includes : list string)
    (options : PaginatedQueryOptions) (filtered : gorm.DB) :
  exists tail,
    data_stmt builder pagination includes options filtered = (filtered ++ tail)%list
    /\ Forall (fun c => shaping c = false) tail.
Proof.
  assert (Hpre : Forall (fun c => shaping c = false)
                   (map gorm.Preload (validateIncludes builder includes))).
  { apply Forall_map. apply Forall_true. reflexivity. }
  unfold data_stmt, scoped_stmt, gorm.call.
  destruct (applyAutoSearch_adds filtered (Search pagination)
              (GetSearchFields builder) (Dialect options))
    as [-> | (condition & args & ->)];
    destruct (negb _), (EnableSoftDelete options);
    rewrite <- ?app_assoc; cbn [app];
    (eexists; split; [reflexivity |]); repeat (constructor; [reflexivity |]);
    exact Hpre.
Qed.

Lemma run_tails (pagination : PaginationRequest)
    (includes : list string) (options : PaginatedQueryOptions)
    (w w' : gorm.World S) rows total err :
  PaginatedQueryWithOptions be db builder pagination includes options w
    = Some ((rows, total, err), w') ->
  exists filtered ran,
    ApplyFilters builder (db ++ [gorm.Table (GetTableName builder)])%list
      = Some filtered
    /\ gorm.log w' = (gorm.log w ++ ran)%list
    /\ Forall (fun e => exists tail,
                   statement e = (filtered ++ tail)%list
                   /\ Forall (fun c => shaping c = false) tail) ran.
Proof.
  rewrite PaginatedQueryWithOptions_run. unfold base_stmt, gorm.call.
  destruct (ApplyFilters builder _) as [filtered|]; [|discriminate].
  cbv zeta.
  destruct (gorm.run_count be _ _) as [[totalCount|e] s1].
  - destruct (gorm.run_find be _ s1) as [[result|e] s2];
      intros Hr; injection Hr as <- <- <- <-;
      exists filtered; cbn [gorm.log]; rewrite <- app_assoc; cbn [app];
      (eexists; split; [reflexivity |]; split; [reflexivity |]);
      (constructor; [apply count_tail |]);
      (constructor; [apply data_tail | constructor]).
  - intros Hr; injection Hr as <- <- <- <-.
    exists filtered; cbn [gorm.log].
    eexists; split; [reflexivity |]; split; [reflexivity |].
    constructor; [apply count_tail | constructor].
Qed.


End Run.

Section Advanced.
Context {T S : Type}.
Variable be : gorm.Backend T S.
Variable db : gorm.DB.


End Advanced.

Definition shaped : AdvancedQueryBuilder :=
  {| ASimple := ExecutorFacts.posts;
     JoinClauses := ["JOIN users ON users.id = posts.user_id"];
     GroupByClauses := ["posts.id"];
     HavingClauses := ["COUNT(*) > 1"];
     SelectFields := ["posts.id"; "users.name"] |}.



End AnatomyFacts.

(** ** The options of the executor *)
Module OptionFacts.
Import ExecutorFacts AnatomyFacts.

Definition is_raw (c : gorm.Clause) : bool :=
  match c with
  | gorm.Raw _ => true
  | _ => false
  end.

(** The exclusion of soft-deleted rows. *)
Definition not_deleted : gorm.Clause := gorm.Where "deleted_at IS NULL" [].

(** What the options ask of the calls that follow the filtered statement:
    the exclusion of soft-deleted rows when it is enabled; in a count, the
    custom count as the last call when there is one; no [Raw] call
    otherwise. *)
Definition honours (options : PaginatedQueryOptions) (e : gorm.Exec)
    (tail : gorm.DB) : Prop :=
  (EnableSoftDelete options = true -> In not_deleted tail)
  /\ match e with
     | gorm.ExecCount _ =>
         if String.eqb (CustomCountQuery options) ""
         then Forall (fun c => is_raw c = false) tail
         else last tail = Some (gorm.Raw (CustomCountQuery options))
     | gorm.ExecFind _ => Forall (fun c => is_raw c = false) tail
     end.

Section Run.
Context {T S B : Type} `{QueryBuilder B}.
Variable be : gorm.Backend T S.
Variable db : gorm.DB.
Variable builder : B.

Lemma count_honours (options : PaginatedQueryOptions) (filtered : gorm.DB) :
  exists tail,
    count_stmt options filtered = (filtered ++ tail)%list
    /\ honours options (gorm.ExecCount (count_stmt options filtered)) tail.
Proof.
  unfold count_stmt, honours, gorm.call, not_deleted.
  destruct (EnableSoftDelete options), (String.eqb (CustomCountQuery options) "");
    cbn [negb]; rewrite <- ?app_assoc; cbn [app];
    first [ eexists; split; [reflexivity |]
          | exists []; split; [symmetry; apply app_nil_r |] ];
    (split; [intros E; first [discriminate E | cbn; tauto] |]);
    first [ reflexivity | repeat constructor ].
Qed.

Lemma data_honours (pagination : PaginationRequest) (includes : list string)
    (options : PaginatedQueryOptions) (filtered : gorm.DB) :
  exists tail,
    data_stmt builder pagination includes options filtered = (filtered ++ tail)%list
    /\ honours options
         (gorm.ExecFind (data_stmt builder pagination includes options filtered))
         tail.
Proof.
  assert (Hpre : Forall (fun c => is_raw c = false)
                   (map gorm.Preload (validateIncludes builder includes))).
  { apply Forall_map. apply Forall_true. reflexivity. }
  unfold data_stmt, scoped_stmt, honours, gorm.call, not_deleted.
  destruct (applyAutoSearch_adds filtered (Search pagination)
              (GetSearchFields builder) (Dialect options))
    as [-> | (condition & args & ->)];
    destruct (negb _), (EnableSoftDelete options);
    rewrite <- ?app_assoc; cbn [app];
    (eexists; split; [reflexivity |]);
    (split; [intros E; first [discriminate E | cbn; tauto] |]);
    repeat (constructor; [reflexivity |]); exact Hpre.
Qed.


End Run.

Definition careful : PaginatedQueryOptions :=
  {| Dialect := PostgreSQL; EnableSoftDelete := true;
     CustomCountQuery := "SELECT COUNT(DISTINCT id) FROM posts" |}.


End OptionFacts.

(** ** Listings over a dynamic filter *)
Module DynamicListing.
Import ExecutorFacts DynamicFacts.

Section Run.
Context `{U : Go.Unicode} {T S : Type}.
Variable be : gorm.Backend T S.
Variable db : gorm.DB.


End Run.
End DynamicListing.
